(** * Modrinth collection import tool: a shallow embedding of [main.py]

    The development follows the script function by function, proves
    what the specification says of it, and then more of what the script
    does: what each function returns and raises, and what a whole run
    may and may not do.

    - Python strings are byte strings in UTF-8 ([string]); the
      operations on them are those of [str] on ASCII, and the fields of
      [PyRuntime] where a table of Unicode is needed.
    - JSON documents, and the Python objects [json.load] makes of them,
      are the values of [json]; [None] is [JNull]; a [dict] is the list
      of its items in insertion order.
    - [urlparse] is the one of [urllib.parse] in CPython 3.11, on [str]
      arguments: leading control characters and spaces are stripped,
      TAB, CR and LF removed, then scheme, network location, fragment,
      query and parameters are split off.
    - A pure call returns or raises ([result]).  The script runs in a
      world ([World]: the lines left on standard input, the files, the
      events so far, the latest first) under an environment ([Env]: the
      server, the clock, the disk), and a call ends by returning, by
      [sys.exit] or by an exception ([outcome]).
    - The message of an exception is kept up to its first line break,
      and a path in a message is the path as given; the properties are
      about the classes of the exceptions, not about their messages.
    - The two [while True] loops read a line in every turn; they are
      defined by recursion on a fuel that is set above the number of
      lines left, and is never used up ([prompt_loop_fuel],
      [choose_loop_fuel]). *)

From Stdlib Require Import ZArith QArith Ascii String List Lia.
From stdpp Require Import base tactics option list sorting gmap strings pretty.

Local Open Scope string_scope.
Local Open Scope Z_scope.

(** ** Python values *)

#[local] Set Warnings "-register-all".

Inductive json : Type :=
| JNull
| JBool (b : bool)
| JInt (n : Z)
| JFloat (q : Q)
| JStr (s : string)
| JArr (l : list json)
| JObj (d : list (string * json)).

(** The truth value Python gives an object in [if x], [not x], [x or y]. *)
Definition truthy (v : json) : bool :=
  match v with
  | JNull => false
  | JBool b => b
  | JInt n => negb (n =? 0)
  | JFloat q => negb (Qeq_bool q 0)
  | JStr s => negb (String.eqb s "")
  | JArr l => match l with [] => false | _ => true end
  | JObj d => match d with [] => false | _ => true end
  end.

(** Exceptions: the class and the message. *)
Inductive exc_class : Type :=
| ValueError | TypeError | AttributeError | RuntimeError | ConfigError
| FileNotFoundError | EOFError | JSONDecodeError | RequestException
| OSError | KeyError.

Record exn : Type := Exn { exn_class : exc_class; exn_msg : string }.

(** What a call of a pure function does: it returns or it raises. *)
Inductive result (A : Type) : Type :=
| Returns (a : A)
| Raises (e : exn).
Arguments Returns {A} a.
Arguments Raises {A} e.

(** Sequencing of pure calls: [let? x := c in k] evaluates [c] and, when
    it returns, [k]; an exception of [c] is the exception of the whole. *)
Definition result_bind {A B} (r : result A) (f : A -> result B) : result B :=
  match r with
  | Returns a => f a
  | Raises e => Raises e
  end.

Notation "'let?' x ':=' c 'in' k" := (result_bind c (fun x => k))
  (at level 10, x name, c at level 100, k at level 200).

(** ** The library functions taken as given *)

Class PyRuntime : Type := {
  (** [str.lower()] and [str.strip()] on a string with a character
      outside ASCII *)
  unicode_lower : string -> string;
  unicode_strip : string -> string;
  (** [unicodedata.normalize('NFKC', s)] *)
  nfkc : string -> string;
  (** [_check_bracketed_host(hostname)] of [urllib.parse]: [false] when
      it raises [ValueError] *)
  bracketed_host_ok : string -> bool;
  (** [int(s)]: [None] when it raises [ValueError] *)
  py_int : string -> option Z;
  (** [repr(v)], which is also [str(v)] for a value that is not a [str] *)
  py_repr : json -> string;
  (** [json.dumps(v)] *)
  json_dumps : json -> string;
  (** [list(s)]: the characters of a [str] *)
  str_chars : string -> list string
}.

(** ** Strings *)

Module Str.

Definition is_ascii_char (c : ascii) : bool := (nat_of_ascii c <? 128)%nat.

Fixpoint is_ascii (s : string) : bool :=
  match s with
  | EmptyString => true
  | String c s' => is_ascii_char c && is_ascii s'
  end.

Definition is_upper (c : ascii) : bool :=
  ((65 <=? nat_of_ascii c) && (nat_of_ascii c <=? 90))%nat.

Definition is_alpha (c : ascii) : bool :=
  is_upper c || ((97 <=? nat_of_ascii c) && (nat_of_ascii c <=? 122))%nat.

Definition is_digit (c : ascii) : bool :=
  ((48 <=? nat_of_ascii c) && (nat_of_ascii c <=? 57))%nat.

Definition lower_char (c : ascii) : ascii :=
  if is_upper c then ascii_of_nat (nat_of_ascii c + 32) else c.

Fixpoint ascii_lower (s : string) : string :=
  match s with
  | EmptyString => EmptyString
  | String c s' => String (lower_char c) (ascii_lower s')
  end.

(** [str.isspace] on ASCII: TAB, LF, VT, FF, CR, FS, GS, RS, US, SPACE. *)
Definition is_space (c : ascii) : bool :=
  let n := nat_of_ascii c in
  ((9 <=? n) && (n <=? 13) || (28 <=? n) && (n <=? 32))%nat.

(** [s.lstrip(chars)], the set of characters given as a predicate *)
Fixpoint lstrip (P : ascii -> bool) (s : string) : string :=
  match s with
  | EmptyString => EmptyString
  | String c s' => if P c then lstrip P s' else s
  end.

Fixpoint rstrip (P : ascii -> bool) (s : string) : string :=
  match s with
  | EmptyString => EmptyString
  | String c s' =>
      match rstrip P s' with
      | EmptyString => if P c then EmptyString else String c EmptyString
      | r => String c r
      end
  end.

Definition ascii_strip (s : string) : string :=
  rstrip is_space (lstrip is_space s).

(** [c in s] *)
Fixpoint contains (c : ascii) (s : string) : bool :=
  match s with
  | EmptyString => false
  | String d s' => Ascii.eqb d c || contains c s'
  end.

(** [s.replace(c, "")] *)
Fixpoint remove (c : ascii) (s : string) : string :=
  match s with
  | EmptyString => EmptyString
  | String d s' => if Ascii.eqb d c then remove c s' else String d (remove c s')
  end.

(** [s[n:]] and [s[:n]] *)
Fixpoint drop (n : nat) (s : string) : string :=
  match n, s with
  | O, _ => s
  | S _, EmptyString => EmptyString
  | S n', String _ s' => drop n' s'
  end.

Fixpoint take (n : nat) (s : string) : string :=
  match n, s with
  | O, _ => EmptyString
  | S _, EmptyString => EmptyString
  | S n', String c s' => String c (take n' s')
  end.

(** [s[a:b]] *)
Definition slice (a b : nat) (s : string) : string := take (b - a) (drop a s).

(** [s.find(c)]: [None] stands for [-1]. *)
Fixpoint find (c : ascii) (s : string) : option nat :=
  match s with
  | EmptyString => None
  | String d s' =>
      if Ascii.eqb d c then Some O
      else match find c s' with Some i => Some (S i) | None => None end
  end.

(** [s.find(c, start)] *)
Definition find_from (c : ascii) (s : string) (start : nat) : option nat :=
  match find c (drop start s) with
  | Some i => Some (start + i)%nat
  | None => None
  end.

(** [s.rfind(c)] *)
Fixpoint rfind (c : ascii) (s : string) : option nat :=
  match s with
  | EmptyString => None
  | String d s' =>
      match rfind c s' with
      | Some i => Some (S i)
      | None => if Ascii.eqb d c then Some O else None
      end
  end.

(** [s.split(sep)] with a separator of one character *)
Fixpoint split (sep : ascii) (s : string) : list string :=
  match s with
  | EmptyString => [EmptyString]
  | String c s' =>
      if Ascii.eqb c sep then EmptyString :: split sep s'
      else match split sep s' with
           | [] => [String c EmptyString]
           | p :: ps => String c p :: ps
           end
  end.

(** [s.split(sep, 1)] when [sep in s]; otherwise [(s, "")] *)
Definition split_once (sep : ascii) (s : string) : string * string :=
  match find sep s with
  | Some i => (take i s, drop (S i) s)
  | None => (s, EmptyString)
  end.

(** [s.partition(sep)]: the part before, whether [sep] was found, the
    part after. *)
Definition partition (sep : ascii) (s : string) : string * bool * string :=
  match find sep s with
  | Some i => (take i s, true, drop (S i) s)
  | None => (s, false, EmptyString)
  end.

(** [s.rpartition(sep)] *)
Definition rpartition (sep : ascii) (s : string) : string * bool * string :=
  match rfind sep s with
  | Some i => (take i s, true, drop (S i) s)
  | None => (EmptyString, false, s)
  end.

(** [s.startswith(p)] *)
Fixpoint startswith (p s : string) : bool :=
  match p, s with
  | EmptyString, _ => true
  | String _ _, EmptyString => false
  | String a p', String b s' => Ascii.eqb a b && startswith p' s'
  end.

(** Is [p] a substring of [s]: Python's [p in s] *)
Fixpoint substring_of (p s : string) : bool :=
  startswith p s ||
  match s with
  | EmptyString => false
  | String _ s' => substring_of p s'
  end.

(** The first character of a string, if any, is one of [cs]. *)
Definition head_in (cs : list ascii) (s : string) : bool :=
  match s with
  | EmptyString => true
  | String c _ => existsb (Ascii.eqb c) cs
  end.

Fixpoint forallb (P : ascii -> bool) (s : string) : bool :=
  match s with
  | EmptyString => true
  | String c s' => P c && forallb P s'
  end.

End Str.

Section Runtime.
Context {RT : PyRuntime}.

(** [s.lower()] *)
Definition str_lower (s : string) : string :=
  if Str.is_ascii s then Str.ascii_lower s else unicode_lower s.

(** [s.strip()] *)
Definition str_strip (s : string) : string :=
  if Str.is_ascii s then Str.ascii_strip s else unicode_strip s.

(** [str(v)] *)
Definition py_str (v : json) : string :=
  match v with
  | JStr s => s
  | _ => py_repr v
  end.

End Runtime.

(** ** [urllib.parse]: [urlsplit] and [urlparse] on a [str] *)

Module Url.

Record SplitResult : Type := mkSplit {
  s_scheme : string; s_netloc : string; s_url : string;
  s_query : string; s_fragment : string
}.

Record ParseResult : Type := mkParse {
  scheme : string; netloc : string; path : string;
  params : string; query : string; fragment : string
}.

(** [_WHATWG_C0_CONTROL_OR_SPACE]: the characters up to the space *)
Definition c0_control_or_space (c : ascii) : bool := (nat_of_ascii c <=? 32)%nat.

(** [scheme_chars]: letters, digits, [+], [-] and [.] *)
Definition scheme_char (c : ascii) : bool :=
  Str.is_alpha c || Str.is_digit c ||
  Ascii.eqb c "+" || Ascii.eqb c "-" || Ascii.eqb c ".".

Definition uses_params : list string :=
  [""; "ftp"; "hdl"; "prospero"; "http"; "imap"; "https"; "shttp"; "rtsp";
   "rtspu"; "sip"; "sips"; "mms"; "sftp"; "tel"].

(** The first lines of [urlsplit]: leading control characters and
    spaces are stripped, then TAB, CR and LF are removed everywhere. *)
Definition sanitize (url : string) : string :=
  let url := Str.lstrip c0_control_or_space url in
  fold_left (fun u b => Str.remove b u) ["009"; "013"; "010"]%char url.

(** No TAB, CR or LF in the string: nothing for [urlsplit] to remove *)
Definition no_unsafe_bytes (url : string) : bool :=
  negb (Str.contains "009" url) && negb (Str.contains "013" url)
  && negb (Str.contains "010" url).

(** The scheme test of [urlsplit]: [Some (scheme, rest)] when the text
    before the first colon is a scheme. *)
Definition split_scheme (url : string) : option (string * string) :=
  match Str.find ":" url, url with
  | Some (S i'), String c0 _ =>
      let i := S i' in
      if Str.is_alpha c0 && Str.forallb scheme_char (Str.take i url)
      then Some (Str.ascii_lower (Str.take i url), Str.drop (S i) url)
      else None
  | _, _ => None
  end.

Definition splitnetloc (url : string) (start : nat) : string * string :=
  let delim :=
    fold_left
      (fun delim c =>
         match Str.find_from c url start with
         | Some wdelim => Nat.min delim wdelim
         | None => delim
         end)
      ["/"; "?"; "#"]%char (String.length url) in
  (Str.slice start delim url, Str.drop delim url).

Definition invalid_ipv6 : exn := Exn ValueError "Invalid IPv6 URL".

(** A string that [urlsplit] takes for a scheme: a letter first, and
    characters of schemes only *)
Definition valid_scheme (sch : string) : bool :=
  match sch with
  | String c _ => Str.is_alpha c && Str.forallb scheme_char sch
  | EmptyString => false
  end.

(** The removal of TAB, CR and LF *)
Definition strip_unsafe (s : string) : string :=
  Str.remove "010" (Str.remove "013" (Str.remove "009" s)).

(** The end of [urlsplit]: the fragment and the query are cut off what
    follows the network location; the path, the query, the fragment. *)
Definition split_rest (rest : string) : string * string * string :=
  let '(url, fragment) :=
    if Str.contains "#" rest then Str.split_once "#" rest
    else (rest, EmptyString) in
  let '(url, query) :=
    if Str.contains "?" url then Str.split_once "?" url
    else (url, EmptyString) in
  (url, query, fragment).

Section WithRuntime.
Context {RT : PyRuntime}.

Definition check_bracketed_host (hostname : string) : result unit :=
  if bracketed_host_ok hostname then Returns tt
  else Raises (Exn ValueError "invalid bracketed host").

Definition check_bracketed_netloc (netloc : string) : result unit :=
  let '(_, _, hostname_and_port) := Str.rpartition "@" netloc in
  let '(before_bracket, have_open_br, bracketed) :=
    Str.partition "[" hostname_and_port in
  if have_open_br then
    if negb (String.eqb before_bracket "") then Raises invalid_ipv6
    else
      let '(hostname, _, port) := Str.partition "]" bracketed in
      if negb (String.eqb port "") && negb (Str.startswith ":" port)
      then Raises invalid_ipv6
      else check_bracketed_host hostname
  else
    let '(hostname, _, port) := Str.partition ":" hostname_and_port in
    check_bracketed_host hostname.

Definition checknetloc (netloc : string) : result unit :=
  if String.eqb netloc "" || Str.is_ascii netloc then Returns tt
  else
    let n := fold_left (fun n c => Str.remove c n) ["@"; ":"; "#"; "?"]%char netloc in
    let netloc2 := nfkc n in
    if String.eqb n netloc2 then Returns tt
    else if existsb (fun c => Str.contains c netloc2) ["/"; "?"; "#"; "@"; ":"]%char
    then Raises (Exn ValueError
                   ("netloc '" ++ netloc ++
                    "' contains invalid characters under NFKC normalization"))
    else Returns tt.

(** [urlsplit(url)], with the default [scheme=''] and
    [allow_fragments=True] *)
Definition urlsplit (url : string) : result SplitResult :=
  let url := sanitize url in
  let '(scheme, url) :=
    match split_scheme url with
    | Some (sch, rest) => (sch, rest)
    | None => (EmptyString, url)
    end in
  let after_netloc : result (string * string) :=
    if Str.startswith "//" url then
      let '(netloc, url) := splitnetloc url 2 in
      let lb := Str.contains "[" netloc in
      let rb := Str.contains "]" netloc in
      if (lb && negb rb) || (rb && negb lb) then Raises invalid_ipv6
      else if lb && rb then
        match check_bracketed_netloc netloc with
        | Raises e => Raises e
        | Returns _ => Returns (netloc, url)
        end
      else Returns (netloc, url)
    else Returns (EmptyString, url) in
  match after_netloc with
  | Raises e => Raises e
  | Returns (netloc, url) =>
      let '(url, fragment) :=
        if Str.contains "#" url then Str.split_once "#" url
        else (url, EmptyString) in
      let '(url, query) :=
        if Str.contains "?" url then Str.split_once "?" url
        else (url, EmptyString) in
      match checknetloc netloc with
      | Raises e => Raises e
      | Returns _ => Returns (mkSplit scheme netloc url query fragment)
      end
  end.

Definition splitparams (url : string) : string * string :=
  if Str.contains "/" url then
    match Str.rfind "/" url with
    | Some r =>
        match Str.find_from ";" url r with
        | Some i => (Str.take i url, Str.drop (S i) url)
        | None => (url, EmptyString)
        end
    | None => (url, EmptyString)
    end
  else
    match Str.find ";" url with
    | Some i => (Str.take i url, Str.drop (S i) url)
    | None => (url, EmptyString) (* not reached: [urlparse] has seen a [;] *)
    end.

(** [urlparse(url)] *)
Definition urlparse (url : string) : result ParseResult :=
  match urlsplit url with
  | Raises e => Raises e
  | Returns sp =>
      let '(url, params) :=
        if existsb (String.eqb (s_scheme sp)) uses_params
           && Str.contains ";" (s_url sp)
        then splitparams (s_url sp)
        else (s_url sp, EmptyString) in
      Returns (mkParse (s_scheme sp) (s_netloc sp) url params
                       (s_query sp) (s_fragment sp))
  end.

(** The [hostname] property of a parse result: the host of the
    network location, without user information and port, in lower
    case. *)
Definition hostname (p : ParseResult) : option string :=
  let '(_, _, hostinfo) := Str.rpartition "@" (netloc p) in
  let '(_, have_open_br, bracketed) := Str.partition "[" hostinfo in
  let host :=
    if have_open_br then fst (fst (Str.partition "]" bracketed))
    else fst (fst (Str.partition ":" hostinfo)) in
  if String.eqb host "" then None
  else
    let '(h, percent, zone) := Str.partition "%" host in
    Some (str_lower h ++ (if percent then "%" else "") ++ zone).

End WithRuntime.

End Url.

(** ** [extract_modrinth_project_id] *)

Section Extract.
Context {RT : PyRuntime}.

(** [[p for p in path.split("/") if p]] *)
Definition path_parts (path : string) : list string :=
  List.filter (fun p => negb (String.eqb p "")) (Str.split "/" path).

Definition extract_modrinth_project_id (url : string) : result (option string) :=
  match Url.urlparse url with
  | Raises _ => Returns None
  | Returns parsed =>
      let host := str_lower (Url.netloc parsed) in
      if negb (String.eqb host "modrinth.com" || String.eqb host "www.modrinth.com")
      then Returns None
      else
        match path_parts (Url.path parsed) with
        | p0 :: p1 :: _ =>
            if String.eqb (str_lower p0) "mod" then Returns (Some p1)
            else Returns None
        | _ => Returns None
        end
  end.

(** The test the function makes: the network location of the URL, in
    lower case, is the domain with or without [www.] *)
Definition netloc_matches (p : Url.ParseResult) : Prop :=
  str_lower (Url.netloc p) = "modrinth.com" \/
  str_lower (Url.netloc p) = "www.modrinth.com".

(** A URL of a mod: scheme, host, the tag of mods, the id, and what
    follows the id *)
Definition mod_url (sch host tag id rest : string) : string :=
  sch ++ "://" ++ host ++ "/" ++ tag ++ "/" ++ id ++ rest.

(** An id that stands in a URL as it is: not empty, and without [/],
    [?], [#], [;], TAB, CR and LF *)
Definition plain_id (id : string) : bool :=
  negb (String.eqb id "")
  && negb (existsb (fun c => Str.contains c id) ["/"; "?"; "#"; ";"]%char)
  && Url.no_unsafe_bytes id.

(** The host of the URL, as [urllib.parse] gives it, is the domain
    with or without [www.] *)
Definition host_is_canonical (p : Url.ParseResult) : Prop :=
  Url.hostname p = Some "modrinth.com" \/
  Url.hostname p = Some "www.modrinth.com".

End Extract.

(** ** Operations of the Python object model on JSON values *)

Module Py.

(** A [dict] keeps its keys in insertion order. *)
Fixpoint dict_get (d : list (string * json)) (k : string) : option json :=
  match d with
  | [] => None
  | (k', v) :: d' => if String.eqb k' k then Some v else dict_get d' k
  end.

(** [d[k] = v]: the value is replaced in place, a new key is appended. *)
Fixpoint dict_set (d : list (string * json)) (k : string) (v : json)
  : list (string * json) :=
  match d with
  | [] => [(k, v)]
  | (k', v') :: d' =>
      if String.eqb k' k then (k', v) :: d' else (k', v') :: dict_set d' k v
  end.

Definition no_attribute (name : string) : exn :=
  Exn AttributeError ("object has no attribute '" ++ name ++ "'").

(** [x.get(k, default)] *)
Definition get_default (x : json) (k : string) (default : json) : result json :=
  match x with
  | JObj d => Returns (match dict_get d k with Some v => v | None => default end)
  | _ => Raises (no_attribute "get")
  end.

(** [x.get(k)] *)
Definition get (x : json) (k : string) : result json := get_default x k JNull.

(** [x[k]] with a [str] key *)
Definition getitem (x : json) (k : string) : result json :=
  match x with
  | JObj d =>
      match dict_get d k with
      | Some v => Returns v
      | None => Raises (Exn KeyError k)
      end
  | _ => Raises (Exn TypeError "indices must be integers or the object is not subscriptable")
  end.

(** [x[k] = v] with a [str] key *)
Definition setitem (x : json) (k : string) (v : json) : result json :=
  match x with
  | JObj d => Returns (JObj (dict_set d k v))
  | _ => Raises (Exn TypeError "object does not support item assignment with a str key")
  end.

(** [v == s] for a [str] [s] *)
Definition eq_str (v : json) (s : string) : bool :=
  match v with
  | JStr t => String.eqb t s
  | _ => false
  end.

(** [k in x] with a [str] [k] *)
Definition contains (x : json) (k : string) : result bool :=
  match x with
  | JObj d => Returns (match dict_get d k with Some _ => true | None => false end)
  | JArr l => Returns (existsb (fun v => eq_str v k) l)
  | JStr s => Returns (Str.substring_of k s)
  | _ => Raises (Exn TypeError "argument is not iterable")
  end.

(** [isinstance(x, list)] *)
Definition is_list (x : json) : bool :=
  match x with
  | JArr _ => true
  | _ => false
  end.

(** [a or b] *)
Definition or_else (a b : json) : json := if truthy a then a else b.

Section WithRuntime.
Context {RT : PyRuntime}.

(** The elements [for x in v] goes through. *)
Definition iter (v : json) : result (list json) :=
  match v with
  | JArr l => Returns l
  | JObj d => Returns (map (fun kv => JStr (fst kv)) d)
  | JStr s => Returns (map JStr (str_chars s))
  | _ => Raises (Exn TypeError "object is not iterable")
  end.

End WithRuntime.

End Py.

(** ** The world the script runs in *)

Inductive file_content : Type :=
| Unparseable            (** not a JSON document *)
| Content (v : json).    (** what [json.load] returns *)

Inductive http_outcome : Type :=
| NetworkError (e : exn)                                  (** [requests] raises *)
| Response (status : Z) (text : string) (body : option json).
    (** [resp.status_code], [resp.text] and [resp.json()], [None] when
        the latter raises *)

(** What the process does that can be observed from outside. *)
Inductive event : Type :=
| Print (line : string)
| PrintErr (line : string)
| Prompt (text : string)
| HttpGet (url : string)
| HttpPatch (url : string) (data : string)
| WriteState (state : json).

(** The part of the world the script reads but does not change. *)
Record Env : Type := mkEnv {
  http_get : string -> list (string * json) -> http_outcome;
  http_patch : string -> list (string * json) -> string -> http_outcome;
  (** [datetime.now(timezone.utc).isoformat()] *)
  now_iso : string;
  (** the exception, if any, that writing the temporary state file raises *)
  dump_error : json -> option exn
}.

(** The part it changes: the lines still to be read on standard input,
    the files, and the events so far, the latest first. *)
Record World : Type := mkWorld {
  stdin : list string;
  fs : gmap string file_content;
  trace : list event
}.

Definition emit (e : event) (w : World) : World :=
  mkWorld (stdin w) (fs w) (e :: trace w).

(** How a call ends: it returns, [sys.exit] was called, or an exception
    (an [Exception], which [except Exception] catches) is raised. *)
Inductive outcome (A : Type) : Type :=
| Ok (a : A)
| SystemExit (code : Z)
| Err (e : exn).
Arguments Ok {A} a.
Arguments SystemExit {A} code.
Arguments Err {A} e.

Definition M (A : Type) : Type := World -> outcome A * World.

Definition ret {A} (a : A) : M A := fun w => (Ok a, w).

Definition bind {A B} (m : M A) (f : A -> M B) : M B := fun w =>
  match m w with
  | (Ok a, w') => f a w'
  | (SystemExit c, w') => (SystemExit c, w')
  | (Err e, w') => (Err e, w')
  end.

(** [x <- c ;; k] runs [c] and, when it returns, [k]. *)
Notation "x <- c ;; k" := (bind c (fun x => k))
  (at level 100, c at next level, right associativity).
Notation "c ;; k" := (bind c (fun _ => k))
  (at level 100, right associativity).

Definition raise {A} (e : exn) : M A := fun w => (Err e, w).

Definition sys_exit {A} (code : Z) : M A := fun w => (SystemExit code, w).

(** A pure call inside the script *)
Definition lift {A} (r : result A) : M A :=
  match r with
  | Returns a => ret a
  | Raises e => raise e
  end.

(** [try: body / except Exception as e: handler(e)] *)
Definition try_except {A} (body : M A) (handler : exn -> M A) : M A := fun w =>
  match body w with
  | (Err e, w') => handler e w'
  | r => r
  end.

(** [try: body / except cls as e: handler(e)] *)
Definition try_except_class {A} (cls : exc_class -> bool) (body : M A)
    (handler : exn -> M A) : M A :=
  try_except body (fun e => if cls (exn_class e) then handler e else raise e).

Definition print (line : string) : M unit := fun w => (Ok tt, emit (Print line) w).

Definition print_err (line : string) : M unit := fun w => (Ok tt, emit (PrintErr line) w).

(** [input(prompt)] *)
Definition input (prompt : string) : M string := fun w =>
  let w := emit (Prompt prompt) w in
  match stdin w with
  | [] => (Err (Exn EOFError "EOF when reading a line"), w)
  | line :: rest => (Ok line, mkWorld rest (fs w) (trace w))
  end.

(** The exit status of the process running a call of [main]. *)
Definition exit_status {A} (o : outcome A) : Z :=
  match o with
  | Ok _ => 0
  | SystemExit code => code
  | Err _ => 1
  end.

(** ** The script *)

Definition API_BASE : string := "https://api.modrinth.com/v3".
Definition STATE_PATH : string := "modrinth_state.json".
(** [STATE_PATH.with_suffix(".tmp")] *)
Definition STATE_TMP : string := "modrinth_state.tmp".

(** The command line after [argparse]. *)
Record Args : Type := mkArgs {
  arg_config : string;
  arg_modlist : string;
  arg_collection_id : option string;
  arg_dry_run : bool
}.

(** [s in {a, b}] for strings *)
Definition str_in (s : string) (l : list string) : bool := existsb (String.eqb s) l.

(** The truth value of an [Optional[str]] *)
Definition pid_truthy (pid : option string) : bool :=
  match pid with
  | Some s => negb (String.eqb s "")
  | None => false
  end.

(** The order of Python on strings, for strings in UTF-8: the
    lexicographic order of the bytes *)
Fixpoint lex_le (s t : string) : Prop :=
  match s, t with
  | EmptyString, _ => True
  | String _ _, EmptyString => False
  | String a s', String b t' =>
      (N_of_ascii a < N_of_ascii b)%N \/ (a = b /\ lex_le s' t')
  end.

(** [sorted(s)] of a set of strings *)
Definition sorted (s : gset string) : list string :=
  merge_sort String.le (elements s).

(** The merge of [main]: from the set of the collection's projects and
    the set of the projects of the mod list, the sorted union and the
    number of projects added. *)
Definition merge (existing_set to_add_set : gset string) : list string * Z :=
  let final_set := sorted (existing_set ∪ to_add_set) in
  let added_count := Z.of_nat (length final_set) - Z.of_nat (size existing_set) in
  (final_set, added_count).

(** The warning of [main] about the projects of the collection *)
Definition projects_warning : string :=
  "[warn] Unexpected 'projects' field format in collection; treating as empty.".

Section Script.
Context {RT : PyRuntime} (env : Env).

Definition len (v : json) : result Z :=
  match v with
  | JArr l => Returns (Z.of_nat (length l))
  | JObj d => Returns (Z.of_nat (length d))
  | JStr s => Returns (Z.of_nat (length (str_chars s)))
  | _ => Raises (Exn TypeError "object has no len()")
  end.

(** [p.is_file()] *)
Definition is_file (path : string) : M bool := fun w =>
  (Ok (bool_decide (is_Some (fs w !! path))), w).

(** [with p.open("r") as f: json.load(f)] on an existing file *)
Definition json_load (path : string) : M json := fun w =>
  match fs w !! path with
  | Some (Content v) => (Ok v, w)
  | _ => (Err (Exn JSONDecodeError path), w)
  end.

(** [k not in cfg or not cfg[k]] *)
Definition field_missing (cfg : json) (k : string) : result bool :=
  let? present := Py.contains cfg k in
  if negb present then Returns true
  else let? v := Py.getitem cfg k in Returns (negb (truthy v)).

Fixpoint missing_fields (cfg : json) (ks : list string) : result (list string) :=
  match ks with
  | [] => Returns []
  | k :: ks' =>
      let? b := field_missing cfg k in
      let? rest := missing_fields cfg ks' in
      Returns (if b then k :: rest else rest)
  end.

Definition load_config (path : string) : M json :=
  present <- is_file path ;;
  if negb present then raise (Exn ConfigError ("Config file not found: " ++ path))
  else
    cfg <- json_load path ;;
    missing <- lift (missing_fields cfg ["token"; "user_agent"; "user_id"]) ;;
    match missing with
    | _ :: _ =>
        raise (Exn ConfigError
                 ("config.json is missing required field(s): "
                  ++ String.concat ", " missing))
    | [] => ret cfg
    end.

Definition base_headers (cfg : json) : result (list (string * json)) :=
  let? token := Py.getitem cfg "token" in
  let? user_agent := Py.getitem cfg "user_agent" in
  Returns [("Authorization", token); ("User-Agent", user_agent);
        ("Accept", JStr "application/json");
        ("Content-Type", JStr "application/json")].

Definition load_modlist (path : string) : M (list json) :=
  present <- is_file path ;;
  if negb present then raise (Exn FileNotFoundError ("Modlist file not found: " ++ path))
  else
    data <- json_load path ;;
    match data with
    | JArr l => ret l
    | _ => raise (Exn ValueError "modlist.json must be a JSON array of objects")
    end.

(** The call of [extract_modrinth_project_id] on a value of the mod
    list: on anything but a [str], [urlparse] raises, inside the
    [try]. *)
Definition extract_from_value (url : json) : result (option string) :=
  match url with
  | JStr s => extract_modrinth_project_id s
  | _ => Returns None
  end.

(** The [while True] of [prompt_for_modrinth_url]; every turn reads a
    line, so [fuel] above the number of lines left is never used up. *)
Fixpoint prompt_loop (fuel : nat) : M (option string) :=
  match fuel with
  | O => raise (Exn EOFError "EOF when reading a line")
  | S fuel' =>
      line <- input "  [u] enter Modrinth URL  |  [s] skip this mod  |  [q] abort > " ;;
      let ans := str_lower (str_strip line) in
      if str_in ans ["q"; "quit"] then
        print "Aborting by user request.";; sys_exit 1
      else if str_in ans ["s"; "skip"] then
        print "  -> Skipping this mod.";; ret None
      else if str_in ans ["u"; "url"] then
        line <- input "  Paste Modrinth URL (https://modrinth.com/mod/...) > " ;;
        let new_url := str_strip line in
        pid <- lift (extract_modrinth_project_id new_url) ;;
        match pid with
        | Some p =>
            if negb (String.eqb p "") then
              print ("  -> Using project ID: " ++ p);; ret (Some p)
            else
              print "  That doesn't look like a valid Modrinth mod URL. Try again.";;
              prompt_loop fuel'
        | None =>
            print "  That doesn't look like a valid Modrinth mod URL. Try again.";;
            prompt_loop fuel'
        end
      else prompt_loop fuel'
  end.

Definition prompt_for_modrinth_url (entry : json) : M (option string) :=
  name <- lift (Py.get_default entry "name" (JStr "<no name>")) ;;
  old_url <- lift (Py.get entry "url") ;;
  print "";;
  print ("Entry needs attention: " ++ py_str name);;
  (if truthy old_url then print ("  Current URL: " ++ py_str old_url)
   else print "  Current URL: <missing>");;
  fun w => prompt_loop (S (length (stdin w))) w.

(** One turn of the [for] of [collect_project_ids_from_modlist] *)
Definition collect_step (acc : list string * Z) (entry : json)
  : M (list string * Z) :=
  let '(project_ids, skipped) := acc in
  url <- lift (Py.get entry "url") ;;
  pid <- (if truthy url then lift (extract_from_value url) else ret None) ;;
  pid <- (if negb (pid_truthy pid) then prompt_for_modrinth_url entry else ret pid) ;;
  match pid with
  | Some p =>
      if negb (String.eqb p "") then
        if bool_decide (p ∉ project_ids)
        then ret ((project_ids ++ [p])%list, skipped)
        else ret (project_ids, skipped)
      else ret (project_ids, skipped + 1)
  | None => ret (project_ids, skipped + 1)
  end.

Fixpoint collect_loop (modlist : list json) (acc : list string * Z)
  : M (list string * Z) :=
  match modlist with
  | [] => ret acc
  | entry :: rest => acc' <- collect_step acc entry ;; collect_loop rest acc'
  end.

(** The project id that the URL of an entry gives by itself: for such
    an entry the operator is not asked. *)
Definition direct_pid (entry : json) : option string :=
  match Py.get entry "url" with
  | Returns url =>
      if truthy url then
        match extract_from_value url with
        | Returns (Some p) => if negb (String.eqb p "") then Some p else None
        | _ => None
        end
      else None
  | Raises _ => None
  end.

Definition collect_project_ids_from_modlist (modlist : list json)
  : M (list string * Z) :=
  collect_loop modlist ([], 0).

(** [requests.get(url, headers=headers)] *)
Definition requests_get (url : string) (headers : list (string * json))
  : M (Z * string * option json) := fun w =>
  let w := emit (HttpGet url) w in
  match http_get env url headers with
  | NetworkError e => (Err e, w)
  | Response status text body => (Ok (status, text, body), w)
  end.

(** [requests.patch(url, headers=headers, data=data)] *)
Definition requests_patch (url : string) (headers : list (string * json))
    (data : string) : M (Z * string * option json) := fun w =>
  let w := emit (HttpPatch url data) w in
  match http_patch env url headers data with
  | NetworkError e => (Err e, w)
  | Response status text body => (Ok (status, text, body), w)
  end.

(** [resp.json()] *)
Definition resp_json (body : option json) : M json :=
  match body with
  | Some v => ret v
  | None => raise (Exn JSONDecodeError "response body")
  end.

Definition fetch_collections (cfg : json) : M json :=
  user_id <- lift (Py.getitem cfg "user_id") ;;
  let url := API_BASE ++ "/user/" ++ py_str user_id ++ "/collections" in
  headers <- lift (base_headers cfg) ;;
  resp <- requests_get url headers ;;
  let '(status, text, body) := resp in
  if negb (status =? 200) then
    raise (Exn RuntimeError
             ("Failed to fetch collections (status " ++ pretty status ++ "): " ++ text))
  else
    data <- resp_json body ;;
    if negb (Py.is_list data) then
      raise (Exn RuntimeError "Unexpected response format when fetching collections")
    else ret data.

Definition load_state : M json := fun w =>
  match fs w !! STATE_PATH with
  | Some (Content v) => (Ok v, w)
  | _ => (Ok (JObj []), w)
  end.

(** The state goes to the temporary file, which then replaces the
    state file; when the dump raises, the state file is as it was. *)
Definition save_state (state : json) : M unit := fun w =>
  match dump_error env state with
  | Some e =>
      (Err e, mkWorld (stdin w) (<[STATE_TMP := Unparseable]> (fs w)) (trace w))
  | None =>
      (Ok tt,
       emit (WriteState state)
         (mkWorld (stdin w)
                  (<[STATE_PATH := Content state]> (delete STATE_TMP (fs w)))
                  (trace w)))
  end.

Definition sync_collections_to_state (cfg : json) : M json :=
  collections <- fetch_collections cfg ;;
  state <- load_state ;;
  user_id <- lift (Py.getitem cfg "user_id") ;;
  state <- lift (Py.setitem state "user_id" user_id) ;;
  state <- lift (Py.setitem state "collections" collections) ;;
  state <- lift (Py.setitem state "synced_at" (JStr (now_iso env))) ;;
  save_state state ;;
  n <- lift (len collections) ;;
  user_id <- lift (Py.getitem cfg "user_id") ;;
  print ("[info] Synced " ++ pretty n ++ " collection(s) into " ++ STATE_PATH
         ++ " (user_id=" ++ py_str user_id ++ ").") ;;
  ret collections.

(** The object in the state file after the three assignments of
    [sync_collections_to_state] to the object [st] that was loaded *)
Definition synced_state (st : list (string * json)) (user_id collections : json)
  : list (string * json) :=
  Py.dict_set (Py.dict_set (Py.dict_set st "user_id" user_id)
                           "collections" collections)
              "synced_at" (JStr (now_iso env)).

(** [for col in cols: if col.get("id") == target: ...]: the first
    collection with that id *)
Fixpoint find_by_id (cols : list json) (target : string) : result (option json) :=
  match cols with
  | [] => Returns None
  | col :: cols' =>
      let? id := Py.get col "id" in
      if Py.eq_str id target then Returns (Some col) else find_by_id cols' target
  end.

(** The listing of the collections, numbered from [idx] *)
Fixpoint print_collections (idx : Z) (cols : list json) : M unit :=
  match cols with
  | [] => ret tt
  | col :: cols' =>
      cid <- lift (Py.get col "id") ;;
      name <- lift (Py.get col "name") ;;
      let name := Py.or_else name (JStr "<no name>") in
      desc <- lift (Py.get col "description") ;;
      let desc := Py.or_else desc (JStr "") in
      print ("  [" ++ pretty idx ++ "] " ++ py_str name ++ "  (id=" ++ py_str cid ++ ")") ;;
      (if truthy desc then print ("      " ++ py_str desc) else ret tt) ;;
      print_collections (idx + 1) cols'
  end.

(** The [while True] of [choose_collection]; every turn reads a line. *)
Fixpoint choose_loop (fuel : nat) (cols : list json) : M json :=
  match fuel with
  | O => raise (Exn EOFError "EOF when reading a line")
  | S fuel' =>
      line <- input "Select collection by number (or paste collection ID, or 'q' to quit) > " ;;
      let ans := str_strip line in
      if str_in (str_lower ans) ["q"; "quit"] then
        print "Aborting by user request." ;; sys_exit 1
      else
        found <- lift (find_by_id cols ans) ;;
        match found with
        | Some col =>
            name <- lift (Py.get col "name") ;;
            print ("[info] Using collection " ++ py_repr name ++ " (" ++ ans ++ ")") ;;
            ret (JStr ans)
        | None =>
            match py_int ans with
            | None =>
                print "Please enter a valid number or a collection ID." ;;
                choose_loop fuel' cols
            | Some idx =>
                if (1 <=? idx) && (idx <=? Z.of_nat (length cols)) then
                  match cols !! Z.to_nat (idx - 1) with
                  | Some col =>
                      name <- lift (Py.get col "name") ;;
                      id <- lift (Py.get col "id") ;;
                      print ("[info] Using collection " ++ py_repr name
                             ++ " (" ++ py_str id ++ ")") ;;
                      ret id
                  | None => raise (Exn TypeError "list index out of range")
                  end
                else
                  print ("Please enter a number between 1 and "
                         ++ pretty (length cols) ++ ".") ;;
                  choose_loop fuel' cols
            end
        end
  end.

Definition choose_collection (collections : json) (explicit_id : option string)
  : M json :=
  if pid_truthy explicit_id then
    let explicit_id := default "" explicit_id in
    cols <- lift (Py.iter collections) ;;
    found <- lift (find_by_id cols explicit_id) ;;
    match found with
    | Some col =>
        name <- lift (Py.get col "name") ;;
        print ("[info] Using collection " ++ py_repr name ++ " (" ++ explicit_id
               ++ ") from --collection-id") ;;
        ret (JStr explicit_id)
    | None =>
        raise (Exn RuntimeError
                 ("Collection ID " ++ explicit_id ++ " not found in your collections. "
                  ++ "Did you use the right account / user_id?"))
    end
  else if negb (truthy collections) then
    print "You don't have any collections yet." ;;
    print "Create one in the Modrinth UI, then run this script again." ;;
    sys_exit 1
  else
    print (String "010" "Your collections:") ;;
    cols <- lift (Py.iter collections) ;;
    print_collections 1 cols ;;
    fun w => choose_loop (S (length (stdin w))) cols w.

Definition fetch_collection_details (cfg : json) (collection_id : json) : M json :=
  let url := API_BASE ++ "/collection/" ++ py_str collection_id in
  headers <- lift (base_headers cfg) ;;
  resp <- requests_get url headers ;;
  let '(status, text, body) := resp in
  if negb (status =? 200) then
    raise (Exn RuntimeError
             ("Failed to fetch collection " ++ py_str collection_id
              ++ " (status " ++ pretty status ++ "): " ++ text))
  else resp_json body.

Definition patch_collection_projects (cfg : json) (collection_id : json)
    (project_ids : list string) (dry_run : bool) : M unit :=
  let payload := JObj [("new_projects", JArr (map JStr project_ids))] in
  print ("[info] PATCH payload for collection " ++ py_str collection_id ++ ": "
         ++ json_dumps payload) ;;
  if dry_run then
    print "[dry-run] Skipping PATCH request."
  else
    let url := API_BASE ++ "/collection/" ++ py_str collection_id in
    headers <- lift (base_headers cfg) ;;
    resp <- requests_patch url headers (json_dumps payload) ;;
    let '(status, text, body) := resp in
    if negb (status =? 204) then
      raise (Exn RuntimeError
               ("Collection update failed: " ++ pretty status ++ " " ++ text))
    else print "[ok] Collection updated successfully.".

(** In [main]: the projects the collection has, from its details.
    [existing_projects = coll.get("projects") or []], and the empty
    list with a warning when that is not a list. *)
Definition existing_projects_of (coll : json) : M json :=
  projects <- lift (Py.get coll "projects") ;;
  let existing_projects := Py.or_else projects (JArr []) in
  if negb (Py.is_list existing_projects) then
    print projects_warning ;;
    ret (JArr [])
  else ret existing_projects.

(** [set(str(p) for p in existing_projects)] *)
Definition existing_set_of (existing_projects : json) : gset string :=
  match existing_projects with
  | JArr l => list_to_set (map py_str l)
  | _ => ∅
  end.

(** In [main], the [except Exception] of the synchronisation: the
    collections of the local state *)
Definition collections_from_state (e : exn) : M json :=
  print ("[warn] Failed to sync collections from API: " ++ exn_msg e) ;;
  state <- load_state ;;
  c <- lift (Py.get state "collections") ;;
  let collections := Py.or_else c (JArr []) in
  if negb (truthy collections) then
    print "No collections in local state either; cannot continue." ;;
    sys_exit 1
  else
    print ("[info] Falling back to collections from " ++ STATE_PATH
           ++ " (snapshot may be outdated).") ;;
    ret collections.

(** In [main], the final confirmation: anything but [y] or [yes] ends
    the run. *)
Definition confirm_update : M unit :=
  line <- input "Proceed with updating the collection? [y/N] > " ;;
  let confirm := str_lower (str_strip line) in
  if negb (str_in confirm ["y"; "yes"]) then
    print "Aborted by user." ;; sys_exit 0
  else ret tt.

Definition is_config_error (c : exc_class) : bool :=
  match c with
  | ConfigError => true
  | _ => false
  end.

(** [main] up to the call of [patch_collection_projects]: the
    configuration, the collection chosen and the final list. *)
Definition main_prepare (args : Args) : M (json * json * list string) :=
  cfg <- try_except_class is_config_error (load_config (arg_config args))
           (fun e => print_err ("Config error: " ++ exn_msg e) ;; sys_exit 1) ;;
  collections <- try_except (sync_collections_to_state cfg) collections_from_state ;;
  collection_id <- choose_collection collections (arg_collection_id args) ;;
  modlist <- try_except (load_modlist (arg_modlist args))
               (fun e => print_err ("Failed to load modlist: " ++ exn_msg e) ;;
                         sys_exit 1) ;;
  print ("[info] Loaded " ++ pretty (length modlist) ++ " entries from "
         ++ arg_modlist args) ;;
  collected <- collect_project_ids_from_modlist modlist ;;
  let '(project_ids_from_modlist, skipped) := collected in
  print ("[info] Collected " ++ pretty (length project_ids_from_modlist)
         ++ " unique Modrinth project(s) from modlist.") ;;
  (if negb (skipped =? 0) then
     print ("[info] Skipped " ++ pretty skipped
            ++ " mod(s) (no Modrinth URL and you chose to skip).")
   else ret tt) ;;
  coll <- fetch_collection_details cfg collection_id ;;
  existing_projects <- existing_projects_of coll ;;
  let existing_set := existing_set_of existing_projects in
  let to_add_set : gset string := list_to_set project_ids_from_modlist in
  let '(final_set, added_count) := merge existing_set to_add_set in
  print "" ;;
  print ("[summary] To add: " ++ pretty added_count ++ " new project(s). Skipped: "
         ++ pretty skipped ++ ". Final collection size will be "
         ++ pretty (length final_set) ++ ".") ;;
  confirm_update ;;
  print ("[info] Patching collection " ++ py_str collection_id ++ " with "
         ++ pretty (length final_set) ++ " total project(s)...") ;;
  ret (cfg, collection_id, final_set).

Definition main (args : Args) : M unit :=
  prepared <- main_prepare args ;;
  let '(cfg, collection_id, final_set) := prepared in
  patch_collection_projects cfg collection_id final_set (arg_dry_run args).

End Script.

(** The command line with the flag [--dry-run] set or not *)
Definition with_dry_run (b : bool) (args : Args) : Args :=
  mkArgs (arg_config args) (arg_modlist args) (arg_collection_id args) b.

(** The calls of [requests.patch] among the events *)
Definition is_patch (e : event) : bool :=
  match e with
  | HttpPatch _ _ => true
  | _ => false
  end.

Definition patch_calls (w : World) : list event := List.filter is_patch (trace w).

(** ** What a call may do *)

(** The code [sys.exit] is called with goes with the line printed just
    before: 0 after [Aborted by user.], 1 after anything else. *)
Definition exit_rule (ev : event) (code : Z) : Prop :=
  (ev = Print "Aborted by user." /\ code = 0)
  \/ (ev <> Print "Aborted by user." /\ code = 1).

(** The exit of the two prompts on [q]: the line and the code 1 *)
Definition abort_rule (ev : event) (code : Z) : Prop :=
  ev = Print "Aborting by user request." /\ code = 1.

(** The exits of [choose_collection]: on [q], and when there is no
    collection to choose from *)
Definition picker_rule (ev : event) (code : Z) : Prop :=
  (ev = Print "Aborting by user request."
   \/ ev = Print "Create one in the Modrinth UI, then run this script again.")
  /\ code = 1.

(** A call is [safe] under a rule when it adds no call of
    [requests.patch] to the events and, when it ends in [sys.exit], the
    latest event and the code are as the rule says. *)
Definition post {A} (R : event -> Z -> Prop) (w : World) (r : outcome A * World)
  : Prop :=
  patch_calls r.2 = patch_calls w
  /\ forall code, r.1 = SystemExit code ->
       exists ev rest, trace r.2 = ev :: rest /\ R ev code.

Definition safe {A} (R : event -> Z -> Prop) (c : M A) : Prop :=
  forall w, post R w (c w).

(** ** What a run leaves alone *)

(** The dealings of a run with the server and the disk: a call of
    [requests.get], of [save_state], of [requests.patch] *)
Inductive effect : Type := EGet | ESave | EPatch.

Definition effect_of (e : event) : option effect :=
  match e with
  | HttpGet _ => Some EGet
  | WriteState _ => Some ESave
  | HttpPatch _ _ => Some EPatch
  | _ => None
  end.

(** Those of a list of events, the earliest first (a trace has the
    latest event first) *)
Definition effects (t : list event) : list effect := omap effect_of (rev t).

(** From [w] to [w'] lines were read from the front of standard input,
    no file but the state file and its temporary file was touched, and
    the events added have their requests and writes among [budget], in
    that order. *)
Definition run_frame (budget : list effect) (w w' : World) : Prop :=
  (exists read, stdin w = (read ++ stdin w')%list)
  /\ (forall path, path <> STATE_PATH -> path <> STATE_TMP ->
        fs w' !! path = fs w !! path)
  /\ exists new, trace w' = (new ++ trace w)%list
                 /\ effects new `sublist_of` budget.

Definition within {A} (budget : list effect) (c : M A) : Prop :=
  forall w o w', c w = (o, w') -> run_frame budget w w'.

(** ** A runtime to evaluate examples with *)

Module Sample.

(** U+2100, whose NFKC form is [a/c], is the one character this table
    normalises. *)
Fixpoint nfkc_table (s : string) : string :=
  match s with
  | String "226" (String "132" (String "128" s')) => "a/c" ++ nfkc_table s'
  | String c s' => String c (nfkc_table s')
  | EmptyString => EmptyString
  end.

Fixpoint digits (s : string) (acc : Z) : option Z :=
  match s with
  | EmptyString => Some acc
  | String c s' =>
      if Str.is_digit c
      then digits s' (10 * acc + Z.of_nat (nat_of_ascii c) - 48)
      else None
  end.

Definition int (s : string) : option Z :=
  match Str.ascii_strip s with
  | EmptyString => None
  | String "-" EmptyString | String "+" EmptyString => None
  | String "-" s' => option_map Z.opp (digits s' 0)
  | String "+" s' => digits s' 0
  | s' => digits s' 0
  end.

Definition repr (v : json) : string :=
  match v with
  | JNull => "None"
  | JBool true => "True"
  | JBool false => "False"
  | JInt n => pretty n
  | JStr s => "'" ++ s ++ "'"
  | _ => "<object>"
  end.

Definition dumps (v : json) : string :=
  match v with
  | JNull => "null"
  | JBool true => "true"
  | JBool false => "false"
  | JInt n => pretty n
  | _ => "<json>"
  end.

Definition runtime : PyRuntime := {|
  unicode_lower := Str.ascii_lower;
  unicode_strip := Str.ascii_strip;
  nfkc := nfkc_table;
  bracketed_host_ok := fun h => String.eqb h "::1";
  py_int := int;
  py_repr := repr;
  json_dumps := dumps;
  str_chars := fun s => map (fun c => String c EmptyString) (list_ascii_of_string s)
|}.

End Sample.

(** ** A small world to run the script in *)

Module Demo.

#[local] Existing Instance Sample.runtime.

Definition cfg : json :=
  JObj [("token", JStr "mrp_x"); ("user_agent", JStr "me/tool");
        ("user_id", JStr "U1")].

Definition collections : json :=
  JArr [JObj [("id", JStr "c1"); ("name", JStr "First")]].

(** The server: the collections of user [U1], the details of
    collection [c1] with the given [projects] field, and a PATCH that
    succeeds. *)
Definition env (projects : json) : Env :=
  mkEnv
    (fun url _ =>
       if String.eqb url "https://api.modrinth.com/v3/user/U1/collections"
       then Response 200 "" (Some collections)
       else if String.eqb url "https://api.modrinth.com/v3/collection/c1"
       then Response 200 "" (Some (JObj [("id", JStr "c1"); ("projects", projects)]))
       else Response 404 "not found" None)
    (fun _ _ _ => Response 204 "" None)
    "2025-11-07T15:24:09+00:00"
    (fun _ => None).

Definition world (lines : list string) (modlist : json) : World :=
  mkWorld lines
    (<["config.json" := Content cfg]> (<["modlist.json" := Content modlist]> ∅))
    [].

(** The world with a state file from before, which has a key of its own *)
Definition world_with_state : World :=
  mkWorld []
    (<[STATE_PATH :=
         Content (JObj [("note", JStr "mine"); ("user_id", JStr "old")])]>
       (<["config.json" := Content cfg]> ∅))
    [].

Definition args (dry_run : bool) : Args :=
  mkArgs "config.json" "modlist.json" None dry_run.

Definition entry (name url : string) : json :=
  JObj [("name", JStr name); ("url", JStr url)].

Definition modlist : json :=
  JArr [entry "Fabric API" "https://modrinth.com/mod/P7dR8mSH";
        entry "Sodium" "https://modrinth.com/mod/sodium/version/1.0";
        entry "Fabric again" "https://www.modrinth.com/mod/P7dR8mSH";
        entry "Elsewhere" "https://curseforge.com/mod/x"].

(** [/], a TAB, and [/modrinth.com/mod/abc?x] *)
Definition tab_url : string := String "/" (String "009" "/modrinth.com/mod/abc?x").

(** A run of [main] on the mod list, with the lines the operator types *)
Definition run_main (projects : json) (dry_run : bool) (lines : list string)
  : outcome unit * World :=
  main (env projects) (args dry_run) (world lines modlist).

(** The outcome and the events of a run, the first event first. *)
Definition run (projects : json) (dry_run : bool) (lines : list string)
  : outcome unit * list event :=
  let '(o, w) := main (env projects) (args dry_run) (world lines modlist) in
  (o, rev (trace w)).

(** The command line with [--collection-id] *)
Definition args_with_id (id : string) (dry_run : bool) : Args :=
  mkArgs "config.json" "modlist.json" (Some id) dry_run.

(** A server that cannot be reached *)
Definition offline : Env :=
  mkEnv (fun _ _ => NetworkError (Exn RequestException "connection refused"))
        (fun _ _ _ => NetworkError (Exn RequestException "connection refused"))
        "2025-11-07T15:24:09+00:00"
        (fun _ => None).

(** A mod list in which the URL of every entry gives an id *)
Definition direct_modlist : list json :=
  [entry "Fabric API" "https://modrinth.com/mod/P7dR8mSH";
   entry "Sodium" "https://modrinth.com/mod/sodium/version/1.0"].

(** A world with a state file from an earlier run *)
Definition world_with_snapshot (state : json) : World :=
  mkWorld ["1"; "s"; "n"]
    (<[STATE_PATH := Content state]>
       (<["config.json" := Content cfg]>
          (<["modlist.json" := Content modlist]> ∅)))
    [].

End Demo.

(** * Properties *)

(** ** The normaliser *)

Section ExtractFacts.
Context {RT : PyRuntime}.

Lemma extract_unfold url p :
  Url.urlparse url = Returns p ->
  extract_modrinth_project_id url =
    if negb (String.eqb (str_lower (Url.netloc p)) "modrinth.com"
             || String.eqb (str_lower (Url.netloc p)) "www.modrinth.com")
    then Returns None
    else match path_parts (Url.path p) with
         | p0 :: p1 :: _ =>
             if String.eqb (str_lower p0) "mod" then Returns (Some p1)
             else Returns None
         | _ => Returns None
         end.
Proof. intros Hp. unfold extract_modrinth_project_id. now rewrite Hp. Qed.

Lemma netloc_matches_test p :
  netloc_matches p <->
  (String.eqb (str_lower (Url.netloc p)) "modrinth.com"
   || String.eqb (str_lower (Url.netloc p)) "www.modrinth.com") = true.
Proof.
  unfold netloc_matches.
  rewrite orb_true_iff, !String.eqb_eq. tauto.
Qed.

(** What the function returns on a string that [urlparse] parses, by
    the network location and the segments of the path *)
Lemma extract_of_parse (url : string) (p : Url.ParseResult) :
  Url.urlparse url = Returns p ->
  (netloc_matches p ->
   forall a b rest, path_parts (Url.path p) = a :: b :: rest ->
     str_lower a = "mod" ->
     extract_modrinth_project_id url = Returns (Some b))
  /\ (~ netloc_matches p -> extract_modrinth_project_id url = Returns None)
  /\ ((forall a rest, path_parts (Url.path p) = a :: rest -> str_lower a <> "mod") ->
      extract_modrinth_project_id url = Returns None).
Proof.
  intros Hp. rewrite (extract_unfold _ _ Hp).
  split; [|split].
  - intros Hn a b rest Hparts Ha.
    apply netloc_matches_test in Hn. rewrite Hn, Hparts. cbn.
    apply String.eqb_eq in Ha. now rewrite Ha.
  - intros Hn. rewrite netloc_matches_test in Hn.
    apply not_true_is_false in Hn. now rewrite Hn.
  - intros Hfirst. destruct (negb _); [reflexivity|].
    destruct (path_parts (Url.path p)) as [|a [|b rest]] eqn:Hparts; try reflexivity.
    specialize (Hfirst a (b :: rest) eq_refl).
    apply String.eqb_neq in Hfirst. now rewrite Hfirst.
Qed.

(** C4.  On every string the function returns, a project id or
    [None]; when [urlparse] raises, what it returns is [None]. *)
Theorem extract_never_raises (url : string) :
  (exists r, extract_modrinth_project_id url = Returns r)
  /\ (forall e, Url.urlparse url = Raises e ->
        extract_modrinth_project_id url = Returns None).
Proof.
  split.
  - unfold extract_modrinth_project_id.
    destruct (Url.urlparse url) as [p|e]; [|eauto].
    destruct (negb _); [eauto|].
    destruct (path_parts _) as [|p0 [|p1 ?]]; eauto.
    destruct (String.eqb _ _); eauto.
  - intros e He. unfold extract_modrinth_project_id. now rewrite He.
Qed.

End ExtractFacts.

Lemma extract_never_raises_witness :
  extract_modrinth_project_id (RT := Sample.runtime) "http://[::1" = Returns None.
Proof.
  apply (proj2 (extract_never_raises (RT := Sample.runtime) "http://[::1")
               Url.invalid_ipv6 eq_refl).
Defined.

(** The empty string, a string that is no URL, and a URL whose host has
    a character that [urlparse] refuses *)
Example extract_empty :
  extract_modrinth_project_id (RT := Sample.runtime) "" = Returns None.
Proof. reflexivity. Qed.

Example extract_garbage :
  extract_modrinth_project_id (RT := Sample.runtime) "]]:: not a url [[" = Returns None.
Proof. reflexivity. Qed.

Example extract_unicode_host :
  Url.urlparse (RT := Sample.runtime) "https://modrinth.com℀/mod/abc"
  = Raises (Exn ValueError
      "netloc 'modrinth.com℀' contains invalid characters under NFKC normalization")
  /\ extract_modrinth_project_id (RT := Sample.runtime)
       "https://modrinth.com℀/mod/abc" = Returns None.
Proof. split; reflexivity. Qed.

#[local] Arguments Url.sanitize : simpl never.

Section SchemelessFacts.
Context {RT : PyRuntime}.

(** What [urlsplit] does when it has found neither a scheme nor the
    [//] of a network location. *)
Lemma urlsplit_no_netloc url :
  Url.split_scheme (Url.sanitize url) = None ->
  Str.startswith "//" (Url.sanitize url) = false ->
  exists u q f,
    Url.urlsplit url = Returns (Url.mkSplit "" "" u q f)
    /\ (Str.contains "#" (Url.sanitize url) = false ->
        Str.contains "?" (Url.sanitize url) = false -> u = Url.sanitize url).
Proof.
  intros Hs Hn. unfold Url.urlsplit. rewrite Hs, Hn.
  destruct (Str.contains "#" (Url.sanitize url)) eqn:Hh.
  - destruct (Str.split_once "#" (Url.sanitize url)) as [u f].
    destruct (Str.contains "?" u).
    + destruct (Str.split_once "?" u) as [u' q]. cbn. eauto 6 with congruence.
    + cbn. eauto 6 with congruence.
  - destruct (Str.contains "?" (Url.sanitize url)) eqn:Hq.
    + destruct (Str.split_once "?" (Url.sanitize url)) as [u' q]. cbn.
      eauto 6 with congruence.
    + cbn. eauto 6.
Qed.

Lemma urlparse_no_netloc url :
  Url.split_scheme (Url.sanitize url) = None ->
  Str.startswith "//" (Url.sanitize url) = false ->
  exists p,
    Url.urlparse url = Returns p /\ Url.scheme p = "" /\ Url.netloc p = ""
    /\ (Str.contains "#" (Url.sanitize url) = false ->
        Str.contains "?" (Url.sanitize url) = false ->
        Str.contains ";" (Url.sanitize url) = false ->
        Url.path p = Url.sanitize url).
Proof.
  intros Hs Hn.
  destruct (urlsplit_no_netloc url Hs Hn) as (u & q & f & Hsplit & Hu).
  unfold Url.urlparse. rewrite Hsplit. cbn.
  destruct (Str.contains ";" u) eqn:Hsemi.
  - destruct (Url.splitparams u) as [u' prm]. eexists. repeat split.
    intros H1 H2 H3. rewrite (Hu H1 H2) in Hsemi. congruence.
  - eexists. repeat split. cbn. auto.
Qed.

End SchemelessFacts.

Section StrFacts.

Lemma remove_absent c s : Str.contains c s = false -> Str.remove c s = s.
Proof.
  induction s as [|d s IH]; cbn; [reflexivity|].
  intros H. apply orb_false_iff in H as [Hd Hs].
  rewrite Hd. now rewrite IH.
Qed.

Lemma prefix_substring p s : Str.startswith p s = true -> Str.substring_of p s = true.
Proof. intros H. destruct s; cbn [Str.substring_of]; now rewrite H. Qed.

Lemma substring_of_tail p c s :
  Str.substring_of p s = true -> Str.substring_of p (String c s) = true.
Proof. intros H. cbn [Str.substring_of]. rewrite H. apply orb_true_r. Qed.

Lemma substring_of_lstrip P p s :
  Str.substring_of p (Str.lstrip P s) = true -> Str.substring_of p s = true.
Proof.
  induction s as [|c s IH]; [trivial|].
  cbn [Str.lstrip]. destruct (P c); [|trivial].
  intros H. apply substring_of_tail. auto.
Qed.

Lemma contains_lstrip P c s :
  Str.contains c s = false -> Str.contains c (Str.lstrip P s) = false.
Proof.
  induction s as [|d s IH]; [trivial|].
  cbn [Str.lstrip]. destruct (P d); [|trivial].
  cbn. intros H. apply orb_false_iff in H as [_ H]. auto.
Qed.

Lemma sanitize_no_unsafe url :
  Url.no_unsafe_bytes url = true ->
  Url.sanitize url = Str.lstrip Url.c0_control_or_space url.
Proof.
  unfold Url.no_unsafe_bytes. rewrite !andb_true_iff, !negb_true_iff.
  intros [[Ht Hr] Hn]. unfold Url.sanitize. cbn [fold_left].
  rewrite (remove_absent "009") by now apply contains_lstrip.
  rewrite (remove_absent "013") by now apply contains_lstrip.
  now rewrite (remove_absent "010") by now apply contains_lstrip.
Qed.

End StrFacts.

Section SchemelessClaim.
Context {RT : PyRuntime}.

(** C9, as the code has it.  A string in which [urlparse] finds no
    scheme, which has no [//] and no TAB, CR or LF, parses with an
    empty scheme and an empty network location, and the normaliser
    returns [None]; the path is the whole string when the string does
    not begin with a control character or a space and has none of
    [#], [?] and [;]. *)
Theorem schemeless_url_no_match (url : string) :
  Url.split_scheme (Url.sanitize url) = None ->
  Str.substring_of "//" url = false ->
  Url.no_unsafe_bytes url = true ->
  exists p,
    Url.urlparse url = Returns p /\ Url.scheme p = "" /\ Url.netloc p = ""
    /\ extract_modrinth_project_id url = Returns None
    /\ (Str.lstrip Url.c0_control_or_space url = url ->
        Str.contains "#" url = false -> Str.contains "?" url = false ->
        Str.contains ";" url = false -> Url.path p = url).
Proof.
  intros Hs Hsub Hclean.
  pose proof (sanitize_no_unsafe url Hclean) as Hsan.
  assert (Hn : Str.startswith "//" (Url.sanitize url) = false).
  { apply not_true_is_false. intros Hp. rewrite Hsan in Hp.
    apply prefix_substring, substring_of_lstrip in Hp. congruence. }
  destruct (urlparse_no_netloc url Hs Hn) as (p & Hp & Hsch & Hnet & Hpath).
  exists p. repeat split; trivial.
  - rewrite (extract_unfold _ _ Hp), Hnet. reflexivity.
  - intros Hstrip H1 H2 H3. rewrite Hsan, Hstrip in Hpath. auto.
Qed.

End SchemelessClaim.

(** The claim C9 as it is worded fails on a string with a TAB and a
    query: it has no scheme and no [//], yet its network location is the
    domain, its path is not the whole string, and the normaliser returns
    a project id. *)
Lemma schemeless_counterexample :
  Url.split_scheme (Url.sanitize Demo.tab_url) = None
  /\ Str.substring_of "//" Demo.tab_url = false
  /\ Url.urlparse (RT := Sample.runtime) Demo.tab_url
     = Returns (Url.mkParse "" "modrinth.com" "/mod/abc" "" "x" "")
  /\ extract_modrinth_project_id (RT := Sample.runtime) Demo.tab_url
     = Returns (Some "abc").
Proof. repeat split; reflexivity. Qed.

(** Without the TAB the host is empty, and the query is still not part
    of the path. *)
Example schemeless_query_example :
  Url.urlparse (RT := Sample.runtime) "modrinth.com/mod/abc?x"
  = Returns (Url.mkParse "" "" "modrinth.com/mod/abc" "" "x" "").
Proof. reflexivity. Qed.

Lemma schemeless_url_no_match_witness :
  exists p,
    Url.urlparse (RT := Sample.runtime) "modrinth.com/mod/abc" = Returns p
    /\ Url.scheme p = "" /\ Url.netloc p = ""
    /\ extract_modrinth_project_id (RT := Sample.runtime) "modrinth.com/mod/abc"
       = Returns None
    /\ (Str.lstrip Url.c0_control_or_space "modrinth.com/mod/abc" = "modrinth.com/mod/abc" ->
        Str.contains "#" "modrinth.com/mod/abc" = false ->
        Str.contains "?" "modrinth.com/mod/abc" = false ->
        Str.contains ";" "modrinth.com/mod/abc" = false ->
        Url.path p = "modrinth.com/mod/abc").
Proof.
  apply (schemeless_url_no_match (RT := Sample.runtime) "modrinth.com/mod/abc");
    reflexivity.
Defined.

(** ** URLs of mods *)

#[local] Arguments String.append : simpl nomatch.

Section StrAppFacts.

Lemma str_app_nil_r (s : string) : s ++ "" = s.
Proof. induction s as [|c s IH]; simpl; [reflexivity|now rewrite IH]. Qed.

Lemma str_app_assoc (a b c : string) : (a ++ b) ++ c = a ++ (b ++ c).
Proof. induction a as [|d a IH]; simpl; [reflexivity|now rewrite IH]. Qed.

Lemma remove_app c a b : Str.remove c (a ++ b) = Str.remove c a ++ Str.remove c b.
Proof.
  induction a as [|d a IH]; simpl; [reflexivity|].
  destruct (Ascii.eqb d c); simpl; now rewrite IH.
Qed.

Lemma contains_app c a b :
  Str.contains c (a ++ b) = Str.contains c a || Str.contains c b.
Proof.
  induction a as [|d a IH]; simpl; [reflexivity|].
  now rewrite IH, orb_assoc.
Qed.

Lemma find_app_absent c a b :
  Str.contains c a = false ->
  Str.find c (a ++ b)
  = match Str.find c b with
    | Some i => Some (String.length a + i)%nat
    | None => None
    end.
Proof.
  induction a as [|d a IH]; simpl.
  - intros _. now destruct (Str.find c b).
  - intros H. apply orb_false_iff in H as [Hd Ha]. rewrite Hd, (IH Ha).
    now destruct (Str.find c b).
Qed.

Lemma find_contains c s : Str.contains c s = false <-> Str.find c s = None.
Proof.
  induction s as [|d s IH]; simpl; [tauto|].
  destruct (Ascii.eqb d c); simpl; [split; discriminate|].
  rewrite IH. destruct (Str.find c s); split; congruence.
Qed.

Lemma take_app_ge a b k :
  Str.take (String.length a + k) (a ++ b) = a ++ Str.take k b.
Proof. induction a as [|d a IH]; simpl; [reflexivity|now rewrite IH]. Qed.

Lemma take_app_exact a b : Str.take (String.length a) (a ++ b) = a.
Proof.
  rewrite <- (Nat.add_0_r (String.length a)), take_app_ge.
  destruct b; simpl; apply str_app_nil_r.
Qed.

Lemma take_length s : Str.take (String.length s) s = s.
Proof. induction s as [|c s IH]; simpl; [reflexivity|now rewrite IH]. Qed.

Lemma drop_app_exact a b : Str.drop (String.length a) (a ++ b) = b.
Proof. induction a as [|d a IH]; simpl; [now destruct b|exact IH]. Qed.

Lemma str_length_app a b :
  String.length (a ++ b) = (String.length a + String.length b)%nat.
Proof. induction a as [|d a IH]; simpl; [reflexivity|now rewrite IH]. Qed.

Lemma forallb_absent P c s :
  Str.forallb P s = true -> P c = false -> Str.contains c s = false.
Proof.
  intros Hs Hc. induction s as [|d s IH]; simpl in *; [reflexivity|].
  apply andb_true_iff in Hs as [Hd Hs]. rewrite (IH Hs), orb_false_r.
  destruct (Ascii.eqb_spec d c); [congruence|reflexivity].
Qed.

(** A character that is no letter is in the lower-case form of a
    string when it is in the string. *)
Lemma lower_char_other c d :
  Str.is_alpha c = false -> Ascii.eqb (Str.lower_char d) c = Ascii.eqb d c.
Proof.
  intros Hc. unfold Str.lower_char.
  destruct (Str.is_upper d) eqn:Hd; [|reflexivity].
  destruct (Ascii.eqb_spec d c) as [->|Hne].
  - unfold Str.is_alpha in Hc. rewrite Hd in Hc. discriminate.
  - apply Ascii.eqb_neq. intros <-.
    unfold Str.is_alpha, Str.is_upper in *.
    rewrite nat_ascii_embedding in Hc by
      (apply andb_true_iff in Hd as [_ Hd]; apply Nat.leb_le in Hd; lia).
    apply andb_true_iff in Hd as [H1 H2].
    apply Nat.leb_le in H1, H2.
    apply orb_false_iff in Hc as [_ Hc].
    apply andb_false_iff in Hc as [Hc|Hc]; apply Nat.leb_gt in Hc; lia.
Qed.

Lemma contains_lower c s :
  Str.is_alpha c = false -> Str.contains c (Str.ascii_lower s) = Str.contains c s.
Proof.
  intros Hc. induction s as [|d s IH]; simpl; [reflexivity|].
  now rewrite IH, lower_char_other.
Qed.

Lemma split_absent sep a : Str.contains sep a = false -> Str.split sep a = [a].
Proof.
  induction a as [|d a IH]; simpl; [reflexivity|].
  intros H. apply orb_false_iff in H as [Hd Ha]. now rewrite Hd, (IH Ha).
Qed.

Lemma split_app_absent sep a b :
  Str.contains sep a = false ->
  Str.split sep (a ++ String sep b) = a :: Str.split sep b.
Proof.
  induction a as [|d a IH]; simpl.
  - intros _. now rewrite Ascii.eqb_refl.
  - intros H. apply orb_false_iff in H as [Hd Ha]. now rewrite Hd, (IH Ha).
Qed.

Lemma find_get c s i : Str.find c s = Some i -> String.get i s = Some c.
Proof.
  revert i. induction s as [|d s IH]; simpl; [discriminate|].
  intros i. destruct (Ascii.eqb_spec d c) as [->|Hne].
  - now intros [= <-].
  - destruct (Str.find c s) as [j|]; [|discriminate].
    intros [= <-]. simpl. now apply IH.
Qed.

Lemma get_drop k : forall s j, String.get j (Str.drop k s) = String.get (k + j) s.
Proof.
  induction k as [|k IH]; intros s j; simpl; [reflexivity|].
  destruct s as [|d s]; simpl; [now destruct j|apply IH].
Qed.

Lemma get_app_absent c a b i :
  Str.contains c a = false -> String.get i (a ++ b) = Some c ->
  (String.length a <= i)%nat.
Proof.
  revert i. induction a as [|d a IH]; simpl; intros i Ha Hg; [lia|].
  apply orb_false_iff in Ha as [Hd Ha].
  destruct i as [|i].
  - injection Hg as ->. rewrite Ascii.eqb_refl in Hd. discriminate.
  - apply (IH i Ha) in Hg. lia.
Qed.

End StrAppFacts.

Section UrlFacts.
Context {RT : PyRuntime}.

Lemma split_scheme_unfold url c0 s i :
  url = String c0 s -> Str.find ":" url = Some (S i) ->
  Url.split_scheme url
  = if Str.is_alpha c0 && Str.forallb Url.scheme_char (Str.take (S i) url)
    then Some (Str.ascii_lower (Str.take (S i) url), Str.drop (S (S i)) url)
    else None.
Proof. intros -> H. unfold Url.split_scheme. now rewrite H. Qed.

Lemma split_scheme_app sch W :
  Url.valid_scheme sch = true ->
  Url.split_scheme (sch ++ String ":" W) = Some (Str.ascii_lower sch, W).
Proof.
  unfold Url.valid_scheme. destruct sch as [|c0 s'] eqn:Hsch; [discriminate|].
  rewrite <- Hsch. intros H. apply andb_true_iff in H as [Hc Hall].
  assert (Hno : Str.contains ":" sch = false)
    by (apply (forallb_absent _ _ _ Hall); reflexivity).
  assert (Hfind : Str.find ":" (sch ++ String ":" W) = Some (S (String.length s'))).
  { rewrite (find_app_absent _ _ _ Hno). cbn [Str.find]. rewrite Ascii.eqb_refl.
    rewrite Nat.add_0_r, Hsch. reflexivity. }
  rewrite (split_scheme_unfold (sch ++ String ":" W) c0 (s' ++ String ":" W)
             (String.length s')); [|now rewrite Hsch|exact Hfind].
  replace (S (String.length s')) with (String.length sch) by now rewrite Hsch.
  rewrite take_app_exact, Hc, Hall. cbn [andb]. f_equal. f_equal.
  change (S (String.length sch)) with (1 + String.length sch)%nat.
  rewrite Nat.add_comm.
  replace (Str.drop (String.length sch + 1) (sch ++ String ":" W))
    with (Str.drop 1 (Str.drop (String.length sch) (sch ++ String ":" W))).
  - now rewrite drop_app_exact.
  - clear. generalize (sch ++ String ":" W). generalize (String.length sch).
    intros n. induction n as [|n IH]; intros s; simpl; [reflexivity|].
    destruct s; [reflexivity|apply IH].
Qed.

Lemma strip_unsafe_app a b :
  Url.no_unsafe_bytes a = true -> Url.strip_unsafe (a ++ b) = a ++ Url.strip_unsafe b.
Proof.
  unfold Url.no_unsafe_bytes. rewrite !andb_true_iff, !negb_true_iff.
  intros [[Ht Hr] Hn]. unfold Url.strip_unsafe. rewrite !remove_app.
  now rewrite (remove_absent "009" a Ht), (remove_absent "013" a Hr),
    (remove_absent "010" a Hn).
Qed.

Lemma sanitize_strip url :
  Url.sanitize url = Url.strip_unsafe (Str.lstrip Url.c0_control_or_space url).
Proof. reflexivity. Qed.

Lemma splitnetloc_host host T :
  Str.contains "/" host = false -> Str.contains "?" host = false ->
  Str.contains "#" host = false ->
  Url.splitnetloc (String "/" (String "/" (host ++ String "/" T))) 2
  = (host, String "/" T).
Proof.
  intros Hs Hq Hh. unfold Url.splitnetloc, Str.find_from.
  cbn [fold_left Str.drop].
  rewrite !find_app_absent by assumption.
  cbn [Str.find String.length]. rewrite str_length_app. cbn [String.length].
  simpl (Ascii.eqb _ _).
  destruct (Str.find "#" T) as [i|]; destruct (Str.find "?" T) as [j|];
    match goal with
    | |- (Str.slice 2 ?d _, Str.drop ?d _) = _ =>
        replace d with (2 + String.length host)%nat by lia
    end;
    unfold Str.slice;
    replace (2 + String.length host - 2)%nat with (String.length host) by lia;
    change (2 + String.length host)%nat with (S (S (String.length host)));
    cbn [Str.drop];
    now rewrite take_app_exact, drop_app_exact.
Qed.

Lemma urlsplit_netloc url sch U netloc rest :
  Url.split_scheme (Url.sanitize url) = Some (sch, U) ->
  Str.startswith "//" U = true ->
  Url.splitnetloc U 2 = (netloc, rest) ->
  Str.contains "[" netloc = false -> Str.contains "]" netloc = false ->
  Str.is_ascii netloc = true ->
  Url.urlsplit url
  = Returns (Url.mkSplit sch netloc (Url.split_rest rest).1.1 (Url.split_rest rest).1.2
                         (Url.split_rest rest).2).
Proof.
  intros Hs Hp Hn Hl Hr Ha. unfold Url.urlsplit, Url.split_rest.
  rewrite Hs, Hp, Hn, Hl, Hr. cbn [andb orb negb].
  unfold Url.checknetloc. rewrite Ha, orb_true_r.
  destruct (Str.contains "#" rest).
  - destruct (Str.split_once "#" rest) as [u f].
    destruct (Str.contains "?" u); [destruct (Str.split_once "?" u)|]; reflexivity.
  - destruct (Str.contains "?" rest); [destruct (Str.split_once "?" rest)|]; reflexivity.
Qed.

(** Cutting a string at the first [c], when there is one *)
Lemma cut_app c A r :
  Str.contains c A = false ->
  exists j,
    (if Str.contains c (A ++ r) then Str.split_once c (A ++ r) else (A ++ r, "")).1
    = A ++ Str.take j r
    /\ (forall d r', r = String d r' -> d = c -> j = 0%nat).
Proof.
  intros HA. rewrite contains_app, HA. cbn [orb].
  destruct (Str.contains c r) eqn:Hr.
  - unfold Str.split_once. rewrite (find_app_absent _ _ _ HA).
    destruct (Str.find c r) as [j|] eqn:Hf.
    + exists j. cbn [fst]. split; [apply take_app_ge|].
      intros d r' -> ->. cbn in Hf. rewrite Ascii.eqb_refl in Hf. congruence.
    + apply find_contains in Hf. congruence.
  - exists (String.length r). cbn [fst]. split.
    + f_equal. symmetry. apply take_length.
    + intros d r' -> ->. cbn in Hr. rewrite Ascii.eqb_refl in Hr. discriminate.
Qed.

Lemma head_in_take cs c j r :
  Str.head_in (c :: cs) r = true ->
  (forall d r', r = String d r' -> d = c -> j = 0%nat) ->
  Str.head_in cs (Str.take j r) = true.
Proof.
  intros Hh Hj. destruct r as [|d r']; [now destruct j|].
  destruct j as [|j]; [reflexivity|].
  cbn in *. destruct (Ascii.eqb_spec d c) as [->|Hne].
  - now specialize (Hj c r' eq_refl eq_refl).
  - exact Hh.
Qed.

Lemma head_in_take_same cs j r :
  Str.head_in cs r = true -> Str.head_in cs (Str.take j r) = true.
Proof. destruct r as [|d r']; destruct j; auto. Qed.

(** The path that [urlsplit] leaves of [A ++ r] when [A] has neither
    [#] nor [?] and [r] begins with a delimiter *)
Lemma split_rest_app A r :
  Str.contains "#" A = false -> Str.contains "?" A = false ->
  Str.head_in ["#"; "?"; "/"]%char r = true ->
  exists r', (Url.split_rest (A ++ r)).1.1 = A ++ r' /\ Str.head_in ["/"]%char r' = true.
Proof.
  intros Hh Hq Hr. unfold Url.split_rest.
  destruct (cut_app "#" A r Hh) as (j & Hcut & Hj).
  destruct (if Str.contains "#" (A ++ r) then _ else _) as [u f].
  cbn [fst] in Hcut. subst u.
  destruct (cut_app "?" A (Str.take j r) Hq) as (k & Hcut & Hk).
  destruct (if Str.contains "?" (A ++ Str.take j r) then _ else _) as [u q].
  cbn [fst] in *. subst u. eexists. split; [reflexivity|].
  eapply head_in_take; [|exact Hk].
  eapply head_in_take; [exact Hr|exact Hj].
Qed.

Lemma params_app (b : bool) A r :
  Str.contains ";" A = false -> Str.head_in ["/"]%char r = true ->
  exists r',
    (if b && Str.contains ";" (A ++ r) then Url.splitparams (A ++ r)
     else (A ++ r, "")).1 = A ++ r'
    /\ Str.head_in ["/"]%char r' = true.
Proof.
  intros HA Hr.
  assert (Hsame : exists r', A ++ r = A ++ r' /\ Str.head_in ["/"]%char r' = true)
    by eauto.
  destruct (b && Str.contains ";" (A ++ r)); [|exact Hsame].
  unfold Url.splitparams.
  destruct (Str.contains "/" (A ++ r)).
  - destruct (Str.rfind "/" (A ++ r)) as [rr|]; [|exact Hsame].
    unfold Str.find_from.
    destruct (Str.find ";" (Str.drop rr (A ++ r))) as [j|] eqn:Hf; [|exact Hsame].
    apply find_get in Hf. rewrite get_drop in Hf.
    apply (get_app_absent _ _ _ _ HA) in Hf.
    replace (rr + j)%nat with (String.length A + (rr + j - String.length A))%nat by lia.
    rewrite take_app_ge. eexists. split; [reflexivity|].
    now apply head_in_take_same.
  - rewrite (find_app_absent _ _ _ HA).
    destruct (Str.find ";" r) as [j|]; [|exact Hsame].
    rewrite take_app_ge. eexists. split; [reflexivity|].
    now apply head_in_take_same.
Qed.

Lemma alpha_not_c0 c : Str.is_alpha c = true -> Url.c0_control_or_space c = false.
Proof.
  unfold Str.is_alpha, Str.is_upper, Url.c0_control_or_space.
  rewrite orb_true_iff, !andb_true_iff, !Nat.leb_le, Nat.leb_gt. lia.
Qed.

Lemma path_parts_mod tag id r :
  tag <> "" -> id <> "" ->
  Str.contains "/" tag = false -> Str.contains "/" id = false ->
  Str.head_in ["/"]%char r = true ->
  exists more, path_parts (String "/" (tag ++ String "/" (id ++ r))) = tag :: id :: more.
Proof.
  intros Ht Hi Hst Hsi Hr. unfold path_parts.
  cbn [Str.split]. rewrite Ascii.eqb_refl.
  rewrite (split_app_absent _ _ _ Hst).
  assert (Hne : forall s, s <> "" -> negb (String.eqb s "") = true)
    by (intros s Hs; now apply negb_true_iff, String.eqb_neq).
  destruct r as [|c r].
  - rewrite str_app_nil_r, (split_absent _ _ Hsi). cbn [List.filter].
    rewrite String.eqb_refl, (Hne _ Ht), (Hne _ Hi). cbn [negb]. eauto.
  - cbn in Hr. rewrite orb_false_r in Hr. apply Ascii.eqb_eq in Hr. subst c.
    rewrite (split_app_absent _ _ _ Hsi). cbn [List.filter].
    rewrite String.eqb_refl, (Hne _ Ht), (Hne _ Hi). cbn [negb]. eauto.
Qed.

(** The characters of a string that are no letters are those of its
    lower-case form. *)
Lemma lower_absent s l c :
  Str.ascii_lower s = l -> Str.is_alpha c = false -> Str.contains c l = false ->
  Str.contains c s = false.
Proof. intros <- Hc. now rewrite contains_lower. Qed.

Lemma no_unsafe_lower s l :
  Str.ascii_lower s = l -> Url.no_unsafe_bytes l = true -> Url.no_unsafe_bytes s = true.
Proof.
  intros <-. unfold Url.no_unsafe_bytes. now rewrite !contains_lower.
Qed.

Lemma valid_scheme_no_unsafe sch :
  Url.valid_scheme sch = true -> Url.no_unsafe_bytes sch = true.
Proof.
  unfold Url.valid_scheme. destruct sch as [|c s]; [discriminate|].
  intros H. apply andb_true_iff in H as [_ H]. unfold Url.no_unsafe_bytes.
  now rewrite !(forallb_absent _ _ _ H).
Qed.

Lemma sanitize_mod_url sch host tag id rest :
  Url.valid_scheme sch = true ->
  Url.no_unsafe_bytes host = true -> Url.no_unsafe_bytes tag = true ->
  Url.no_unsafe_bytes id = true ->
  Url.sanitize (mod_url sch host tag id rest)
  = mod_url sch host tag id (Url.strip_unsafe rest).
Proof.
  intros Hsch Hh Ht Hi. rewrite sanitize_strip.
  assert (Hl : Str.lstrip Url.c0_control_or_space (mod_url sch host tag id rest)
               = mod_url sch host tag id rest).
  { unfold mod_url, Url.valid_scheme in *. destruct sch as [|c s]; [discriminate|].
    apply andb_true_iff in Hsch as [Hc _]. simpl.
    now rewrite (alpha_not_c0 _ Hc). }
  rewrite Hl. unfold mod_url.
  rewrite (strip_unsafe_app sch) by now apply valid_scheme_no_unsafe.
  rewrite (strip_unsafe_app "://") by reflexivity.
  rewrite (strip_unsafe_app host) by assumption.
  rewrite (strip_unsafe_app "/") by reflexivity.
  rewrite (strip_unsafe_app tag) by assumption.
  rewrite (strip_unsafe_app "/") by reflexivity.
  now rewrite (strip_unsafe_app id) by assumption.
Qed.

(** A URL made of a scheme, the domain in any case with or without
    [www.], the tag [mod] in any case, a plain id and a rest that is
    empty or begins with [/], [?] or [#]: the id is returned. *)
Lemma extract_mod_url sch host tag id rest :
  Url.valid_scheme sch = true ->
  Str.is_ascii host = true ->
  Str.ascii_lower host = "modrinth.com" \/ Str.ascii_lower host = "www.modrinth.com" ->
  Str.is_ascii tag = true -> Str.ascii_lower tag = "mod" ->
  plain_id id = true ->
  Str.head_in ["#"; "?"; "/"]%char rest = true ->
  extract_modrinth_project_id (mod_url sch host tag id rest) = Returns (Some id).
Proof.
  intros Hsch Hha Hhost Hta Htag Hid Hrest.
  unfold plain_id in Hid. cbn [existsb] in Hid.
  rewrite !andb_true_iff, !negb_true_iff, !orb_false_iff in Hid.
  destruct Hid as [[Hne (Hi1 & Hi2 & Hi3 & Hi4 & _)] Hiu].
  apply String.eqb_neq in Hne.
  assert (Hhc : forall c, Str.is_alpha c = false ->
                  Str.contains c "modrinth.com" = false ->
                  Str.contains c "www.modrinth.com" = false ->
                  Str.contains c host = false).
  { intros c Hc H1 H2. destruct Hhost as [H|H]; eapply lower_absent; eauto. }
  assert (Htc : forall c, Str.is_alpha c = false -> Str.contains c "mod" = false ->
                  Str.contains c tag = false)
    by (intros c Hc H1; eapply lower_absent; eauto).
  assert (Hhu : Url.no_unsafe_bytes host = true)
    by (destruct Hhost as [H|H]; eapply no_unsafe_lower; eauto).
  assert (Htu : Url.no_unsafe_bytes tag = true)
    by (eapply no_unsafe_lower; eauto).
  set (rest' := Url.strip_unsafe rest).
  assert (Hrest' : Str.head_in ["#"; "?"; "/"]%char rest' = true).
  { subst rest'. destruct rest as [|c r]; [reflexivity|].
    cbn in Hrest. rewrite orb_false_r in Hrest.
    destruct (Ascii.eqb_spec c "#") as [->|?]; [reflexivity|].
    destruct (Ascii.eqb_spec c "?") as [->|?]; [reflexivity|].
    destruct (Ascii.eqb_spec c "/") as [->|?]; [reflexivity|discriminate]. }
  set (A := String "/" (tag ++ String "/" id)).
  assert (HA : String "/" (tag ++ "/" ++ id ++ rest') = A ++ rest').
  { subst A. simpl. now rewrite !str_app_assoc. }
  assert (Hsplit : Url.urlsplit (mod_url sch host tag id rest)
                   = Returns (Url.mkSplit (Str.ascii_lower sch) host
                                (Url.split_rest (A ++ rest')).1.1
                                (Url.split_rest (A ++ rest')).1.2
                                (Url.split_rest (A ++ rest')).2)).
  { rewrite <- HA.
    apply (urlsplit_netloc _ _ (String "/" (String "/" (host ++ String "/"
                                   (tag ++ "/" ++ id ++ rest'))))).
    - rewrite sanitize_mod_url by assumption.
      apply (split_scheme_app sch _ Hsch).
    - reflexivity.
    - apply splitnetloc_host; apply Hhc; reflexivity.
    - apply Hhc; reflexivity.
    - apply Hhc; reflexivity.
    - exact Hha. }
  assert (HAh : Str.contains "#" A = false).
  { subst A. simpl. rewrite contains_app. simpl.
    now rewrite (Htc "#"%char eq_refl eq_refl), Hi3. }
  assert (HAq : Str.contains "?" A = false).
  { subst A. simpl. rewrite contains_app. simpl.
    now rewrite (Htc "?"%char eq_refl eq_refl), Hi2. }
  assert (HAs : Str.contains ";" A = false).
  { subst A. simpl. rewrite contains_app. simpl.
    now rewrite (Htc ";"%char eq_refl eq_refl), Hi4. }
  destruct (split_rest_app A rest' HAh HAq Hrest') as (r1 & Hu & Hr1).
  destruct (params_app (existsb (String.eqb (Str.ascii_lower sch)) Url.uses_params)
              A r1 HAs Hr1) as (r2 & Hpath & Hr2).
  assert (Hparse : exists p, Url.urlparse (mod_url sch host tag id rest) = Returns p
                             /\ Url.netloc p = host /\ Url.path p = A ++ r2).
  { unfold Url.urlparse. rewrite Hsplit.
    cbn [Url.s_scheme Url.s_url Url.s_netloc Url.s_query Url.s_fragment].
    rewrite Hu.
    destruct (if _ && _ then _ else _) as [u prm]. cbn [fst] in Hpath. subst u.
    eexists. split; [reflexivity|]. split; reflexivity. }
  destruct Hparse as (p & Hp & Hnet & Hpp).
  rewrite (extract_unfold _ _ Hp), Hnet, Hpp.
  unfold str_lower. rewrite Hha.
  assert (Hm : (String.eqb (Str.ascii_lower host) "modrinth.com"
                || String.eqb (Str.ascii_lower host) "www.modrinth.com") = true).
  { destruct Hhost as [-> | ->]; reflexivity. }
  rewrite Hm. cbn [negb].
  assert (Htne : tag <> "") by (intros ->; discriminate).
  destruct (path_parts_mod tag id r2 Htne Hne (Htc "/"%char eq_refl eq_refl) Hi1 Hr2)
    as (more & Hparts).
  subst A. simpl. simpl in Hparts.
  rewrite str_app_assoc. simpl. rewrite Hparts, Hta, Htag. reflexivity.
Qed.

End UrlFacts.

#[local] Arguments String.append : simpl never.

Section ExtractClaim.
Context {RT : PyRuntime}.

(** C1, as the code has it.  For a string that [urlparse] parses: when
    the network location is the domain (in any case, with or without
    [www.]) and the non-empty segments of the path begin with [mod] (in
    any case) and a second segment, that segment is returned as it is;
    for any other network location the result is [None]; and so it is
    when the first segment is not [mod].  And the URLs made of a scheme,
    such a network location, such a tag and a plain id, with or without
    something after the id, are strings of the first kind: the id is
    returned. *)
Theorem extract_by_netloc :
  (forall (url : string) (p : Url.ParseResult),
      Url.urlparse url = Returns p ->
      (netloc_matches p ->
       forall a b rest, path_parts (Url.path p) = a :: b :: rest ->
         str_lower a = "mod" ->
         extract_modrinth_project_id url = Returns (Some b))
      /\ (~ netloc_matches p -> extract_modrinth_project_id url = Returns None)
      /\ ((forall a rest, path_parts (Url.path p) = a :: rest -> str_lower a <> "mod") ->
          extract_modrinth_project_id url = Returns None))
  /\ (forall sch host tag id rest,
        Url.valid_scheme sch = true ->
        Str.is_ascii host = true ->
        Str.ascii_lower host = "modrinth.com"
        \/ Str.ascii_lower host = "www.modrinth.com" ->
        Str.is_ascii tag = true -> Str.ascii_lower tag = "mod" ->
        plain_id id = true ->
        Str.head_in ["#"; "?"; "/"]%char rest = true ->
        extract_modrinth_project_id (mod_url sch host tag id rest)
        = Returns (Some id)).
Proof.
  split.
  - intros url p. apply extract_of_parse.
  - intros sch host tag id rest. apply extract_mod_url.
Qed.

End ExtractClaim.

(** A URL with a port is on the host [modrinth.com] and has the path
    [/mod/abc], and is not accepted: the claim C1 as it is worded, with
    the host of the URL, fails there. *)
Lemma extract_port_counterexample :
  exists p,
    Url.urlparse (RT := Sample.runtime) "https://modrinth.com:443/mod/abc" = Returns p
    /\ host_is_canonical (RT := Sample.runtime) p
    /\ path_parts (Url.path p) = ["mod"; "abc"]
    /\ extract_modrinth_project_id (RT := Sample.runtime)
         "https://modrinth.com:443/mod/abc" = Returns None
    /\ extract_modrinth_project_id (RT := Sample.runtime)
         "https://modrinth.com:443/mod/abc" <> Returns (Some "abc").
Proof.
  eexists. split; [reflexivity|].
  split; [left; reflexivity|].
  split; [reflexivity|].
  split; [reflexivity|discriminate].
Qed.

Lemma extract_by_netloc_witness :
  extract_modrinth_project_id (RT := Sample.runtime)
    "https://WWW.modrinth.com/Mod/zV5r3pPn/version/1.0.0" = Returns (Some "zV5r3pPn").
Proof.
  pose proof (proj1 (extract_by_netloc (RT := Sample.runtime))
                "https://WWW.modrinth.com/Mod/zV5r3pPn/version/1.0.0"
                (Url.mkParse "https" "WWW.modrinth.com" "/Mod/zV5r3pPn/version/1.0.0"
                             "" "" "")
                eq_refl) as [H _].
  apply (H (or_intror eq_refl) "Mod" "zV5r3pPn" ["version"; "1.0.0"] eq_refl eq_refl).
Defined.

(** A URL without a scheme is accepted when it begins with [//]. *)
Example extract_scheme_relative :
  extract_modrinth_project_id (RT := Sample.runtime) "//modrinth.com/mod/abc"
  = Returns (Some "abc").
Proof. reflexivity. Qed.

(** ** The merge *)

Section MergeFacts.

Lemma sorted_Permutation (s : gset string) : sorted s ≡ₚ elements s.
Proof. apply merge_sort_Permutation. Qed.

Lemma sorted_elem_of (s : gset string) x : x ∈ sorted s <-> x ∈ s.
Proof. now rewrite sorted_Permutation, elem_of_elements. Qed.

Lemma sorted_NoDup (s : gset string) : NoDup (sorted s).
Proof. rewrite sorted_Permutation. apply NoDup_elements. Qed.

Lemma sorted_length (s : gset string) : length (sorted s) = size s.
Proof. now rewrite sorted_Permutation. Qed.

Lemma string_le_cons a s b t :
  String.le (String a s) (String b t)
  <-> (N_of_ascii a < N_of_ascii b)%N \/ (a = b /\ String.le s t).
Proof.
  unfold String.le, String.leb. cbn [String.compare].
  unfold Ascii.compare.
  destruct (N.compare_spec (N_of_ascii a) (N_of_ascii b)) as [Heq|Hlt|Hgt].
  - assert (a = b) as ->.
    { rewrite <- (ascii_N_embedding a), <- (ascii_N_embedding b). now rewrite Heq. }
    split; [auto|]. intros [H|[_ H]]; [lia|exact H].
  - cbn. split; [auto|trivial].
  - cbn. split; [tauto|]. intros [H|[-> _]]; lia.
Qed.

(** The order the sort uses is the lexicographic one. *)
Lemma string_le_lex s : forall t, String.le s t <-> lex_le s t.
Proof.
  induction s as [|a s IH]; intros t.
  - split; [reflexivity|]. intros _. unfold String.le, String.leb. now destruct t.
  - destruct t as [|b t]; cbn [lex_le].
    + unfold String.le, String.leb. cbn. tauto.
    + rewrite string_le_cons, IH. tauto.
Qed.

Lemma sorted_StronglySorted (s : gset string) : StronglySorted lex_le (sorted s).
Proof.
  assert (H : StronglySorted String.le (sorted s))
    by (apply StronglySorted_merge_sort; apply _).
  induction H as [|x l _ IH Hx]; constructor; [exact IH|].
  eapply Forall_impl; [exact Hx|]. intros y. apply string_le_lex.
Qed.

Lemma list_to_set_sorted (s : gset string) : list_to_set (sorted s) = s.
Proof.
  apply set_eq. intros x. now rewrite elem_of_list_to_set, sorted_elem_of.
Qed.

(** C2.  The final list of the merge is sorted in the lexicographic
    order, has no element twice and has the elements of the union;
    the count is its length less the size of the existing set, which
    is the number of incoming ids that are new; every existing id is in
    the final list; and the merge of [{a, c}] with [{b, a}] is
    [[a; b; c]] with a count of 1. *)
Theorem merge_spec :
  (forall existing incoming : gset string,
      StronglySorted lex_le (merge existing incoming).1
      /\ NoDup (merge existing incoming).1
      /\ (forall x, x ∈ (merge existing incoming).1 <-> x ∈ existing ∪ incoming)
      /\ (merge existing incoming).2
         = Z.of_nat (length (merge existing incoming).1) - Z.of_nat (size existing)
      /\ (merge existing incoming).2 = Z.of_nat (size (incoming ∖ existing))
      /\ (forall x, x ∈ existing -> x ∈ (merge existing incoming).1))
  /\ merge {["a"; "c"]} {["b"; "a"]} = (["a"; "b"; "c"], 1).
Proof.
  split; [|vm_compute; reflexivity].
  intros existing incoming. unfold merge. cbn [fst snd].
  split; [apply sorted_StronglySorted|].
  split; [apply sorted_NoDup|].
  split; [intros x; apply sorted_elem_of|].
  split; [reflexivity|].
  split.
  - rewrite sorted_length.
    assert (existing ∪ incoming = existing ∪ incoming ∖ existing) as ->.
    { apply set_eq. intros x. rewrite !elem_of_union, elem_of_difference.
      destruct (decide (x ∈ existing)); tauto. }
    rewrite size_union; [lia|].
    apply elem_of_disjoint. intros x Hx Hd.
    apply elem_of_difference in Hd. tauto.
  - intros x Hx. apply sorted_elem_of, elem_of_union. now left.
Qed.

(** C5.  Merging the incoming set into the result of a merge gives
    that result again, and a count of 0. *)
Theorem merge_idempotent (existing incoming : gset string)
    (final : list string) (n : Z) :
  merge existing incoming = (final, n) ->
  merge (list_to_set final) incoming = (final, 0).
Proof.
  unfold merge. intros [= <- _].
  rewrite list_to_set_sorted.
  assert (existing ∪ incoming ∪ incoming = existing ∪ incoming) as ->.
  { apply set_eq. intros x. rewrite !elem_of_union. tauto. }
  f_equal. rewrite sorted_length. lia.
Qed.

End MergeFacts.

Lemma merge_idempotent_witness :
  merge (list_to_set ["a"; "b"; "c"]) {["b"; "a"]} = (["a"; "b"; "c"], 0).
Proof.
  apply (merge_idempotent {["a"; "c"]} {["b"; "a"]} ["a"; "b"; "c"] 1).
  vm_compute. reflexivity.
Defined.

Example merge_empty : merge ∅ ∅ = ([], 0).
Proof. vm_compute. reflexivity. Qed.

(** ** What a run may do: no update call, and the exit codes *)

Section SafeCalls.
Context {RT : PyRuntime} (env : Env) (R : event -> Z -> Prop).

Lemma safe_weaken {A} (R' : event -> Z -> Prop) (c : M A) :
  (forall ev code, R' ev code -> R ev code) -> safe R' c -> safe R c.
Proof.
  intros HR Hc w. destruct (Hc w) as [Hp Hx]. split; [exact Hp|].
  intros code Hcode. destruct (Hx code Hcode) as (ev & rest & Ht & Hr). eauto.
Qed.

Lemma safe_ret {A} (a : A) : safe R (ret a).
Proof. intros w. split; [reflexivity|]. intros code [=]. Qed.

Lemma safe_raise {A} (e : exn) : safe R (raise (A := A) e).
Proof. intros w. split; [reflexivity|]. intros code [=]. Qed.

Lemma safe_lift {A} (r : result A) : safe R (lift r).
Proof. destruct r; [apply safe_ret|apply safe_raise]. Qed.

Lemma safe_print line : safe R (print line).
Proof. intros w. split; [reflexivity|]. intros code [=]. Qed.

Lemma safe_print_err line : safe R (print_err line).
Proof. intros w. split; [reflexivity|]. intros code [=]. Qed.

Lemma safe_input prompt : safe R (input prompt).
Proof.
  intros w. unfold input. cbn.
  destruct (stdin w); (split; [reflexivity|]; intros code [=]).
Qed.

Lemma safe_bind {A B} (m : M A) (f : A -> M B) :
  safe R m -> (forall a, safe R (f a)) -> safe R (bind m f).
Proof.
  intros Hm Hf w. unfold bind. specialize (Hm w).
  destruct (m w) as [[a|c|e] w1]; unfold post in *; cbn [fst snd] in *.
  - destruct Hm as [Hp _]. destruct (Hf a w1) as [Hp' Hx].
    split; [congruence|exact Hx].
  - destruct Hm as [Hp Hx]. split; [exact Hp|].
    intros code [= <-]. apply Hx. reflexivity.
  - destruct Hm as [Hp _]. split; [exact Hp|]. intros code [=].
Qed.

Lemma safe_try_except {A} (body : M A) (handler : exn -> M A) :
  safe R body -> (forall e, safe R (handler e)) -> safe R (try_except body handler).
Proof.
  intros Hb Hh w. unfold try_except. specialize (Hb w).
  destruct (body w) as [[a|c|e] w1]; unfold post in *; cbn [fst snd] in *; trivial.
  destruct Hb as [Hp _]. destruct (Hh e w1) as [Hp' Hx].
  split; [congruence|exact Hx].
Qed.

Lemma safe_try_except_class {A} cls (body : M A) (handler : exn -> M A) :
  safe R body -> (forall e, safe R (handler e)) ->
  safe R (try_except_class cls body handler).
Proof.
  intros Hb Hh. apply safe_try_except; [exact Hb|].
  intros e. destruct (cls _); [apply Hh|apply safe_raise].
Qed.

(** [print(line); sys.exit(code)] *)
Lemma safe_print_exit {A} line code :
  R (Print line) code -> safe R (print line ;; sys_exit (A := A) code).
Proof.
  intros Hr w. split; [reflexivity|].
  intros c [= <-]. cbn. eauto.
Qed.

Lemma safe_print_err_exit {A} line code :
  R (PrintErr line) code -> safe R (print_err line ;; sys_exit (A := A) code).
Proof.
  intros Hr w. split; [reflexivity|].
  intros c [= <-]. cbn. eauto.
Qed.

(** A loop started with the fuel the world gives *)
Lemma safe_with_fuel {A} (loop : nat -> M A) (fuel : World -> nat) :
  (forall n, safe R (loop n)) -> safe R (fun w => loop (fuel w) w).
Proof. intros H w. apply H. Qed.

Lemma safe_is_file path : safe R (is_file path).
Proof. intros w. split; [reflexivity|]. intros code [=]. Qed.

Lemma safe_json_load path : safe R (json_load path).
Proof.
  intros w. unfold json_load.
  destruct (fs w !! path) as [[|v]|]; (split; [reflexivity|]; intros code [=]).
Qed.

Lemma safe_load_state : safe R load_state.
Proof.
  intros w. unfold load_state.
  destruct (fs w !! STATE_PATH) as [[|v]|]; (split; [reflexivity|]; intros code [=]).
Qed.

Lemma safe_save_state state : safe R (save_state env state).
Proof.
  intros w. unfold save_state.
  destruct (dump_error env state); (split; [reflexivity|]; intros code [=]).
Qed.

Lemma safe_requests_get url headers : safe R (requests_get env url headers).
Proof.
  intros w. unfold requests_get.
  destruct (http_get env url headers); (split; [reflexivity|]; intros code [=]).
Qed.

Lemma safe_resp_json body : safe R (resp_json body).
Proof. destruct body; [apply safe_ret|apply safe_raise]. Qed.

End SafeCalls.

Create HintDb safe.

#[local] Hint Resolve safe_ret safe_raise safe_lift safe_print safe_print_err
  safe_input safe_is_file safe_json_load safe_load_state safe_save_state
  safe_requests_get safe_resp_json : safe.

(** The rule holds at an exit of the script. *)
Ltac exit_rule_tac :=
  solve [ split; reflexivity
        | left; split; reflexivity
        | right; split; [discriminate|reflexivity]
        | split; [left; reflexivity|reflexivity]
        | split; [right; reflexivity|reflexivity] ].

(** One step through a call: a sequence, a branch, a pair taken apart. *)
Ltac safe_step :=
  lazymatch goal with
  | |- safe _ (bind _ _) => apply safe_bind; [|intros ?]
  | |- safe _ (try_except _ _) => apply safe_try_except; [|intros ?]
  | |- safe _ (try_except_class _ _ _) => apply safe_try_except_class; [|intros ?]
  | |- safe _ (if ?b then _ else _) => destruct b
  | |- safe _ (let '(_, _) := ?p in _) => destruct p
  | |- safe _ (match ?x with _ => _ end) => destruct x
  | |- _ => fail
  end.

Ltac safe_auto :=
  repeat first
    [ solve [eauto with safe]
    | apply safe_print_exit; exit_rule_tac
    | apply safe_print_err_exit; exit_rule_tac
    | safe_step ].

Section SafeScript.
Context {RT : PyRuntime} (env : Env).

Lemma abort_rule_exit ev code : abort_rule ev code -> exit_rule ev code.
Proof. intros [-> ->]. right. split; [discriminate|reflexivity]. Qed.

Lemma abort_rule_picker ev code : abort_rule ev code -> picker_rule ev code.
Proof. intros [-> ->]. split; [left|]; reflexivity. Qed.

Lemma picker_rule_exit ev code : picker_rule ev code -> exit_rule ev code.
Proof. intros [[-> | ->] ->]; right; (split; [discriminate|reflexivity]). Qed.

Lemma safe_load_config R path : safe R (load_config path).
Proof. unfold load_config. safe_auto. Qed.

Lemma safe_load_modlist R path : safe R (load_modlist path).
Proof. unfold load_modlist. safe_auto. Qed.

Lemma safe_fetch_collections R cfg : safe R (fetch_collections env cfg).
Proof. unfold fetch_collections. safe_auto. Qed.

Lemma safe_sync_collections_to_state R cfg :
  safe R (sync_collections_to_state env cfg).
Proof.
  unfold sync_collections_to_state.
  apply safe_bind; [apply safe_fetch_collections|intros ?]. safe_auto.
Qed.

Lemma safe_print_collections R cols : forall idx, safe R (print_collections idx cols).
Proof.
  induction cols as [|col cols IH]; intros idx; cbn [print_collections];
    [apply safe_ret|].
  repeat (apply safe_bind; [safe_auto|intros ?]). apply IH.
Qed.

Lemma safe_choose_loop cols : forall fuel, safe abort_rule (choose_loop fuel cols).
Proof.
  induction fuel as [|fuel IH]; cbn [choose_loop]; [apply safe_raise|].
  apply safe_bind; [safe_auto|intros line].
  destruct (str_in _ _); [safe_auto|].
  apply safe_bind; [safe_auto|intros found].
  destruct found as [col|]; [safe_auto|].
  destruct (py_int _) as [idx|].
  - destruct (_ && _).
    + destruct (cols !! _); safe_auto.
    + apply safe_bind; [safe_auto|intros _; apply IH].
  - apply safe_bind; [safe_auto|intros _; apply IH].
Qed.

Lemma safe_choose_collection collections explicit_id :
  safe picker_rule (choose_collection collections explicit_id).
Proof.
  unfold choose_collection.
  destruct (pid_truthy explicit_id); [safe_auto|].
  destruct (negb (truthy collections)).
  - apply safe_bind; [safe_auto|intros _]. safe_auto.
  - repeat (apply safe_bind; [safe_auto|intros ?]).
    + apply safe_print_collections.
    + apply (safe_with_fuel _ (fun n => choose_loop n _)).
      intros n. eapply safe_weaken; [apply abort_rule_picker|].
      apply safe_choose_loop.
Qed.

Lemma safe_prompt_loop : forall fuel, safe abort_rule (prompt_loop fuel).
Proof.
  induction fuel as [|fuel IH]; cbn [prompt_loop]; [apply safe_raise|].
  apply safe_bind; [safe_auto|intros line].
  destruct (str_in _ _); [safe_auto|].
  destruct (str_in _ _); [safe_auto|].
  destruct (str_in _ _); [|apply IH].
  apply safe_bind; [safe_auto|intros line2].
  apply safe_bind; [safe_auto|intros [p|]].
  - destruct (negb _); [safe_auto|].
    apply safe_bind; [safe_auto|intros _; apply IH].
  - apply safe_bind; [safe_auto|intros _; apply IH].
Qed.

Lemma safe_prompt_for_modrinth_url entry :
  safe abort_rule (prompt_for_modrinth_url entry).
Proof.
  unfold prompt_for_modrinth_url.
  repeat (apply safe_bind; [safe_auto|intros ?]).
  apply (safe_with_fuel _ prompt_loop), safe_prompt_loop.
Qed.

Lemma safe_collect_step acc entry : safe abort_rule (collect_step acc entry).
Proof.
  unfold collect_step. destruct acc as [project_ids skipped].
  apply safe_bind; [safe_auto|intros url].
  apply safe_bind; [safe_auto|intros pid].
  apply safe_bind.
  - destruct (negb _); [apply safe_prompt_for_modrinth_url|safe_auto].
  - intros pid'. safe_auto.
Qed.

Lemma safe_collect_loop modlist :
  forall acc, safe abort_rule (collect_loop modlist acc).
Proof.
  induction modlist as [|entry rest IH]; intros acc; cbn [collect_loop];
    [apply safe_ret|].
  apply safe_bind; [apply safe_collect_step|intros acc'; apply IH].
Qed.

Lemma safe_fetch_collection_details R cfg cid :
  safe R (fetch_collection_details env cfg cid).
Proof. unfold fetch_collection_details. safe_auto. Qed.

Lemma safe_existing_projects_of R coll : safe R (existing_projects_of coll).
Proof. unfold existing_projects_of. safe_auto. Qed.

Lemma safe_collections_from_state e : safe exit_rule (collections_from_state e).
Proof. unfold collections_from_state. safe_auto. Qed.

Lemma safe_confirm_update :
  safe (fun ev code => ev = Print "Aborted by user." /\ code = 0) confirm_update.
Proof. unfold confirm_update. safe_auto. Qed.

Lemma safe_main_prepare args : safe exit_rule (main_prepare env args).
Proof.
  unfold main_prepare.
  apply safe_bind; [|intros cfg].
  { apply safe_try_except_class; [apply safe_load_config|intros e; safe_auto]. }
  apply safe_bind; [|intros collections].
  { apply safe_try_except;
      [apply safe_sync_collections_to_state|apply safe_collections_from_state]. }
  apply safe_bind; [|intros cid].
  { eapply safe_weaken; [apply picker_rule_exit|apply safe_choose_collection]. }
  apply safe_bind; [|intros modlist].
  { apply safe_try_except; [apply safe_load_modlist|intros e; safe_auto]. }
  apply safe_bind; [safe_auto|intros _].
  apply safe_bind; [|intros [ids skipped]].
  { eapply safe_weaken; [apply abort_rule_exit|apply safe_collect_loop]. }
  apply safe_bind; [safe_auto|intros _].
  apply safe_bind; [safe_auto|intros _].
  apply safe_bind; [apply safe_fetch_collection_details|intros coll].
  apply safe_bind; [apply safe_existing_projects_of|intros existing].
  destruct (merge _ _) as [final added].
  apply safe_bind; [safe_auto|intros _].
  apply safe_bind; [safe_auto|intros _].
  apply safe_bind; [|intros _; safe_auto].
  eapply safe_weaken; [|apply safe_confirm_update].
  intros ev code [-> ->]. left. split; reflexivity.
Qed.

Lemma safe_patch_dry_run R cfg cid ids :
  safe R (patch_collection_projects env cfg cid ids true).
Proof. unfold patch_collection_projects. safe_auto. Qed.

(** [patch_collection_projects] does not call [sys.exit]. *)
Lemma patch_no_exit cfg cid ids dry_run w code w' :
  patch_collection_projects env cfg cid ids dry_run w <> (SystemExit code, w').
Proof.
  unfold patch_collection_projects, bind, print, lift, requests_patch, raise, ret.
  destruct dry_run; [discriminate|].
  destruct (base_headers cfg); [|discriminate].
  destruct (http_patch _ _ _ _) as [e|status text body]; [discriminate|].
  destruct (negb _); discriminate.
Qed.

End SafeScript.

Section RunFacts.
Context {RT : PyRuntime} (env : Env).

Lemma safe_main_dry_run args :
  safe exit_rule (main env (with_dry_run true args)).
Proof.
  unfold main. apply safe_bind; [apply safe_main_prepare|].
  intros [[cfg cid] final]. apply safe_patch_dry_run.
Qed.

(** An exit of [main] is an exit of [main_prepare]. *)
Lemma main_exit_in_prepare args w code w' :
  main env args w = (SystemExit code, w') ->
  main_prepare env args w = (SystemExit code, w').
Proof.
  unfold main, bind.
  destruct (main_prepare env args w) as [[[[cfg cid] final]|c|e] w1];
    [|intros [= -> ->]; reflexivity|discriminate].
  intros H. now apply patch_no_exit in H.
Qed.

(** C3, as the code has it.  A run that ends in [sys.exit] has made no
    call of [requests.patch]; its status is 0 when its last line is
    the one of the final confirmation, [Aborted by user.], and 1 when
    it is the one of the two prompts, [Aborting by user request.].
    The resolver exits only on [q], with code 1; the collection picker
    exits only with code 1; the confirmation exits only with code 0. *)
Theorem abort_spec :
  (forall args w code w',
      main env args w = (SystemExit code, w') ->
      patch_calls w' = patch_calls w
      /\ (forall rest, trace w' = Print "Aborted by user." :: rest ->
            exit_status (SystemExit (A := unit) code) = 0)
      /\ (forall rest, trace w' = Print "Aborting by user request." :: rest ->
            exit_status (SystemExit (A := unit) code) = 1))
  /\ (forall entry w code w',
        prompt_for_modrinth_url entry w = (SystemExit code, w') ->
        code = 1 /\ patch_calls w' = patch_calls w
        /\ exists rest, trace w' = Print "Aborting by user request." :: rest)
  /\ (forall collections explicit_id w code w',
        choose_collection collections explicit_id w = (SystemExit code, w') ->
        code = 1 /\ patch_calls w' = patch_calls w)
  /\ (forall w code w',
        confirm_update w = (SystemExit code, w') ->
        code = 0 /\ patch_calls w' = patch_calls w
        /\ exists rest, trace w' = Print "Aborted by user." :: rest).
Proof.
  split; [|split; [|split]].
  - intros args w code w' Hmain. apply main_exit_in_prepare in Hmain.
    pose proof (safe_main_prepare env args w) as [Hp Hx].
    rewrite Hmain in Hp, Hx. cbn [fst snd] in *.
    destruct (Hx code eq_refl) as (ev & rest & Ht & Hr).
    split; [exact Hp|]. cbn [exit_status].
    split; intros rest' Ht'; rewrite Ht' in Ht; injection Ht as <- _.
    + destruct Hr as [[_ ->]|[Hne _]]; [reflexivity|congruence].
    + destruct Hr as [[Heq _]|[_ ->]]; [discriminate|reflexivity].
  - intros entry w code w' H.
    pose proof (safe_prompt_for_modrinth_url entry w) as [Hp Hx].
    rewrite H in Hp, Hx. cbn [fst snd] in *.
    destruct (Hx code eq_refl) as (ev & rest & Ht & -> & ->). eauto.
  - intros collections explicit_id w code w' H.
    pose proof (safe_choose_collection collections explicit_id w) as [Hp Hx].
    rewrite H in Hp, Hx. cbn [fst snd] in *.
    destruct (Hx code eq_refl) as (ev & rest & Ht & _ & ->). eauto.
  - intros w code w' H.
    pose proof (safe_confirm_update w) as [Hp Hx].
    rewrite H in Hp, Hx. cbn [fst snd] in *.
    destruct (Hx code eq_refl) as (ev & rest & Ht & -> & ->). eauto.
Qed.

(** C7.  With [--dry-run] the run is the same up to the update: what
    [main] does before [patch_collection_projects] does not depend on
    the flag.  No call of [requests.patch] is made, however the run
    ends; and when the update is reached, the payload is printed, the
    request is skipped, and the run ends with status 0. *)
Theorem dry_run_spec (args : Args) (w : World) :
  main_prepare env (with_dry_run true args) w
  = main_prepare env (with_dry_run false args) w
  /\ (forall o w', main env (with_dry_run true args) w = (o, w') ->
        patch_calls w' = patch_calls w)
  /\ (forall cfg cid final w1,
        main_prepare env (with_dry_run false args) w = (Ok (cfg, cid, final), w1) ->
        exists line,
          main env (with_dry_run true args) w
          = (Ok tt, emit (Print "[dry-run] Skipping PATCH request.")
                      (emit (Print line) w1))
          /\ exit_status (main env (with_dry_run true args) w).1 = 0).
Proof.
  split; [reflexivity|]. split.
  - intros o w' H. pose proof (safe_main_dry_run args w) as [Hp _].
    now rewrite H in Hp.
  - intros cfg cid final w1 H.
    change (main_prepare env (with_dry_run false args) w)
      with (main_prepare env (with_dry_run true args) w) in H.
    assert (Hmain : exists line,
               main env (with_dry_run true args) w
               = (Ok tt, emit (Print "[dry-run] Skipping PATCH request.")
                           (emit (Print line) w1))).
    { unfold main, bind at 1. rewrite H. cbn. eexists. reflexivity. }
    destruct Hmain as [line Hmain]. exists line.
    rewrite Hmain. split; reflexivity.
Qed.

(** Without the flag, the update, once reached with headers to send,
    is one call of [requests.patch]. *)
Lemma normal_run_patches args w cfg cid final w1 headers :
  main_prepare env (with_dry_run false args) w = (Ok (cfg, cid, final), w1) ->
  base_headers cfg = Returns headers ->
  exists url data,
    patch_calls (main env (with_dry_run false args) w).2
    = HttpPatch url data :: patch_calls w1.
Proof.
  intros H Hh. unfold main, bind at 1. rewrite H. cbn.
  unfold patch_collection_projects, bind, print, lift, requests_patch.
  rewrite Hh. cbn.
  destruct (http_patch _ _ _ _) as [e|status text body]; cbn; [eauto|].
  destruct (negb _); cbn; eauto.
Qed.

End RunFacts.

(** The claim C3 as it is worded fails when the operator quits at the
    collection picker: no update call is made, and the status is 1. *)
Lemma picker_abort_counterexample :
  (Demo.run_main (JArr []) false ["q"]).1 = SystemExit 1
  /\ hd_error (trace (Demo.run_main (JArr []) false ["q"]).2)
     = Some (Print "Aborting by user request.")
  /\ patch_calls (Demo.run_main (JArr []) false ["q"]).2 = []
  /\ exit_status (Demo.run_main (JArr []) false ["q"]).1 <> 0.
Proof. vm_compute. repeat split; discriminate. Qed.

(** The same at the resolver *)
Example resolver_abort_example :
  (Demo.run_main (JArr []) false ["1"; "quit"]).1 = SystemExit 1.
Proof. vm_compute. reflexivity. Qed.

Lemma abort_spec_witness :
  patch_calls (Demo.run_main (JArr []) false ["1"; "s"; "n"]).2 = []
  /\ exit_status (Demo.run_main (JArr []) false ["1"; "s"; "n"]).1 = 0.
Proof.
  destruct (Demo.run_main (JArr []) false ["1"; "s"; "n"]) as [o w'] eqn:Hrun.
  assert (Ho : o = SystemExit 0).
  { apply (f_equal fst) in Hrun. vm_compute in Hrun. congruence. }
  subst o.
  destruct (proj1 (abort_spec (RT := Sample.runtime) (Demo.env (JArr [])))
              _ _ _ _ Hrun) as (Hp & H0 & _).
  split; [exact Hp|reflexivity].
Defined.

Lemma dry_run_spec_witness :
  exists line,
    (Demo.run_main (JArr []) true ["1"; "s"; "y"]).1 = Ok tt
    /\ hd_error (trace (Demo.run_main (JArr []) true ["1"; "s"; "y"]).2)
       = Some (Print line).
Proof.
  destruct (main_prepare (RT := Sample.runtime) (Demo.env (JArr [])) (Demo.args false)
              (Demo.world ["1"; "s"; "y"] Demo.modlist)) as [o w1] eqn:Hprep.
  assert (Ho : exists r, o = Ok r).
  { apply (f_equal fst) in Hprep. vm_compute in Hprep. subst o. eauto. }
  destruct Ho as [[[cfg cid] final] ->].
  destruct (proj2 (proj2 (dry_run_spec (RT := Sample.runtime) (Demo.env (JArr []))
                            (Demo.args false)
                            (Demo.world ["1"; "s"; "y"] Demo.modlist)))
              cfg cid final w1 Hprep) as (line & Hmain & _).
  unfold Demo.run_main.
  change (with_dry_run true (Demo.args false)) with (Demo.args true) in Hmain.
  rewrite Hmain. eexists. split; reflexivity.
Defined.

(** ** Taking a sequence of calls apart *)

Lemma bind_Ok_inv {A B} (m : M A) (f : A -> M B) w b w' :
  bind m f w = (Ok b, w') ->
  exists a w1, m w = (Ok a, w1) /\ f a w1 = (Ok b, w').
Proof.
  unfold bind. destruct (m w) as [[a|c|e] w1]; [eauto|discriminate|discriminate].
Qed.

Lemma bind_Ok {A B} (m : M A) (f : A -> M B) w a w1 :
  m w = (Ok a, w1) -> bind m f w = f a w1.
Proof. intros H. unfold bind. now rewrite H. Qed.

Lemma bind_lift_Returns {A B} (a : A) (f : A -> M B) w :
  bind (lift (Returns a)) f w = f a w.
Proof. reflexivity. Qed.

Lemma bind_print {B} line (f : unit -> M B) w :
  bind (print line) f w = f tt (emit (Print line) w).
Proof. reflexivity. Qed.

Lemma lift_Ok_inv {A} (r : result A) w a w' :
  lift r w = (Ok a, w') -> r = Returns a /\ w' = w.
Proof. destruct r; cbn; intros [=]; subst; auto. Qed.

(** ** The details of the collection *)

Section ExistingProjects.
Context {RT : PyRuntime}.

(** C8, as the code has it.  When the [projects] field of the details
    is not a list (or is not there), the existing projects are the
    empty list, the call returns, and the set merged into is empty;
    the warning is printed when the value is true in Python's sense,
    and nothing is printed when it is not ([None], [False], [0], the
    empty string, the empty object). *)
Theorem malformed_projects_spec (fields : list (string * json)) (w : World) :
  Py.is_list (default JNull (Py.dict_get fields "projects")) = false ->
  existing_projects_of (JObj fields) w
  = (Ok (JArr []),
     if truthy (default JNull (Py.dict_get fields "projects"))
     then emit (Print projects_warning) w else w)
  /\ existing_set_of (JArr []) = ∅
  /\ forall incoming : gset string,
       merge (existing_set_of (JArr [])) incoming
       = (sorted incoming, Z.of_nat (size incoming)).
Proof.
  intros Hv. split; [|split].
  - unfold existing_projects_of, Py.get, Py.get_default, Py.or_else.
    cbn [lift]. unfold bind, ret at 1.
    destruct (Py.dict_get fields "projects") as [v|]; cbn in *.
    + destruct (truthy v); [|reflexivity].
      rewrite Hv. reflexivity.
    + reflexivity.
  - reflexivity.
  - intros incoming. unfold merge. cbn [existing_set_of map list_to_set].
    rewrite (left_id_L ∅ (∪)), size_empty, sorted_length. f_equal. lia.
Qed.

End ExistingProjects.

(** The claim C8 as it is worded fails on details whose [projects] is
    the empty object: it is not a list, the set is taken as empty, and
    no warning is printed. *)
Lemma silent_malformed_counterexample :
  Py.is_list (JObj []) = false
  /\ existing_projects_of (JObj [("id", JStr "c1"); ("projects", JObj [])])
       (mkWorld [] ∅ [])
     = (Ok (JArr []), mkWorld [] ∅ []).
Proof. split; reflexivity. Qed.

(** In a whole run: the details carry [0] for the projects; the run goes
    on to the update and prints no warning. *)
Example silent_malformed_run :
  (Demo.run_main (JInt 0) true ["1"; "s"; "y"]).1 = Ok tt
  /\ ~ In (Print projects_warning)
         (trace (Demo.run_main (JInt 0) true ["1"; "s"; "y"]).2).
Proof. vm_compute. intuition discriminate. Qed.

Lemma malformed_projects_spec_witness :
  existing_projects_of (JObj [("projects", JStr "abc")]) (mkWorld [] ∅ [])
  = (Ok (JArr []), mkWorld [] ∅ [Print projects_warning]).
Proof.
  apply (proj1 (malformed_projects_spec (RT := Sample.runtime)
                  [("projects", JStr "abc")] (mkWorld [] ∅ []) eq_refl)).
Defined.

(** ** The local state *)

Section StateFacts.
Context {RT : PyRuntime} (env : Env).

Lemma dict_get_set_eq d k v : Py.dict_get (Py.dict_set d k v) k = Some v.
Proof.
  induction d as [|[k' v'] d IH]; cbn.
  - now rewrite String.eqb_refl.
  - destruct (String.eqb k' k) eqn:Hk; cbn; now rewrite Hk.
Qed.

Lemma dict_get_set_ne d k v k' :
  k <> k' -> Py.dict_get (Py.dict_set d k v) k' = Py.dict_get d k'.
Proof.
  intros Hne. induction d as [|[k0 v0] d IH]; cbn.
  - apply String.eqb_neq in Hne. now rewrite Hne.
  - destruct (String.eqb k0 k) eqn:Hk; cbn.
    + apply String.eqb_eq in Hk. subst k0.
      apply String.eqb_neq in Hne. now rewrite Hne.
    + now rewrite IH.
Qed.

(** The keys are kept, in their order; a new key goes to the end. *)
Lemma dict_set_keys d k v :
  map fst (Py.dict_set d k v)
  = if bool_decide (k ∈ map fst d) then map fst d else (map fst d ++ [k])%list.
Proof.
  induction d as [|[k' v'] d IH]; cbn; [reflexivity|].
  destruct (String.eqb k' k) eqn:Hk; cbn.
  - apply String.eqb_eq in Hk. subst k'.
    rewrite bool_decide_eq_true_2 by apply list_elem_of_here. reflexivity.
  - apply String.eqb_neq in Hk. rewrite IH.
    destruct (bool_decide (k ∈ map fst d)) eqn:Hd.
    + apply bool_decide_eq_true in Hd.
      rewrite bool_decide_eq_true_2 by now apply list_elem_of_further.
      reflexivity.
    + apply bool_decide_eq_false in Hd.
      rewrite bool_decide_eq_false_2; [reflexivity|].
      intros [?|?]%elem_of_cons; congruence.
Qed.

Lemma synced_state_lookup st user_id collections :
  Py.dict_get (synced_state env st user_id collections) "user_id" = Some user_id
  /\ Py.dict_get (synced_state env st user_id collections) "collections"
     = Some collections
  /\ Py.dict_get (synced_state env st user_id collections) "synced_at"
     = Some (JStr (now_iso env))
  /\ forall k, k <> "user_id" -> k <> "collections" -> k <> "synced_at" ->
       Py.dict_get (synced_state env st user_id collections) k = Py.dict_get st k.
Proof.
  unfold synced_state. repeat split.
  - rewrite !dict_get_set_ne by discriminate. apply dict_get_set_eq.
  - rewrite dict_get_set_ne by discriminate. apply dict_get_set_eq.
  - apply dict_get_set_eq.
  - intros k H1 H2 H3. now rewrite !dict_get_set_ne by congruence.
Qed.

Lemma fetch_collections_Ok cfg w collections w1 :
  fetch_collections env cfg w = (Ok collections, w1) ->
  exists user_id l,
    Py.getitem cfg "user_id" = Returns user_id
    /\ collections = JArr l /\ fs w1 = fs w /\ stdin w1 = stdin w.
Proof.
  unfold fetch_collections. intros H.
  apply bind_Ok_inv in H as (uid & w2 & Huid & H).
  apply lift_Ok_inv in Huid as [Huid ->].
  apply bind_Ok_inv in H as (headers & w2 & Hh & H).
  apply lift_Ok_inv in Hh as [Hh ->].
  apply bind_Ok_inv in H as ([[status text] body] & w2 & Hget & H).
  unfold requests_get in Hget.
  destruct (http_get env _ _) as [e|st tx bd]; [discriminate|].
  injection Hget as -> -> -> <-.
  destruct (negb _); [discriminate|].
  apply bind_Ok_inv in H as (data & w2 & Hjson & H).
  destruct body as [v|]; [|discriminate]. injection Hjson as -> <-.
  destruct data; try discriminate. injection H as <- <-.
  eauto 8.
Qed.

(** When the collections are fetched, the state loaded is an object
    and the state file can be written, the synchronisation returns and
    the file holds the object loaded with the three keys assigned. *)
Lemma sync_writes_state (cfg : json) (w w1 : World) (collections : json)
    (st : list (string * json)) :
  fetch_collections env cfg w = (Ok collections, w1) ->
  load_state w1 = (Ok (JObj st), w1) ->
  (forall state, dump_error env state = None) ->
  exists user_id w',
    sync_collections_to_state env cfg w = (Ok collections, w')
    /\ Py.getitem cfg "user_id" = Returns user_id
    /\ fs w' !! STATE_PATH
       = Some (Content (JObj (synced_state env st user_id collections))).
Proof.
  intros Hfetch Hload Hdump.
  destruct (fetch_collections_Ok _ _ _ _ Hfetch) as (uid & l & Huid & -> & _ & _).
  exists uid. eexists. split; [|split; [exact Huid|]].
  - unfold sync_collections_to_state.
    rewrite (bind_Ok _ _ _ _ _ Hfetch), (bind_Ok _ _ _ _ _ Hload).
    rewrite Huid.
    repeat (rewrite bind_lift_Returns; cbn [Py.setitem]).
    erewrite bind_Ok; [|unfold save_state; rewrite Hdump; reflexivity].
    cbn [len]. rewrite !bind_lift_Returns, bind_print. reflexivity.
  - cbn [fs emit]. apply lookup_insert_eq.
Qed.

Lemma synced_state_keys st user_id collections k :
  k ∈ map fst st -> k ∈ map fst (synced_state env st user_id collections).
Proof.
  intros Hk. unfold synced_state. rewrite !dict_set_keys.
  repeat (destruct (bool_decide _)); rewrite ?elem_of_app; auto.
Qed.

End StateFacts.

Section StateFrame.
Context {RT : PyRuntime} (env : Env).

Lemma fetch_collections_fs cfg w o w' :
  fetch_collections env cfg w = (o, w') -> fs w' = fs w.
Proof.
  unfold fetch_collections, bind, lift, requests_get, resp_json, raise, ret.
  destruct (Py.getitem cfg "user_id"); [|now intros [= <- <-]].
  destruct (base_headers cfg); [|now intros [= <- <-]].
  destruct (http_get env _ _) as [e|status text body]; [now intros [= <- <-]|].
  destruct (negb _); [now intros [= <- <-]|].
  destruct body as [v|]; [|now intros [= <- <-]].
  destruct (negb _); now intros [= <- <-].
Qed.

(** However the synchronisation ends, the state file is as it was or
    holds the object that was loaded with the three keys assigned. *)
Lemma sync_state_file cfg w o w' :
  sync_collections_to_state env cfg w = (o, w') ->
  fs w' !! STATE_PATH = fs w !! STATE_PATH
  \/ exists st user_id collections,
       load_state w = (Ok (JObj st), w)
       /\ fs w' !! STATE_PATH
          = Some (Content (JObj (synced_state env st user_id collections))).
Proof.
  unfold sync_collections_to_state. unfold bind at 1.
  destruct (fetch_collections env cfg w) as [[colls|c|e] w1] eqn:Hf;
    apply fetch_collections_fs in Hf;
    [|intros [= _ <-]; left; now rewrite Hf..].
  unfold bind at 1.
  destruct (load_state w1) as [ol wl] eqn:Hload.
  assert (Hl : exists loaded, ol = Ok loaded /\ wl = w1
                              /\ load_state w = (Ok loaded, w)).
  { revert Hload. unfold load_state. rewrite Hf.
    destruct (fs w !! STATE_PATH) as [[|v]|]; intros [= <- <-]; eauto. }
  destruct Hl as (loaded & -> & -> & Hlw). clear Hload.
  destruct (Py.getitem cfg "user_id") as [uid|e];
    [|intros [= _ <-]; left; now rewrite Hf].
  rewrite bind_lift_Returns.
  destruct loaded as [| | | | |l|st];
    try (intros [= _ <-]; left; now rewrite Hf).
  repeat (cbn [Py.setitem]; rewrite bind_lift_Returns).
  unfold bind at 1, save_state at 1.
  destruct (dump_error env _).
  - intros [= _ <-]. left. cbn [fs].
    rewrite lookup_insert_ne by discriminate. now rewrite Hf.
  - intros Hrest. right. exists st, uid, colls. split; [exact Hlw|].
    assert (Hfs : fs w' = <[STATE_PATH:=Content (JObj (synced_state env st uid colls))]>
                            (delete STATE_TMP (fs w1))).
    { revert Hrest. unfold bind, lift, print, ret, raise.
      destruct (len colls); intros [= _ <-]; reflexivity. }
    rewrite Hfs. apply lookup_insert_eq.
Qed.

(** C10.  The synchronisation assigns three keys of the state that
    was loaded and writes the result.  However it ends, the state file
    is as it was or holds the object loaded with [user_id],
    [collections] and [synced_at] assigned; in that object every other
    key has the value it had and no key of the object loaded is lost;
    and when the collections are fetched, the state loaded is an
    object and the file can be written, the file is written so. *)
Theorem sync_keeps_other_keys (cfg : json) (w : World) :
  (forall o w',
      sync_collections_to_state env cfg w = (o, w') ->
      fs w' !! STATE_PATH = fs w !! STATE_PATH
      \/ exists st user_id collections,
           load_state w = (Ok (JObj st), w)
           /\ fs w' !! STATE_PATH
              = Some (Content (JObj (synced_state env st user_id collections))))
  /\ (forall st user_id collections,
        Py.dict_get (synced_state env st user_id collections) "user_id"
        = Some user_id
        /\ Py.dict_get (synced_state env st user_id collections) "collections"
           = Some collections
        /\ Py.dict_get (synced_state env st user_id collections) "synced_at"
           = Some (JStr (now_iso env))
        /\ (forall k, k <> "user_id" -> k <> "collections" -> k <> "synced_at" ->
              Py.dict_get (synced_state env st user_id collections) k
              = Py.dict_get st k)
        /\ (forall k, k ∈ map fst st ->
              k ∈ map fst (synced_state env st user_id collections)))
  /\ (forall w1 collections st,
        fetch_collections env cfg w = (Ok collections, w1) ->
        load_state w1 = (Ok (JObj st), w1) ->
        (forall state, dump_error env state = None) ->
        exists user_id w',
          sync_collections_to_state env cfg w = (Ok collections, w')
          /\ Py.getitem cfg "user_id" = Returns user_id
          /\ fs w' !! STATE_PATH
             = Some (Content (JObj (synced_state env st user_id collections)))).
Proof.
  split; [|split].
  - intros o w'. apply sync_state_file.
  - intros st user_id collections.
    destruct (synced_state_lookup env st user_id collections) as (H1 & H2 & H3 & H4).
    repeat split; trivial. intros k. apply synced_state_keys.
  - intros w1 collections st. apply sync_writes_state.
Qed.

End StateFrame.

(** A state file with a key of the operator's own: the key is there
    after the synchronisation, and [user_id] has its new value. *)
Lemma sync_keeps_other_keys_witness :
  exists w',
    sync_collections_to_state (RT := Sample.runtime) (Demo.env (JArr [])) Demo.cfg
      Demo.world_with_state
    = (Ok Demo.collections, w')
    /\ fs w' !! STATE_PATH
       = Some (Content (JObj [("note", JStr "mine"); ("user_id", JStr "U1");
                              ("collections", Demo.collections);
                              ("synced_at", JStr "2025-11-07T15:24:09+00:00")])).
Proof.
  destruct (proj2 (proj2 (sync_keeps_other_keys (RT := Sample.runtime)
                            (Demo.env (JArr [])) Demo.cfg Demo.world_with_state))
              (emit (HttpGet "https://api.modrinth.com/v3/user/U1/collections")
                    Demo.world_with_state)
              Demo.collections
              [("note", JStr "mine"); ("user_id", JStr "old")]
              eq_refl eq_refl (fun _ => eq_refl))
    as (user_id & w' & Hsync & Huid & Hfs).
  injection Huid as <-.
  exists w'. split; [exact Hsync|exact Hfs].
Defined.

(** ** The ids of the mod list *)

Section CollectFacts.
Context {RT : PyRuntime}.

Lemma NoDup_snoc_fresh (ids : list string) p : NoDup ids -> p ∉ ids -> NoDup (ids ++ [p]).
Proof.
  intros Hn Hp. apply NoDup_app. split; [exact Hn|]. split.
  - intros x Hx Hx'. apply list_elem_of_singleton in Hx'. congruence.
  - apply NoDup_singleton.
Qed.

(** One turn of the loop keeps the ids without duplicates, and keeps
    the ids it had. *)
Lemma collect_step_NoDup acc entry w acc' w' :
  collect_step acc entry w = (Ok acc', w') ->
  NoDup acc.1 ->
  NoDup acc'.1 /\ (forall x, x ∈ acc.1 -> x ∈ acc'.1).
Proof.
  unfold collect_step. destruct acc as [ids skipped]. cbn [fst].
  intros H Hn.
  apply bind_Ok_inv in H as (url & w1 & _ & H).
  apply bind_Ok_inv in H as (pid & w2 & _ & H).
  apply bind_Ok_inv in H as (pid' & w3 & _ & H).
  destruct pid' as [p|]; [|injection H as <- _; auto].
  destruct (negb _); [|injection H as <- _; auto].
  destruct (bool_decide (p ∉ ids)) eqn:Hp; injection H as <- _; cbn [fst]; [|auto].
  apply bool_decide_eq_true in Hp. split.
  - now apply NoDup_snoc_fresh.
  - intros x Hx. apply elem_of_app. now left.
Qed.

Lemma collect_loop_NoDup modlist : forall acc w acc' w',
  collect_loop modlist acc w = (Ok acc', w') ->
  NoDup acc.1 -> NoDup acc'.1.
Proof.
  induction modlist as [|entry rest IH]; intros acc w acc' w' H Hn.
  - injection H as <- _. exact Hn.
  - cbn [collect_loop] in H.
    apply bind_Ok_inv in H as (acc1 & w1 & Hstep & H).
    apply (IH _ _ _ _ H).
    now apply (collect_step_NoDup _ _ _ _ _ Hstep).
Qed.

(** An entry whose URL gives an id is taken without a question. *)
Lemma collect_step_direct ids skipped entry p w :
  direct_pid entry = Some p ->
  collect_step (ids, skipped) entry w
  = (Ok (if bool_decide (p ∉ ids) then (ids ++ [p])%list else ids, skipped), w).
Proof.
  unfold direct_pid, collect_step. intros H.
  destruct (Py.get entry "url") as [url|e]; [|discriminate].
  rewrite bind_lift_Returns.
  destruct (truthy url); [|discriminate].
  destruct (extract_from_value url) as [[q|]|e]; try discriminate.
  rewrite bind_lift_Returns. cbn [pid_truthy].
  destruct (negb (String.eqb q "")) eqn:Hq; [|discriminate].
  injection H as ->. cbn [negb]. unfold bind at 1, ret at 1.
  rewrite Hq. destruct (bool_decide _); reflexivity.
Qed.

Lemma collect_loop_direct modlist : forall pids ids skipped w,
  Forall2 (fun entry p => direct_pid entry = Some p) modlist pids ->
  NoDup ids ->
  exists ids',
    collect_loop modlist (ids, skipped) w = (Ok (ids', skipped), w)
    /\ NoDup ids' /\ forall x, x ∈ ids' <-> x ∈ ids \/ x ∈ pids.
Proof.
  induction modlist as [|entry rest IH]; intros pids ids skipped w Hall Hn.
  - inversion Hall; subst. exists ids. split; [reflexivity|].
    split; [exact Hn|]. intros x. rewrite elem_of_nil. tauto.
  - inversion Hall as [|? p ? pids' Hp Hrest]; subst.
    cbn [collect_loop].
    rewrite (bind_Ok _ _ _ _ _ (collect_step_direct ids skipped entry p w Hp)).
    destruct (bool_decide (p ∉ ids)) eqn:Hfresh.
    + apply bool_decide_eq_true in Hfresh.
      destruct (IH pids' (ids ++ [p])%list skipped w Hrest
                  (NoDup_snoc_fresh _ _ Hn Hfresh)) as (ids' & Hrun & Hn' & Hin).
      exists ids'. split; [exact Hrun|]. split; [exact Hn'|].
      intros x. rewrite Hin, elem_of_app, list_elem_of_singleton, elem_of_cons. tauto.
    + apply bool_decide_eq_false in Hfresh.
      assert (Hin0 : p ∈ ids) by (destruct (decide (p ∈ ids)); tauto).
      destruct (IH pids' ids skipped w Hrest Hn) as (ids' & Hrun & Hn' & Hin).
      exists ids'. split; [exact Hrun|]. split; [exact Hn'|].
      intros x. rewrite Hin, elem_of_cons. split; [tauto|].
      intros [?|[->|?]]; auto.
Qed.

(** C6.  Every turn of the loop of [collect_project_ids_from_modlist]
    keeps the list of ids without duplicates, so the list returned has
    none; and when the URL of every entry gives an id, the call
    returns, without a question and with nothing skipped, the ids of
    the entries, each once. *)
Theorem collect_no_duplicates :
  (forall acc entry w acc' w',
      collect_step acc entry w = (Ok acc', w') -> NoDup acc.1 -> NoDup acc'.1)
  /\ (forall modlist w ids skipped w',
        collect_project_ids_from_modlist modlist w = (Ok (ids, skipped), w') ->
        NoDup ids)
  /\ (forall modlist pids w,
        Forall2 (fun entry p => direct_pid entry = Some p) modlist pids ->
        exists ids,
          collect_project_ids_from_modlist modlist w = (Ok (ids, 0), w)
          /\ NoDup ids /\ forall x, x ∈ ids <-> x ∈ pids).
Proof.
  split; [|split].
  - intros acc entry w acc' w' H Hn.
    apply (collect_step_NoDup _ _ _ _ _ H Hn).
  - intros modlist w ids skipped w' H.
    apply (collect_loop_NoDup _ _ _ _ _ H). apply NoDup_nil_2.
  - intros modlist pids w Hall.
    destruct (collect_loop_direct modlist pids [] 0 w Hall (NoDup_nil_2))
      as (ids & Hrun & Hn & Hin).
    exists ids. split; [exact Hrun|]. split; [exact Hn|].
    intros x. rewrite Hin, elem_of_nil. tauto.
Qed.

End CollectFacts.

(** Three entries, two of them for the same project: two ids. *)
Lemma collect_no_duplicates_witness :
  exists ids,
    collect_project_ids_from_modlist (RT := Sample.runtime)
      [Demo.entry "Fabric API" "https://modrinth.com/mod/P7dR8mSH";
       Demo.entry "Sodium" "https://modrinth.com/mod/sodium/version/1.0";
       Demo.entry "Fabric again" "https://www.modrinth.com/mod/P7dR8mSH"]
      (mkWorld [] ∅ [])
    = (Ok (ids, 0), mkWorld [] ∅ [])
    /\ NoDup ids
    /\ forall x, x ∈ ids <-> x ∈ ["P7dR8mSH"; "sodium"; "P7dR8mSH"].
Proof.
  apply (proj2 (proj2 (collect_no_duplicates (RT := Sample.runtime)))).
  repeat constructor.
Defined.

Example collect_twice_once :
  collect_project_ids_from_modlist (RT := Sample.runtime)
    [Demo.entry "Fabric API" "https://modrinth.com/mod/P7dR8mSH";
     Demo.entry "Sodium" "https://modrinth.com/mod/sodium/version/1.0";
     Demo.entry "Fabric again" "https://www.modrinth.com/mod/P7dR8mSH"]
    (mkWorld [] ∅ [])
  = (Ok (["P7dR8mSH"; "sodium"], 0), mkWorld [] ∅ []).
Proof. vm_compute. reflexivity. Qed.

(** ** The answers that end a run *)

Section Answers.
Context {RT : PyRuntime}.

(** [q] or [quit] at the resolver: the line is printed and [sys.exit(1)]
    is called. *)
Lemma prompt_loop_quit fuel w line rest :
  stdin w = line :: rest ->
  str_in (str_lower (str_strip line)) ["q"; "quit"] = true ->
  exists w',
    prompt_loop (S fuel) w = (SystemExit 1, w')
    /\ stdin w' = rest
    /\ exists prompt,
         trace w' = Print "Aborting by user request." :: Prompt prompt :: trace w.
Proof.
  intros Hin Hq. cbn [prompt_loop]. unfold bind at 1, input. cbn [emit stdin].
  rewrite Hin, Hq. cbn. eauto.
Qed.

(** [q] or [quit] at the collection picker *)
Lemma choose_loop_quit fuel cols w line rest :
  stdin w = line :: rest ->
  str_in (str_lower (str_strip line)) ["q"; "quit"] = true ->
  exists w',
    choose_loop (S fuel) cols w = (SystemExit 1, w')
    /\ stdin w' = rest
    /\ exists prompt,
         trace w' = Print "Aborting by user request." :: Prompt prompt :: trace w.
Proof.
  intros Hin Hq. cbn [choose_loop]. unfold bind at 1, input. cbn [emit stdin].
  rewrite Hin, Hq. cbn. eauto.
Qed.

(** Anything but [y] or [yes] at the final confirmation: the line is
    printed and [sys.exit(0)] is called. *)
Lemma confirm_update_decline w line rest :
  stdin w = line :: rest ->
  str_in (str_lower (str_strip line)) ["y"; "yes"] = false ->
  exists w',
    confirm_update w = (SystemExit 0, w')
    /\ stdin w' = rest
    /\ exists prompt, trace w' = Print "Aborted by user." :: Prompt prompt :: trace w.
Proof.
  intros Hin Hn. unfold confirm_update, bind at 1, input. cbn [emit stdin].
  rewrite Hin, Hn. cbn. eauto.
Qed.

End Answers.

(** ** The fuel of the two prompts is never used up *)

Section Fuel.
Context {RT : PyRuntime}.

Lemma input_stdin prompt w line w' :
  input prompt w = (Ok line, w') -> length (stdin w) = S (length (stdin w')).
Proof.
  unfold input. cbn. destruct (stdin w); [discriminate|].
  intros [= _ <-]. reflexivity.
Qed.

Lemma bind_cong {A B} (m : M A) (f g : A -> M B) w :
  (forall a w1, m w = (Ok a, w1) -> f a w1 = g a w1) ->
  bind m f w = bind m g w.
Proof.
  intros H. unfold bind. destruct (m w) as [[a|c|e] w1]; auto.
Qed.

Lemma lift_world {A} (r : result A) w a w1 : lift r w = (Ok a, w1) -> w1 = w.
Proof. destruct r; unfold lift, ret, raise; intros [=]; auto. Qed.

(** With more fuel than lines to read, the loop of the resolver does
    what it does with any larger fuel. *)
Lemma prompt_loop_fuel : forall n m w,
  (length (stdin w) < n)%nat -> (length (stdin w) < m)%nat ->
  prompt_loop n w = prompt_loop m w.
Proof.
  induction n as [|n IH]; intros m w Hn Hm; [lia|].
  destruct m as [|m]; [lia|].
  cbn [prompt_loop]. apply bind_cong. intros line w1 Hin.
  apply input_stdin in Hin.
  destruct (str_in _ _); [reflexivity|].
  destruct (str_in _ _); [reflexivity|].
  destruct (str_in _ _); [|apply IH; lia].
  apply bind_cong. intros line2 w2 Hin2. apply input_stdin in Hin2.
  apply bind_cong. intros pid w3 Hl. apply lift_world in Hl. subst w3.
  destruct pid as [p|].
  - destruct (negb _); [reflexivity|].
    rewrite !bind_print. apply IH; cbn; lia.
  - rewrite !bind_print. apply IH; cbn; lia.
Qed.

Lemma choose_loop_fuel cols : forall n m w,
  (length (stdin w) < n)%nat -> (length (stdin w) < m)%nat ->
  choose_loop n cols w = choose_loop m cols w.
Proof.
  induction n as [|n IH]; intros m w Hn Hm; [lia|].
  destruct m as [|m]; [lia|].
  cbn [choose_loop]. apply bind_cong. intros line w1 Hin.
  apply input_stdin in Hin.
  destruct (str_in _ _); [reflexivity|].
  apply bind_cong. intros found w2 Hl. apply lift_world in Hl. subst w2.
  destruct found as [col|]; [reflexivity|].
  destruct (py_int _) as [idx|].
  - destruct (_ && _); [reflexivity|].
    rewrite !bind_print. apply IH; cbn; lia.
  - rewrite !bind_print. apply IH; cbn; lia.
Qed.

End Fuel.

(** * More of what the script does *)

(** ** What a run leaves alone, call by call *)

Section FrameCalls.
Context {RT : PyRuntime} (env : Env).

Lemma effects_app new2 new1 : effects (new2 ++ new1) = (effects new1 ++ effects new2)%list.
Proof. unfold effects. now rewrite rev_app_distr, omap_app. Qed.

Lemma run_frame_refl w : run_frame [] w w.
Proof.
  split; [now exists []|]. split; [reflexivity|].
  exists []. split; [reflexivity|]. constructor.
Qed.

Lemma run_frame_trans l1 l2 w1 w2 w3 :
  run_frame l1 w1 w2 -> run_frame l2 w2 w3 -> run_frame (l1 ++ l2) w1 w3.
Proof.
  intros ([r1 Hr1] & Hf1 & n1 & Ht1 & Hs1) ([r2 Hr2] & Hf2 & n2 & Ht2 & Hs2).
  split; [|split].
  - exists (r1 ++ r2)%list. now rewrite Hr1, Hr2, app_assoc.
  - intros path H1 H2. now rewrite Hf2, Hf1.
  - exists (n2 ++ n1)%list. split.
    + now rewrite Ht2, Ht1, app_assoc.
    + rewrite effects_app. now apply sublist_app.
Qed.

Lemma run_frame_weaken l l' w w' :
  l `sublist_of` l' -> run_frame l w w' -> run_frame l' w w'.
Proof.
  intros Hl (Hr & Hf & n & Ht & Hs). split; [exact Hr|]. split; [exact Hf|].
  exists n. split; [exact Ht|]. now transitivity l.
Qed.

Lemma run_frame_emit e w : run_frame (effects [e]) w (emit e w).
Proof.
  split; [now exists []|]. split; [reflexivity|].
  exists [e]. split; [reflexivity|]. reflexivity.
Qed.

Lemma within_weaken {A} l l' (c : M A) :
  l `sublist_of` l' -> within l c -> within l' c.
Proof. intros Hl Hc w o w' H. eapply run_frame_weaken; eauto. Qed.

Lemma within_ret {A} (a : A) : within [] (ret a).
Proof. intros w o w' [= _ <-]. apply run_frame_refl. Qed.

Lemma within_raise {A} (e : exn) : within [] (raise (A := A) e).
Proof. intros w o w' [= _ <-]. apply run_frame_refl. Qed.

Lemma within_sys_exit {A} code : within [] (sys_exit (A := A) code).
Proof. intros w o w' [= _ <-]. apply run_frame_refl. Qed.

Lemma within_lift {A} (r : result A) : within [] (lift r).
Proof. destruct r; [apply within_ret|apply within_raise]. Qed.

Lemma within_print line : within [] (print line).
Proof. intros w o w' [= _ <-]. apply (run_frame_emit (Print line)). Qed.

Lemma within_print_err line : within [] (print_err line).
Proof. intros w o w' [= _ <-]. apply (run_frame_emit (PrintErr line)). Qed.

Lemma within_input prompt : within [] (input prompt).
Proof.
  intros w o w'. unfold input. cbn [emit stdin fs trace].
  destruct (stdin w) as [|line rest] eqn:Hin; intros [= _ <-].
  - split; [exists []; now rewrite Hin|]. split; [reflexivity|].
    exists [Prompt prompt]. split; [reflexivity|]. apply sublist_nil_l.
  - split; [exists [line]; now rewrite Hin|]. split; [reflexivity|].
    exists [Prompt prompt]. split; [reflexivity|]. apply sublist_nil_l.
Qed.

Lemma within_bind {A B} l1 l2 (m : M A) (f : A -> M B) :
  within l1 m -> (forall a, within l2 (f a)) -> within (l1 ++ l2) (bind m f).
Proof.
  intros Hm Hf w o w'. unfold bind.
  destruct (m w) as [[a|c|e] w1] eqn:Hmw.
  - intros H. eapply run_frame_trans; [apply (Hm _ _ _ Hmw)|apply (Hf _ _ _ _ H)].
  - intros [= <- <-]. eapply run_frame_weaken; [|apply (Hm _ _ _ Hmw)].
    apply sublist_inserts_r. reflexivity.
  - intros [= <- <-]. eapply run_frame_weaken; [|apply (Hm _ _ _ Hmw)].
    apply sublist_inserts_r. reflexivity.
Qed.

Lemma within_bind0 {A B} (m : M A) (f : A -> M B) :
  within [] m -> (forall a, within [] (f a)) -> within [] (bind m f).
Proof. apply (within_bind [] []). Qed.

Lemma within_try_except {A} l1 l2 (body : M A) (handler : exn -> M A) :
  within l1 body -> (forall e, within l2 (handler e)) ->
  within (l1 ++ l2) (try_except body handler).
Proof.
  intros Hb Hh w o w'. unfold try_except.
  destruct (body w) as [[a|c|e] w1] eqn:Hbw.
  - intros [= <- <-]. eapply run_frame_weaken; [|apply (Hb _ _ _ Hbw)].
    apply sublist_inserts_r. reflexivity.
  - intros [= <- <-]. eapply run_frame_weaken; [|apply (Hb _ _ _ Hbw)].
    apply sublist_inserts_r. reflexivity.
  - intros H. eapply run_frame_trans; [apply (Hb _ _ _ Hbw)|apply (Hh _ _ _ _ H)].
Qed.

Lemma within_try_except0 {A} (body : M A) (handler : exn -> M A) :
  within [] body -> (forall e, within [] (handler e)) ->
  within [] (try_except body handler).
Proof. apply (within_try_except [] []). Qed.

Lemma within_with_fuel {A} l (loop : nat -> M A) (fuel : World -> nat) :
  (forall n, within l (loop n)) -> within l (fun w => loop (fuel w) w).
Proof. intros H w o w' Hrun. apply (H _ _ _ _ Hrun). Qed.

Lemma within_is_file path : within [] (is_file path).
Proof. intros w o w' [= _ <-]. apply run_frame_refl. Qed.

Lemma within_json_load path : within [] (json_load path).
Proof.
  intros w o w'. unfold json_load.
  destruct (fs w !! path) as [[|v]|]; intros [= _ <-]; apply run_frame_refl.
Qed.

Lemma within_load_state : within [] load_state.
Proof.
  intros w o w'. unfold load_state.
  destruct (fs w !! STATE_PATH) as [[|v]|]; intros [= _ <-]; apply run_frame_refl.
Qed.

Lemma within_resp_json body : within [] (resp_json body).
Proof. destruct body; [apply within_ret|apply within_raise]. Qed.

Lemma within_requests_get url headers : within [EGet] (requests_get env url headers).
Proof.
  intros w o w'. unfold requests_get.
  destruct (http_get env url headers); intros [= _ <-];
    apply (run_frame_emit (HttpGet url)).
Qed.

Lemma within_requests_patch url headers data :
  within [EPatch] (requests_patch env url headers data).
Proof.
  intros w o w'. unfold requests_patch.
  destruct (http_patch env url headers data); intros [= _ <-];
    apply (run_frame_emit (HttpPatch url data)).
Qed.

Lemma within_save_state state : within [ESave] (save_state env state).
Proof.
  intros w o w'. unfold save_state.
  destruct (dump_error env state); intros [= _ <-].
  - split; [now exists []|]. split.
    + intros path H1 H2. cbn [fs]. now rewrite lookup_insert_ne.
    + exists []. split; [reflexivity|]. apply sublist_nil_l.
  - split; [now exists []|]. split.
    + intros path H1 H2. cbn [fs emit].
      rewrite lookup_insert_ne by congruence. now rewrite lookup_delete_ne.
    + exists [WriteState state]. split; reflexivity.
Qed.

End FrameCalls.

Create HintDb within.

#[local] Hint Resolve within_ret within_raise within_sys_exit within_lift
  within_print within_print_err within_input within_is_file within_json_load
  within_load_state within_resp_json : within.

Ltac within_step :=
  lazymatch goal with
  | |- within [] (bind _ _) => apply within_bind0; [|intros ?]
  | |- within [] (try_except _ _) => apply within_try_except0; [|intros ?]
  | |- within _ (if ?b then _ else _) => destruct b
  | |- within _ (let '(_, _) := ?p in _) => destruct p
  | |- within _ (match ?x with _ => _ end) => destruct x
  | |- _ => fail
  end.

Ltac within_auto := repeat first [ solve [eauto with within] | within_step ].

Section FrameScript.
Context {RT : PyRuntime} (env : Env).

Lemma within_load_config path : within [] (load_config path).
Proof. unfold load_config. within_auto. Qed.

Lemma within_load_modlist path : within [] (load_modlist path).
Proof. unfold load_modlist. within_auto. Qed.

Lemma within_fetch_collections cfg : within [EGet] (fetch_collections env cfg).
Proof.
  unfold fetch_collections.
  apply (within_bind [] [EGet]); [within_auto|intros uid].
  apply (within_bind [] [EGet]); [within_auto|intros headers].
  apply (within_bind [EGet] []); [apply within_requests_get|intros [[status text] body]].
  within_auto.
Qed.

Lemma within_sync_collections_to_state cfg :
  within [EGet; ESave] (sync_collections_to_state env cfg).
Proof.
  unfold sync_collections_to_state.
  apply (within_bind [EGet] [ESave]); [apply within_fetch_collections|intros colls].
  do 5 (apply (within_bind [] [ESave]); [within_auto|intros ?]).
  apply (within_bind [ESave] []); [apply within_save_state|intros _].
  within_auto.
Qed.

Lemma within_print_collections cols : forall idx, within [] (print_collections idx cols).
Proof.
  induction cols as [|col cols IH]; intros idx; cbn [print_collections];
    [apply within_ret|].
  repeat (apply within_bind0; [within_auto|intros ?]). apply IH.
Qed.

Lemma within_choose_loop cols : forall fuel, within [] (choose_loop fuel cols).
Proof.
  induction fuel as [|fuel IH]; cbn [choose_loop]; [apply within_raise|].
  apply within_bind0; [within_auto|intros line].
  destruct (str_in _ _); [within_auto|].
  apply within_bind0; [within_auto|intros found].
  destruct found as [col|]; [within_auto|].
  destruct (py_int _) as [idx|].
  - destruct (_ && _).
    + destruct (cols !! _); within_auto.
    + apply within_bind0; [within_auto|intros _; apply IH].
  - apply within_bind0; [within_auto|intros _; apply IH].
Qed.

Lemma within_choose_collection collections explicit_id :
  within [] (choose_collection collections explicit_id).
Proof.
  unfold choose_collection.
  destruct (pid_truthy explicit_id); [within_auto|].
  destruct (negb (truthy collections)); [within_auto|].
  repeat (apply within_bind0; [within_auto|intros ?]).
  - apply within_print_collections.
  - apply (within_with_fuel [] (fun n => choose_loop n _)), within_choose_loop.
Qed.

Lemma within_prompt_loop : forall fuel, within [] (prompt_loop fuel).
Proof.
  induction fuel as [|fuel IH]; cbn [prompt_loop]; [apply within_raise|].
  apply within_bind0; [within_auto|intros line].
  destruct (str_in _ _); [within_auto|].
  destruct (str_in _ _); [within_auto|].
  destruct (str_in _ _); [|apply IH].
  apply within_bind0; [within_auto|intros line2].
  apply within_bind0; [within_auto|intros [p|]].
  - destruct (negb _); [within_auto|].
    apply within_bind0; [within_auto|intros _; apply IH].
  - apply within_bind0; [within_auto|intros _; apply IH].
Qed.

Lemma within_prompt_for_modrinth_url entry :
  within [] (prompt_for_modrinth_url entry).
Proof.
  unfold prompt_for_modrinth_url.
  repeat (apply within_bind0; [within_auto|intros ?]).
  apply (within_with_fuel [] prompt_loop), within_prompt_loop.
Qed.

Lemma within_collect_step acc entry : within [] (collect_step acc entry).
Proof.
  unfold collect_step. destruct acc as [project_ids skipped].
  apply within_bind0; [within_auto|intros url].
  apply within_bind0; [within_auto|intros pid].
  apply within_bind0.
  - destruct (negb _); [apply within_prompt_for_modrinth_url|within_auto].
  - intros pid'. within_auto.
Qed.

Lemma within_collect_loop modlist :
  forall acc, within [] (collect_loop modlist acc).
Proof.
  induction modlist as [|entry rest IH]; intros acc; cbn [collect_loop];
    [apply within_ret|].
  apply within_bind0; [apply within_collect_step|intros acc'; apply IH].
Qed.

Lemma within_fetch_collection_details cfg cid :
  within [EGet] (fetch_collection_details env cfg cid).
Proof.
  unfold fetch_collection_details.
  apply (within_bind [] [EGet]); [within_auto|intros headers].
  apply (within_bind [EGet] []); [apply within_requests_get|intros [[status text] body]].
  within_auto.
Qed.

Lemma within_existing_projects_of coll : within [] (existing_projects_of coll).
Proof. unfold existing_projects_of. within_auto. Qed.

Lemma within_collections_from_state e : within [] (collections_from_state e).
Proof. unfold collections_from_state. within_auto. Qed.

Lemma within_confirm_update : within [] confirm_update.
Proof. unfold confirm_update. within_auto. Qed.

Lemma within_patch_collection_projects cfg cid ids dry_run :
  within [EPatch] (patch_collection_projects env cfg cid ids dry_run).
Proof.
  unfold patch_collection_projects.
  apply (within_bind [] [EPatch]); [within_auto|intros _].
  destruct dry_run.
  - apply (within_weaken []); [apply sublist_nil_l|within_auto].
  - apply (within_bind [] [EPatch]); [within_auto|intros headers].
    apply (within_bind [EPatch] []);
      [apply within_requests_patch|intros [[status text] body]].
    within_auto.
Qed.

Lemma within_main_prepare args : within [EGet; ESave; EGet] (main_prepare env args).
Proof.
  unfold main_prepare.
  apply (within_bind [] [EGet; ESave; EGet]); [|intros cfg].
  { unfold try_except_class. apply within_try_except0; [apply within_load_config|].
    intros e. within_auto. }
  apply (within_bind [EGet; ESave] [EGet]); [|intros collections].
  { apply (within_try_except [EGet; ESave] []);
      [apply within_sync_collections_to_state|apply within_collections_from_state]. }
  apply (within_bind [] [EGet]); [apply within_choose_collection|intros cid].
  apply (within_bind [] [EGet]); [|intros modlist].
  { apply within_try_except0; [apply within_load_modlist|intros e; within_auto]. }
  apply (within_bind [] [EGet]); [within_auto|intros _].
  apply (within_bind [] [EGet]); [apply within_collect_loop|intros [ids skipped]].
  apply (within_bind [] [EGet]); [within_auto|intros _].
  apply (within_bind [] [EGet]); [within_auto|intros _].
  apply (within_bind [EGet] []); [apply within_fetch_collection_details|intros coll].
  apply within_bind0; [apply within_existing_projects_of|intros existing].
  destruct (merge _ _) as [final added].
  apply within_bind0; [within_auto|intros _].
  apply within_bind0; [within_auto|intros _].
  apply within_bind0; [apply within_confirm_update|intros _].
  within_auto.
Qed.

Lemma within_main args : within [EGet; ESave; EGet; EPatch] (main env args).
Proof.
  unfold main.
  apply (within_bind [EGet; ESave; EGet] [EPatch]); [apply within_main_prepare|].
  intros [[cfg cid] final]. apply within_patch_collection_projects.
Qed.

End FrameScript.

(** ** The id the normaliser returns *)

Section ExtractResult.
Context {RT : PyRuntime}.

Lemma split_no_sep sep s : Forall (fun p => Str.contains sep p = false) (Str.split sep s).
Proof.
  induction s as [|c s IH]; cbn [Str.split].
  - repeat constructor.
  - destruct (Ascii.eqb c sep) eqn:Hc.
    + constructor; [reflexivity|exact IH].
    + destruct (Str.split sep s) as [|p ps]; [repeat constructor; cbn; now rewrite Hc|].
      inversion IH as [|? ? Hp Hps]; subst.
      constructor; [cbn; now rewrite Hc|exact Hps].
Qed.

Lemma path_parts_plain path :
  Forall (fun p => p <> "" /\ Str.contains "/" p = false) (path_parts path).
Proof.
  unfold path_parts. apply Forall_forall. intros p Hp.
  apply list_elem_of_In, filter_In in Hp as [Hin Hne].
  split.
  - intros ->. discriminate.
  - pose proof (split_no_sep "/" path) as Hall.
    rewrite Forall_forall in Hall. apply Hall. now apply list_elem_of_In.
Qed.

Lemma extract_Some_plain url p :
  extract_modrinth_project_id url = Returns (Some p) ->
  p <> "" /\ Str.contains "/" p = false.
Proof.
  unfold extract_modrinth_project_id.
  destruct (Url.urlparse url) as [parsed|e]; [|discriminate].
  destruct (negb _); [discriminate|].
  pose proof (path_parts_plain (Url.path parsed)) as Hall.
  destruct (path_parts _) as [|p0 [|p1 rest]]; try discriminate.
  destruct (String.eqb _ _); [|discriminate].
  intros [= <-].
  inversion Hall as [|? ? _ Hall']; subst. inversion Hall' as [|? ? Hp _]; subst.
  exact Hp.
Qed.

(** X1.  A project id the normaliser returns is a segment of the path:
    it is not empty and has no [/] in it; so the test [if not pid] that
    follows a call is the test for [None]. *)
Theorem extract_id_is_segment (url p : string) :
  extract_modrinth_project_id url = Returns (Some p) ->
  p <> "" /\ Str.contains "/" p = false /\ pid_truthy (Some p) = true.
Proof.
  intros H. destruct (extract_Some_plain url p H) as [Hne Hs].
  split; [exact Hne|]. split; [exact Hs|].
  cbn. apply negb_true_iff, String.eqb_neq, Hne.
Qed.

End ExtractResult.

Lemma extract_id_is_segment_witness :
  "P7dR8mSH" <> "" /\ Str.contains "/" "P7dR8mSH" = false
  /\ pid_truthy (Some "P7dR8mSH") = true.
Proof.
  apply (extract_id_is_segment (RT := Sample.runtime)
           "https://modrinth.com/mod/P7dR8mSH/version/1.0").
  reflexivity.
Defined.

(** ** The configuration *)

Section ConfigFacts.
Context {RT : PyRuntime} (env : Env).

(** A field of an object is missing when it is not there or has a
    false value. *)
Lemma field_missing_obj d k :
  field_missing (JObj d) k
  = Returns (match Py.dict_get d k with Some v => negb (truthy v) | None => true end).
Proof.
  unfold field_missing. cbn. destruct (Py.dict_get d k); reflexivity.
Qed.

Lemma missing_fields_obj d ks :
  missing_fields (JObj d) ks
  = Returns (List.filter
               (fun k => match Py.dict_get d k with
                         | Some v => negb (truthy v)
                         | None => true
                         end) ks).
Proof.
  induction ks as [|k ks IH]; [reflexivity|].
  cbn [missing_fields List.filter]. rewrite field_missing_obj, IH. cbn.
  destruct (match Py.dict_get d k with Some v => negb (truthy v) | None => true end);
    reflexivity.
Qed.

(** On anything but an object, the test of the first field finds it
    missing or raises. *)
Lemma missing_fields_not_obj cfg k ks :
  (forall d, cfg <> JObj d) -> missing_fields cfg (k :: ks) <> Returns [].
Proof.
  intros Hno. cbn [missing_fields]. unfold field_missing.
  destruct cfg as [| | | |s|l|d]; try discriminate.
  - cbn. destruct (Str.substring_of k s); cbn; [discriminate|].
    destruct (missing_fields _ ks); discriminate.
  - cbn. destruct (existsb _ l); cbn; [discriminate|].
    destruct (missing_fields _ ks); discriminate.
  - now destruct (Hno d).
Qed.

Lemma missing_fields_obj_nil d ks :
  missing_fields (JObj d) ks = Returns [] <->
  forall k, k ∈ ks -> exists v, Py.dict_get d k = Some v /\ truthy v = true.
Proof.
  induction ks as [|k ks IH].
  - split; [intros _ k Hk; inversion Hk|reflexivity].
  - cbn [missing_fields]. rewrite field_missing_obj. cbn [result_bind].
    destruct (missing_fields (JObj d) ks) as [rest|e] eqn:Hrest; cbn [result_bind].
    + destruct (Py.dict_get d k) as [v|] eqn:Hv.
      * destruct (truthy v) eqn:Ht; cbn [negb].
        -- split.
           ++ intros [= ->] k' [->|Hk']%elem_of_cons; [eauto|].
              now apply (proj1 IH).
           ++ intros H. assert (Hr : Returns rest = Returns (A := list string) []).
              { apply IH. intros k' Hk'. apply H. now apply list_elem_of_further. }
              now injection Hr as ->.
        -- split; [discriminate|]. intros H.
           destruct (H k) as (v' & Hv' & Ht'); [apply list_elem_of_here|]. congruence.
      * split; [discriminate|]. intros H.
        destruct (H k) as (v' & Hv' & _); [apply list_elem_of_here|]. congruence.
    + split; [discriminate|]. rewrite missing_fields_obj in Hrest. discriminate.
Qed.

Lemma load_config_Ok_iff path w cfg w' :
  load_config path w = (Ok cfg, w') <->
  w' = w /\ fs w !! path = Some (Content cfg)
  /\ exists d, cfg = JObj d
       /\ forall k, k ∈ ["token"; "user_agent"; "user_id"] ->
            exists v, Py.dict_get d k = Some v /\ truthy v = true.
Proof.
  unfold load_config, bind, is_file, json_load, lift, raise, ret.
  cbv beta.
  destruct (fs w !! path) as [[|v]|] eqn:Hfs; cbn -[missing_fields];
    rewrite ?Hfs; cbn -[missing_fields].
  - split; [discriminate|]. intros (_ & [=] & _).
  - destruct (missing_fields v _) as [[|m ms]|e] eqn:Hm.
    + split.
      * intros [= <- <-]. split; [reflexivity|]. split; [reflexivity|].
        assert (Hobj : exists d, v = JObj d).
        { destruct v as [| | | | | |d]; [..|eauto]; exfalso;
            (eapply missing_fields_not_obj; [|exact Hm]); intros d; discriminate. }
        destruct Hobj as [d ->].
        exists d. split; [reflexivity|]. now apply missing_fields_obj_nil.
      * intros (-> & [= ->] & _). reflexivity.
    + split; [discriminate|]. intros (_ & [= ->] & d & -> & Hall).
      apply missing_fields_obj_nil in Hall. congruence.
    + split; [discriminate|]. intros (_ & [= ->] & d & -> & Hall).
      apply missing_fields_obj_nil in Hall. congruence.
  - split; [discriminate|]. intros (_ & [=] & _).
Qed.

(** X2.  [load_config] returns exactly when the file holds an object
    in which [token], [user_agent] and [user_id] are there with a true
    value; what it returns is that object, and it changes nothing. *)
Theorem load_config_spec (path : string) (w : World) (cfg : json) (w' : World) :
  load_config path w = (Ok cfg, w') <->
  w' = w /\ fs w !! path = Some (Content cfg)
  /\ exists d, cfg = JObj d
       /\ forall k, k ∈ ["token"; "user_agent"; "user_id"] ->
            exists v, Py.dict_get d k = Some v /\ truthy v = true.
Proof. apply load_config_Ok_iff. Qed.

(** With no file, or an object with a field missing, it raises
    [ConfigError]. *)
Lemma load_config_ConfigError path w :
  fs w !! path = None
  \/ (exists d k, fs w !! path = Some (Content (JObj d))
        /\ k ∈ ["token"; "user_agent"; "user_id"]
        /\ forall v, Py.dict_get d k = Some v -> truthy v = false) ->
  exists msg, load_config path w = (Err (Exn ConfigError msg), w).
Proof.
  unfold load_config, bind, is_file, json_load, lift, raise, ret.
  cbv beta.
  intros [Hfs|(d & k & Hfs & Hk & Hv)]; rewrite Hfs; cbn -[missing_fields];
    rewrite ?Hfs; cbn -[missing_fields]; [eauto|].
  rewrite missing_fields_obj.
  destruct (List.filter _ _) as [|m ms] eqn:Hm; [|eauto].
  exfalso. assert (In k []) as [].
  rewrite <- Hm. apply filter_In. split; [now apply list_elem_of_In|].
  destruct (Py.dict_get d k) as [x|]; [|reflexivity].
  now rewrite (Hv x eq_refl).
Qed.

(** X3.  With no configuration file, or one that holds an object in
    which a required field is missing or false, [main] prints one line
    on standard error and exits with status 1: no request is made and no
    file written.  A file that is not a JSON document is not a
    configuration error: the exception of [json.load] leaves [main]. *)
Theorem main_config_error (args : Args) (w : World) :
  (fs w !! arg_config args = None
   \/ (exists d k, fs w !! arg_config args = Some (Content (JObj d))
         /\ k ∈ ["token"; "user_agent"; "user_id"]
         /\ forall v, Py.dict_get d k = Some v -> truthy v = false) ->
   exists line, main env args w = (SystemExit 1, emit (PrintErr line) w))
  /\ (fs w !! arg_config args = Some Unparseable ->
      exists e, main env args w = (Err e, w)
                /\ is_config_error (exn_class e) = false).
Proof.
  split.
  - intros H. destruct (load_config_ConfigError _ _ H) as [msg Hl].
    unfold main, main_prepare, bind at 1, bind at 1, try_except_class, try_except.
    rewrite Hl. cbn. eauto.
  - intros Hfs.
    unfold main, main_prepare, bind at 1, bind at 1, try_except_class, try_except.
    unfold load_config, bind, is_file, json_load. cbv beta.
    rewrite Hfs. cbn. rewrite ?Hfs. cbn. eauto.
Qed.

End ConfigFacts.

(** A configuration without [user_id] *)
Lemma main_config_error_witness :
  exists line,
    main (RT := Sample.runtime) (Demo.env (JArr [])) (Demo.args false)
      (mkWorld [] (<["config.json" := Content (JObj [("token", JStr "mrp_x");
                                                     ("user_agent", JStr "me/tool");
                                                     ("user_id", JStr "")])]> ∅) [])
    = (SystemExit 1,
       emit (PrintErr line)
         (mkWorld [] (<["config.json" := Content (JObj [("token", JStr "mrp_x");
                                                        ("user_agent", JStr "me/tool");
                                                        ("user_id", JStr "")])]> ∅) [])).
Proof.
  apply (proj1 (main_config_error (RT := Sample.runtime) (Demo.env (JArr []))
                  (Demo.args false) _)).
  right. exists [("token", JStr "mrp_x"); ("user_agent", JStr "me/tool");
                 ("user_id", JStr "")], "user_id".
  split; [reflexivity|]. split; [set_solver|].
  intros v [= <-]. reflexivity.
Defined.

(** ** The state file *)

Section StateRoundTrip.
Context {RT : PyRuntime} (env : Env).

(** X4.  [load_state] returns, whatever the state file is: the empty
    object when there is no file or the file is not a JSON document, the
    document otherwise; it changes nothing.  A state that [save_state]
    has written is the one [load_state] returns next; and when the write
    fails, the state file, and what [load_state] returns, are as
    before. *)
Theorem save_then_load (state : json) (w : World) :
  (exists v, load_state w = (Ok v, w))
  /\ (fs w !! STATE_PATH = None \/ fs w !! STATE_PATH = Some Unparseable ->
      load_state w = (Ok (JObj []), w))
  /\ (forall w', save_state env state w = (Ok tt, w') ->
        load_state w' = (Ok state, w'))
  /\ (forall e w', save_state env state w = (Err e, w') ->
        fs w' !! STATE_PATH = fs w !! STATE_PATH
        /\ (load_state w').1 = (load_state w).1)
  /\ (forall code w', save_state env state w <> (SystemExit code, w')).
Proof.
  split; [|split].
  { unfold load_state. destruct (fs w !! STATE_PATH) as [[|v]|]; eauto. }
  { unfold load_state. now intros [-> | ->]. }
  unfold save_state. destruct (dump_error env state) as [e0|]; split; [|split| |split].
  - discriminate.
  - intros e w' [= _ <-]. cbn [fs].
    assert (Hfs : <[STATE_TMP:=Unparseable]> (fs w) !! STATE_PATH = fs w !! STATE_PATH)
      by now rewrite lookup_insert_ne.
    split; [exact Hfs|]. unfold load_state. cbn [fs]. rewrite Hfs.
    destruct (fs w !! STATE_PATH) as [[|v]|]; reflexivity.
  - discriminate.
  - intros w' [= <-]. unfold load_state. cbn [fs emit].
    now rewrite lookup_insert_eq.
  - discriminate.
  - discriminate.
Qed.

End StateRoundTrip.

(** ** The requests *)

Section Requests.
Context {RT : PyRuntime} (env : Env).

(** The headers of a configuration that has the two fields *)
Lemma base_headers_obj d token agent :
  Py.dict_get d "token" = Some token ->
  Py.dict_get d "user_agent" = Some agent ->
  base_headers (JObj d)
  = Returns [("Authorization", token); ("User-Agent", agent);
             ("Accept", JStr "application/json");
             ("Content-Type", JStr "application/json")].
Proof. intros Ht Ha. unfold base_headers. cbn. now rewrite Ht, Ha. Qed.

(** X5.  [fetch_collections] makes one request, for the collections of
    the user of the configuration, with the token as it is in the
    [Authorization] header; it returns the body when the status is 200
    and the body is a JSON list, raises [RuntimeError] on another
    status and on a body that is not a list, and never exits. *)
Theorem fetch_collections_spec (d : list (string * json)) (token agent uid : json)
    (w : World) :
  Py.dict_get d "token" = Some token ->
  Py.dict_get d "user_agent" = Some agent ->
  Py.dict_get d "user_id" = Some uid ->
  let url := API_BASE ++ "/user/" ++ py_str uid ++ "/collections" in
  let headers := [("Authorization", token); ("User-Agent", agent);
                  ("Accept", JStr "application/json");
                  ("Content-Type", JStr "application/json")] in
  exists o,
    fetch_collections env (JObj d) w = (o, emit (HttpGet url) w)
    /\ (forall c, o = Ok c <->
          exists text, http_get env url headers = Response 200 text (Some c)
                       /\ Py.is_list c = true)
    /\ (forall status text body,
          http_get env url headers = Response status text body ->
          status <> 200 \/ (exists v, body = Some v /\ Py.is_list v = false) ->
          exists msg, o = Err (Exn RuntimeError msg))
    /\ (forall code, o <> SystemExit code).
Proof.
  intros Ht Ha Hu url headers.
  unfold fetch_collections. cbn [Py.getitem]. rewrite Hu, bind_lift_Returns.
  rewrite (base_headers_obj d token agent Ht Ha), bind_lift_Returns.
  fold url. fold headers.
  unfold bind, requests_get, resp_json, raise, ret.
  destruct (http_get env url headers) as [e|status text body] eqn:Hget.
  - eexists. split; [reflexivity|]. split; [|split]; try discriminate.
    intros c. split; [discriminate|]. intros (? & [=] & _).
  - destruct (status =? 200) eqn:Hs; cbn [negb].
    + apply Z.eqb_eq in Hs. subst status.
      destruct body as [v|].
      * destruct (Py.is_list v) eqn:Hl; cbn [negb].
        -- eexists. split; [reflexivity|]. split; [|split]; try discriminate.
           ++ intros c. split.
              ** intros [= <-]. eauto.
              ** intros (? & [= _ <-] & _). reflexivity.
           ++ intros ? ? ? [= <- <- <-] [H|(v' & [= <-] & H)]; congruence.
        -- eexists. split; [reflexivity|]. split; [|split]; try discriminate.
           ++ intros c. split; [discriminate|].
              intros (? & [= _ <-] & H). congruence.
           ++ eauto.
      * eexists. split; [reflexivity|]. split; [|split]; try discriminate.
        -- intros c. split; [discriminate|]. intros (? & [=] & _).
        -- intros ? ? ? [= <- <- <-] [H|(v' & [=] & _)]. congruence.
    + eexists. split; [reflexivity|]. split; [|split]; try discriminate.
      * intros c. split; [discriminate|].
        intros (? & [= -> _ _] & _). discriminate.
      * eauto.
Qed.

(** X6.  [fetch_collection_details] makes one request, for the
    collection; it returns the body, whatever JSON value it is, when
    the status is 200, raises [RuntimeError] on another status, and
    never exits. *)
Theorem fetch_collection_details_spec (d : list (string * json))
    (token agent : json) (collection_id : json) (w : World) :
  Py.dict_get d "token" = Some token ->
  Py.dict_get d "user_agent" = Some agent ->
  let url := API_BASE ++ "/collection/" ++ py_str collection_id in
  let headers := [("Authorization", token); ("User-Agent", agent);
                  ("Accept", JStr "application/json");
                  ("Content-Type", JStr "application/json")] in
  exists o,
    fetch_collection_details env (JObj d) collection_id w = (o, emit (HttpGet url) w)
    /\ (forall coll, o = Ok coll <->
          exists text, http_get env url headers = Response 200 text (Some coll))
    /\ (forall status text body,
          http_get env url headers = Response status text body ->
          status <> 200 -> exists msg, o = Err (Exn RuntimeError msg))
    /\ (forall code, o <> SystemExit code).
Proof.
  intros Ht Ha url headers.
  unfold fetch_collection_details.
  rewrite (base_headers_obj d token agent Ht Ha), bind_lift_Returns.
  fold url. fold headers.
  unfold bind, requests_get, resp_json, raise, ret.
  destruct (http_get env url headers) as [e|status text body] eqn:Hget.
  - eexists. split; [reflexivity|]. split; [|split]; try discriminate.
    intros c. split; [discriminate|]. intros (? & [=]).
  - destruct (status =? 200) eqn:Hs; cbn [negb].
    + apply Z.eqb_eq in Hs. subst status.
      destruct body as [v|].
      * eexists. split; [reflexivity|]. split; [|split]; try discriminate.
        -- intros c. split.
           ++ intros [= <-]. eauto.
           ++ intros (? & [= _ <-]). reflexivity.
        -- intros ? ? ? [= <- <- <-] H. congruence.
      * eexists. split; [reflexivity|]. split; [|split]; try discriminate.
        -- intros c. split; [discriminate|]. intros (? & [=]).
        -- intros ? ? ? [= <- <- <-] H. congruence.
    + eexists. split; [reflexivity|]. split; [|split]; try discriminate.
      * intros c. split; [discriminate|].
        intros (? & [= -> _ _]). discriminate.
      * eauto.
Qed.

(** X7.  Without [--dry-run], [patch_collection_projects] prints the
    payload and makes one request: a PATCH of the collection with the
    whole list under [new_projects].  It returns when the status is
    204, and raises [RuntimeError] on any other status. *)
Theorem patch_collection_projects_spec (d : list (string * json))
    (token agent : json) (collection_id : json) (project_ids : list string)
    (w : World) :
  Py.dict_get d "token" = Some token ->
  Py.dict_get d "user_agent" = Some agent ->
  let url := API_BASE ++ "/collection/" ++ py_str collection_id in
  let headers := [("Authorization", token); ("User-Agent", agent);
                  ("Accept", JStr "application/json");
                  ("Content-Type", JStr "application/json")] in
  let data := json_dumps (JObj [("new_projects", JArr (map JStr project_ids))]) in
  exists o line w',
    patch_collection_projects env (JObj d) collection_id project_ids false w = (o, w')
    /\ patch_calls w' = HttpPatch url data :: patch_calls w
    /\ (exists rest, trace w' = (rest ++ HttpPatch url data :: Print line :: trace w)%list
                     /\ (rest = [] \/ rest = [Print "[ok] Collection updated successfully."]))
    /\ (o = Ok tt <-> exists text body, http_patch env url headers data
                                        = Response 204 text body)
    /\ (forall status text body,
          http_patch env url headers data = Response status text body ->
          status <> 204 -> exists msg, o = Err (Exn RuntimeError msg)).
Proof.
  intros Ht Ha url headers data.
  unfold patch_collection_projects. rewrite bind_print.
  rewrite (base_headers_obj d token agent Ht Ha), bind_lift_Returns.
  fold url. fold headers. fold data.
  unfold bind, requests_patch, raise, print.
  destruct (http_patch env url headers data) as [e|status text body] eqn:Hp.
  - eexists _, _, _. split; [reflexivity|]. split; [reflexivity|].
    split; [exists []; split; [reflexivity|now left]|].
    split; [|discriminate].
    split; [discriminate|]. intros (? & ? & [=]).
  - destruct (status =? 204) eqn:Hs; cbn [negb].
    + apply Z.eqb_eq in Hs. subst status.
      eexists _, _, _. split; [reflexivity|]. split; [reflexivity|].
      split; [eexists; split; [|now right]; reflexivity|].
      split; [split; eauto|].
      intros ? ? ? [= <- _ _] H. congruence.
    + eexists _, _, _. split; [reflexivity|]. split; [reflexivity|].
      split; [exists []; split; [reflexivity|now left]|].
      split; [|eauto].
      split; [discriminate|]. intros (? & ? & [= -> _ _]). discriminate.
Qed.

End Requests.

(** ** The merge *)

Section MergeCount.

(** X8.  The number [main] reports as added is the number of ids of
    the mod list that the collection does not have yet: it is never
    negative, and it is 0 exactly when the collection has them all. *)
Theorem merge_added_count (existing_set to_add_set : gset string) :
  (merge existing_set to_add_set).2 = Z.of_nat (size (to_add_set ∖ existing_set))
  /\ 0 <= (merge existing_set to_add_set).2
  /\ ((merge existing_set to_add_set).2 = 0 <-> to_add_set ⊆ existing_set).
Proof.
  assert (H : (merge existing_set to_add_set).2
              = Z.of_nat (size (to_add_set ∖ existing_set))).
  { unfold merge. cbn [snd]. rewrite sorted_length, size_union_alt. lia. }
  split; [exact H|]. rewrite H. split; [lia|].
  split.
  - intros Hz. assert (Hs : size (to_add_set ∖ existing_set) = 0%nat) by lia.
    apply size_empty_iff in Hs. intros x Hx.
    destruct (decide (x ∈ existing_set)) as [|Hn]; [trivial|].
    exfalso. apply (not_elem_of_empty (C := gset string) x).
    rewrite <- Hs. apply elem_of_difference. auto.
  - intros Hsub. assert (Hs : to_add_set ∖ existing_set ≡ ∅).
    { intros x. rewrite elem_of_difference. split; [|intros []%not_elem_of_empty].
      intros [Hx Hn]. destruct Hn. auto. }
    apply size_empty_iff in Hs. lia.
Qed.

End MergeCount.

Lemma fetch_collections_spec_witness :
  fetch_collections (RT := Sample.runtime) (Demo.env (JArr [])) Demo.cfg
    (mkWorld [] ∅ [])
  = (Ok Demo.collections,
     emit (HttpGet "https://api.modrinth.com/v3/user/U1/collections")
       (mkWorld [] ∅ [])).
Proof.
  destruct (fetch_collections_spec (RT := Sample.runtime) (Demo.env (JArr []))
              [("token", JStr "mrp_x"); ("user_agent", JStr "me/tool");
               ("user_id", JStr "U1")]
              (JStr "mrp_x") (JStr "me/tool") (JStr "U1") (mkWorld [] ∅ [])
              eq_refl eq_refl eq_refl) as (o & Hrun & Hok & _).
  unfold Demo.cfg. rewrite Hrun. f_equal. apply Hok.
  exists "". split; reflexivity.
Defined.

Lemma fetch_collection_details_spec_witness :
  exists msg,
    fetch_collection_details (RT := Sample.runtime) (Demo.env (JArr [])) Demo.cfg
      (JStr "nope") (mkWorld [] ∅ [])
    = (Err (Exn RuntimeError msg),
       emit (HttpGet "https://api.modrinth.com/v3/collection/nope")
         (mkWorld [] ∅ [])).
Proof.
  destruct (fetch_collection_details_spec (RT := Sample.runtime) (Demo.env (JArr []))
              [("token", JStr "mrp_x"); ("user_agent", JStr "me/tool");
               ("user_id", JStr "U1")]
              (JStr "mrp_x") (JStr "me/tool") (JStr "nope") (mkWorld [] ∅ [])
              eq_refl eq_refl) as (o & Hrun & _ & Herr & _).
  destruct (Herr 404 "not found" None eq_refl ltac:(discriminate)) as [msg ->].
  exists msg. exact Hrun.
Defined.

Lemma patch_collection_projects_spec_witness :
  exists line w',
    patch_collection_projects (RT := Sample.runtime) (Demo.env (JArr [])) Demo.cfg
      (JStr "c1") ["a"; "b"] false (mkWorld [] ∅ [])
    = (Ok tt, w')
    /\ trace w'
       = [Print "[ok] Collection updated successfully.";
          HttpPatch "https://api.modrinth.com/v3/collection/c1"
            (json_dumps (PyRuntime := Sample.runtime)
               (JObj [("new_projects", JArr [JStr "a"; JStr "b"])]));
          Print line].
Proof.
  destruct (patch_collection_projects_spec (RT := Sample.runtime) (Demo.env (JArr []))
              [("token", JStr "mrp_x"); ("user_agent", JStr "me/tool");
               ("user_id", JStr "U1")]
              (JStr "mrp_x") (JStr "me/tool") (JStr "c1") ["a"; "b"]
              (mkWorld [] ∅ []) eq_refl eq_refl)
    as (o & line & w' & Hrun & _ & (rest & Ht & Hrest) & Hok & _).
  assert (Ho : o = Ok tt) by (apply Hok; exists "", None; reflexivity).
  subst o. exists line, w'. split; [exact Hrun|].
  destruct Hrest as [->| ->]; [|exact Ht].
  exfalso. revert Hrun Ht. unfold Demo.cfg. vm_compute.
  intros [= <-]. discriminate.
Defined.

(** ** The collection picker *)

Section Picker.
Context {RT : PyRuntime}.

Lemma eq_str_true v s : Py.eq_str v s = true <-> v = JStr s.
Proof.
  destruct v; cbn; try (split; [discriminate|intros [=]]).
  rewrite String.eqb_eq. split; [now intros ->|now intros [= ->]].
Qed.

Lemma find_by_id_Some cols target col :
  find_by_id cols target = Returns (Some col) ->
  col ∈ cols /\ Py.get col "id" = Returns (JStr target).
Proof.
  induction cols as [|c cols IH]; cbn [find_by_id]; [discriminate|].
  destruct (Py.get c "id") as [v|e] eqn:Hv; cbn [result_bind]; [|discriminate].
  destruct (Py.eq_str v target) eqn:He.
  - intros [= <-]. apply eq_str_true in He. subst v.
    split; [apply list_elem_of_here|exact Hv].
  - intros H. destruct (IH H) as [Hin Hid].
    split; [now apply list_elem_of_further|exact Hid].
Qed.

(** Among objects, the search for an id returns, and finds nothing
    only when no collection has the id. *)
Lemma find_by_id_objects cols target :
  Forall (fun col => exists d, col = JObj d) cols ->
  exists r, find_by_id cols target = Returns r
            /\ (r = None <->
                forall col, col ∈ cols -> Py.get col "id" <> Returns (JStr target)).
Proof.
  induction 1 as [|c cols [d ->] Hcols (r & Hr & Hnone)]; cbn [find_by_id].
  - exists None. split; [reflexivity|]. split; [|reflexivity].
    intros _ col Hcol. inversion Hcol.
  - cbn [Py.get Py.get_default result_bind].
    destruct (Py.eq_str _ target) eqn:He.
    + eexists. split; [reflexivity|]. split; [discriminate|].
      intros Hno. exfalso. apply (Hno (JObj d)); [apply list_elem_of_here|].
      cbn [Py.get Py.get_default]. apply eq_str_true in He. now rewrite He.
    + exists r. split; [exact Hr|]. rewrite Hnone. split.
      * intros Hno col [->|Hcol]%elem_of_cons; [|now apply Hno].
        cbn [Py.get Py.get_default]. intros [= Heq].
        apply eq_str_true in Heq. congruence.
      * intros Hno col Hcol. apply Hno. now apply list_elem_of_further.
Qed.

Lemma choose_loop_member cols : forall fuel w cid w',
  choose_loop fuel cols w = (Ok cid, w') ->
  exists col, col ∈ cols /\ Py.get col "id" = Returns cid.
Proof.
  induction fuel as [|fuel IH]; intros w cid w'; cbn [choose_loop]; [discriminate|].
  intros H. apply bind_Ok_inv in H as (line & w1 & _ & H).
  destruct (str_in _ _); [discriminate|].
  apply bind_Ok_inv in H as (found & w2 & Hfound & H).
  apply lift_Ok_inv in Hfound as [Hfound ->].
  destruct found as [col|].
  - apply bind_Ok_inv in H as (name & w2 & _ & H).
    injection H as <- _. apply find_by_id_Some in Hfound. eauto.
  - destruct (py_int _) as [idx|].
    + destruct (_ && _).
      * destruct (cols !! _) as [col|] eqn:Hcol; [|discriminate].
        apply bind_Ok_inv in H as (name & w2 & _ & H).
        apply bind_Ok_inv in H as (id & w3 & Hid & H).
        apply lift_Ok_inv in Hid as [Hid ->].
        injection H as <- _. exists col. split; [|exact Hid].
        eapply list_elem_of_lookup_2; eauto.
      * rewrite bind_print in H. eauto.
    + rewrite bind_print in H. eauto.
Qed.

(** X9.  The id [choose_collection] returns is the id of one of the
    collections it was given, whether it was named on the command line,
    pasted, or chosen by its number. *)
Theorem choose_collection_member (cols : list json) (explicit_id : option string)
    (w : World) (cid : json) (w' : World) :
  choose_collection (JArr cols) explicit_id w = (Ok cid, w') ->
  exists col, col ∈ cols /\ Py.get col "id" = Returns cid.
Proof.
  unfold choose_collection. destruct (pid_truthy explicit_id).
  - cbn [Py.iter]. rewrite bind_lift_Returns. intros H.
    apply bind_Ok_inv in H as (found & w1 & Hfound & H).
    apply lift_Ok_inv in Hfound as [Hfound ->].
    destruct found as [col|]; [|discriminate].
    apply bind_Ok_inv in H as (name & w2 & _ & H).
    injection H as <- _. apply find_by_id_Some in Hfound. eauto.
  - destruct (negb _); [discriminate|].
    rewrite bind_print. cbn [Py.iter]. rewrite bind_lift_Returns. intros H.
    apply bind_Ok_inv in H as ([] & w1 & _ & H).
    now apply choose_loop_member in H.
Qed.

(** X10.  With a collection id on the command line no question is
    asked: among collections that are objects, the id is returned, after
    one line is printed, when a collection has it, and [RuntimeError] is
    raised, with nothing printed, when none has. *)
Theorem choose_collection_explicit (cols : list json) (id : string) (w : World) :
  id <> "" ->
  Forall (fun col => exists d, col = JObj d) cols ->
  ((exists col, col ∈ cols /\ Py.get col "id" = Returns (JStr id)) ->
   exists line,
     choose_collection (JArr cols) (Some id) w = (Ok (JStr id), emit (Print line) w))
  /\ ((forall col, col ∈ cols -> Py.get col "id" <> Returns (JStr id)) ->
      exists msg,
        choose_collection (JArr cols) (Some id) w = (Err (Exn RuntimeError msg), w)).
Proof.
  intros Hid Hobj. unfold choose_collection. cbn [pid_truthy].
  apply String.eqb_neq in Hid. rewrite Hid. cbn [negb Py.iter]. cbv zeta.
  change (default "" (Some id)) with id.
  rewrite bind_lift_Returns.
  destruct (find_by_id_objects cols id Hobj) as (r & Hr & Hnone).
  rewrite Hr, bind_lift_Returns. split.
  - intros (col & Hcol & Hcid). destruct r as [found|].
    + apply find_by_id_Some in Hr as [Hin _].
      rewrite Forall_forall in Hobj. destruct (Hobj _ Hin) as [d ->].
      cbn [Py.get Py.get_default]. rewrite bind_lift_Returns, bind_print.
      eexists. reflexivity.
    + exfalso. apply (proj1 Hnone eq_refl col Hcol Hcid).
  - intros Hno. destruct r as [found|]; [|eexists; reflexivity].
    apply Hnone in Hno. discriminate.
Qed.

Lemma print_collections_objects cols :
  Forall (fun col => exists d, col = JObj d) cols ->
  forall idx w, exists w',
    print_collections idx cols w = (Ok tt, w')
    /\ stdin w' = stdin w /\ fs w' = fs w.
Proof.
  induction 1 as [|c cols [d ->] Hcols IH]; intros idx w; cbn [print_collections].
  - eexists. split; [reflexivity|]. split; reflexivity.
  - cbn [Py.get Py.get_default]. rewrite !bind_lift_Returns, bind_print.
    destruct (truthy _); [rewrite bind_print|unfold bind at 1, ret at 1];
      match goal with
      | |- exists w', print_collections ?i cols ?w0 = _ /\ _ =>
          destruct (IH i w0) as (w' & Hrun & Hin & Hfs)
      end;
      exists w'; (split; [exact Hrun|]); split; assumption.
Qed.

(** X11.  At the picker, a line that is not [q] or [quit], is not the
    id of a collection, and is a number from 1 to the number of
    collections chooses the collection at that place of the list: its
    id is returned, and one line has been read. *)
Theorem choose_collection_by_number (cols : list json) (w : World)
    (line : string) (rest : list string) (k : Z) :
  Forall (fun col => exists d, col = JObj d) cols ->
  stdin w = line :: rest ->
  str_in (str_lower (str_strip line)) ["q"; "quit"] = false ->
  (forall c, c ∈ cols -> Py.get c "id" <> Returns (JStr (str_strip line))) ->
  py_int (str_strip line) = Some k ->
  1 <= k <= Z.of_nat (length cols) ->
  exists col cid w',
    cols !! Z.to_nat (k - 1) = Some col
    /\ Py.get col "id" = Returns cid
    /\ choose_collection (JArr cols) None w = (Ok cid, w')
    /\ stdin w' = rest.
Proof.
  intros Hobj Hin Hq Hno Hint Hk.
  assert (Hlook : exists col, cols !! Z.to_nat (k - 1) = Some col).
  { apply lookup_lt_is_Some. lia. }
  destruct Hlook as [col Hcol].
  assert (Hcolin : col ∈ cols) by (eapply list_elem_of_lookup_2; eauto).
  pose proof Hobj as Hobj'. rewrite Forall_forall in Hobj'.
  destruct (Hobj' _ Hcolin) as [d ->].
  exists (JObj d), (default JNull (Py.dict_get d "id")).
  unfold choose_collection. cbn [pid_truthy].
  assert (Htruthy : truthy (JArr cols) = true).
  { destruct cols; [cbn in Hk; lia|reflexivity]. }
  rewrite Htruthy. cbn [negb]. rewrite bind_print. cbn [Py.iter].
  rewrite bind_lift_Returns.
  destruct (print_collections_objects cols Hobj 1
              (emit (Print (String "010" "Your collections:")) w))
    as (w1 & Hrun & Hin1 & _).
  rewrite (bind_Ok _ _ _ _ _ Hrun).
  cbn [stdin emit] in Hin1. rewrite Hin in Hin1.
  rewrite Hin1. cbn [length choose_loop].
  unfold bind at 1, input at 1. cbn [emit stdin fs trace]. rewrite Hin1.
  rewrite Hq.
  destruct (find_by_id_objects cols (str_strip line) Hobj) as (r & Hr & Hnone).
  apply Hnone in Hno. subst r. rewrite Hr, bind_lift_Returns, Hint.
  assert (Hrange : (1 <=? k) && (k <=? Z.of_nat (length cols)) = true).
  { apply andb_true_iff. split; apply Z.leb_le; lia. }
  rewrite Hrange, Hcol. cbn [Py.get Py.get_default].
  rewrite !bind_lift_Returns, bind_print.
  eexists. split; [reflexivity|]. split; [reflexivity|]. split; reflexivity.
Qed.

End Picker.

Lemma choose_collection_member_witness :
  exists col,
    col ∈ [JObj [("id", JStr "c1"); ("name", JStr "First")]]
    /\ Py.get col "id" = Returns (JStr "c1").
Proof.
  refine (choose_collection_member (RT := Sample.runtime)
            [JObj [("id", JStr "c1"); ("name", JStr "First")]] None
            (mkWorld ["1"] ∅ []) (JStr "c1") _ _).
  vm_compute. reflexivity.
Defined.

Lemma choose_collection_explicit_witness :
  exists line,
    choose_collection (RT := Sample.runtime)
      (JArr [JObj [("id", JStr "c1"); ("name", JStr "First")]]) (Some "c1")
      (mkWorld [] ∅ [])
    = (Ok (JStr "c1"), emit (Print line) (mkWorld [] ∅ [])).
Proof.
  apply (proj1 (choose_collection_explicit (RT := Sample.runtime)
                  [JObj [("id", JStr "c1"); ("name", JStr "First")]] "c1"
                  (mkWorld [] ∅ []) ltac:(discriminate)
                  ltac:(repeat constructor; eexists; reflexivity))).
  eexists. split; [apply list_elem_of_here|reflexivity].
Defined.

Lemma choose_collection_by_number_witness :
  exists col cid w',
    [JObj [("id", JStr "c1"); ("name", JStr "First")];
     JObj [("id", JStr "c2"); ("name", JStr "Second")]] !! Z.to_nat (2 - 1) = Some col
    /\ Py.get col "id" = Returns cid
    /\ choose_collection (RT := Sample.runtime)
         (JArr [JObj [("id", JStr "c1"); ("name", JStr "First")];
                JObj [("id", JStr "c2"); ("name", JStr "Second")]]) None
         (mkWorld [" 2 "; "y"] ∅ [])
       = (Ok cid, w')
    /\ stdin w' = ["y"].
Proof.
  apply (choose_collection_by_number (RT := Sample.runtime)
           [JObj [("id", JStr "c1"); ("name", JStr "First")];
            JObj [("id", JStr "c2"); ("name", JStr "Second")]]
           (mkWorld [" 2 "; "y"] ∅ []) " 2 " ["y"] 2).
  - repeat constructor; eexists; reflexivity.
  - reflexivity.
  - reflexivity.
  - intros c Hc. apply list_elem_of_In in Hc.
    destruct Hc as [<-|[<-|[]]]; discriminate.
  - reflexivity.
  - cbn. lia.
Defined.

(** ** The resolver *)

Section Resolver.
Context {RT : PyRuntime}.

Lemma input_Ok_inv prompt w line w' :
  input prompt w = (Ok line, w') ->
  stdin w = line :: stdin w' /\ fs w' = fs w.
Proof.
  unfold input. cbn [emit stdin fs trace].
  destruct (stdin w) as [|l rest]; [discriminate|].
  intros [= <- <-]. split; reflexivity.
Qed.

Lemma prompt_loop_result : forall fuel w r w',
  prompt_loop fuel w = (Ok r, w') ->
  match r with
  | Some p =>
      exists line, line ∈ stdin w
        /\ extract_modrinth_project_id (str_strip line) = Returns (Some p)
  | None =>
      exists line, line ∈ stdin w
        /\ str_in (str_lower (str_strip line)) ["s"; "skip"] = true
  end.
Proof.
  assert (Hweak : forall (w1 w2 : World) (r : option string) l,
             stdin w1 = l :: stdin w2 ->
             match r with
             | Some p =>
                 exists line, line ∈ stdin w2
                   /\ extract_modrinth_project_id (str_strip line) = Returns (Some p)
             | None =>
                 exists line, line ∈ stdin w2
                   /\ str_in (str_lower (str_strip line)) ["s"; "skip"] = true
             end ->
             match r with
             | Some p =>
                 exists line, line ∈ stdin w1
                   /\ extract_modrinth_project_id (str_strip line) = Returns (Some p)
             | None =>
                 exists line, line ∈ stdin w1
                   /\ str_in (str_lower (str_strip line)) ["s"; "skip"] = true
             end).
  { intros w1 w2 r l Hs. rewrite Hs.
    destruct r; intros (line & Hl & Hp); exists line;
      (split; [now apply list_elem_of_further|exact Hp]). }
  induction fuel as [|fuel IH]; intros w r w'; cbn [prompt_loop]; [discriminate|].
  intros H. apply bind_Ok_inv in H as (line & w1 & Hin & H).
  apply input_Ok_inv in Hin as [Hin _].
  destruct (str_in _ ["q"; "quit"]); [discriminate|].
  destruct (str_in _ ["s"; "skip"]) eqn:Hs.
  { rewrite bind_print in H. injection H as <- _.
    exists line. split; [rewrite Hin; apply list_elem_of_here|exact Hs]. }
  destruct (str_in _ ["u"; "url"]).
  - apply bind_Ok_inv in H as (line2 & w2 & Hin2 & H).
    apply input_Ok_inv in Hin2 as [Hin2 _].
    apply bind_Ok_inv in H as (pid & w3 & Hpid & H).
    apply lift_Ok_inv in Hpid as [Hpid ->].
    destruct pid as [p|].
    + destruct (negb _).
      * rewrite bind_print in H. injection H as <- _.
        exists line2. split; [|exact Hpid].
        rewrite Hin, Hin2. apply list_elem_of_further, list_elem_of_here.
      * rewrite bind_print in H. apply IH in H.
        apply (Hweak w w1 r line Hin). apply (Hweak w1 w2 r line2 Hin2).
        exact H.
    + rewrite bind_print in H. apply IH in H.
      apply (Hweak w w1 r line Hin). apply (Hweak w1 w2 r line2 Hin2).
      exact H.
  - apply IH in H. apply (Hweak w w1 r line Hin). exact H.
Qed.

Lemma prompt_for_modrinth_url_result entry w r w' :
  prompt_for_modrinth_url entry w = (Ok r, w') ->
  match r with
  | Some p =>
      exists line, line ∈ stdin w
        /\ extract_modrinth_project_id (str_strip line) = Returns (Some p)
  | None =>
      exists line, line ∈ stdin w
        /\ str_in (str_lower (str_strip line)) ["s"; "skip"] = true
  end.
Proof.
  unfold prompt_for_modrinth_url. intros H.
  apply bind_Ok_inv in H as (name & w1 & Hn & H).
  apply lift_Ok_inv in Hn as [_ ->].
  apply bind_Ok_inv in H as (old_url & w1 & Ho & H).
  apply lift_Ok_inv in Ho as [_ ->].
  rewrite !bind_print in H.
  apply bind_Ok_inv in H as ([] & w1 & Hp & H).
  assert (Hin : stdin w1 = stdin w).
  { destruct (truthy old_url); injection Hp as <-; reflexivity. }
  apply prompt_loop_result in H. rewrite Hin in H. exact H.
Qed.

(** X12.  What the resolver returns comes from what the operator
    typed: a project id is the one the normaliser finds in a line of the
    input, and is not empty; [None] is returned only after a line [s] or
    [skip]. *)
Theorem prompt_result (entry : json) (w : World) (r : option string) (w' : World) :
  prompt_for_modrinth_url entry w = (Ok r, w') ->
  match r with
  | Some p =>
      p <> ""
      /\ exists line, line ∈ stdin w
           /\ extract_modrinth_project_id (str_strip line) = Returns (Some p)
  | None =>
      exists line, line ∈ stdin w
        /\ str_in (str_lower (str_strip line)) ["s"; "skip"] = true
  end.
Proof.
  intros H. apply prompt_for_modrinth_url_result in H.
  destruct r as [p|]; [|exact H].
  destruct H as (line & Hl & Hp). split; [|eauto].
  now apply extract_Some_plain in Hp.
Qed.

End Resolver.

Lemma prompt_result_witness :
  "abc" <> ""
  /\ exists line, line ∈ ["x"; "u"; "nonsense"; "URL"; " https://modrinth.com/mod/abc "]
       /\ extract_modrinth_project_id (RT := Sample.runtime)
            (str_strip (RT := Sample.runtime) line) = Returns (Some "abc").
Proof.
  refine (prompt_result (RT := Sample.runtime) (Demo.entry "Elsewhere" "https://curseforge.com/x")
            (mkWorld ["x"; "u"; "nonsense"; "URL"; " https://modrinth.com/mod/abc "] ∅ [])
            (Some "abc") _ _).
  vm_compute. reflexivity.
Defined.

(** ** The ids of the mod list: how many, and where from *)

Section CollectCount.
Context {RT : PyRuntime}.

Lemma collect_step_inv ids skipped entry w acc' w' :
  collect_step (ids, skipped) entry w = (Ok acc', w') ->
  (exists p, p <> ""
     /\ acc' = (if bool_decide (p ∉ ids) then (ids ++ [p])%list else ids, skipped)
     /\ (direct_pid entry = Some p
         \/ exists line, line ∈ stdin w
              /\ extract_modrinth_project_id (str_strip line) = Returns (Some p)))
  \/ acc' = (ids, skipped + 1).
Proof.
  unfold collect_step. intros H.
  apply bind_Ok_inv in H as (url & w1 & Hurl & H).
  apply lift_Ok_inv in Hurl as [Hurl ->].
  apply bind_Ok_inv in H as (pid & w1 & Hpid & H).
  assert (Hpid' : w1 = w /\ forall p, pid = Some p -> p <> "" -> direct_pid entry = Some p).
  { destruct (truthy url) eqn:Ht.
    - apply lift_Ok_inv in Hpid as [Hpid ->]. split; [reflexivity|].
      intros p -> Hp. unfold direct_pid. rewrite Hurl, Ht, Hpid.
      apply String.eqb_neq in Hp. now rewrite Hp.
    - injection Hpid as <- <-. split; [reflexivity|]. discriminate. }
  destruct Hpid' as [-> Hdirect]. clear Hpid.
  apply bind_Ok_inv in H as (pid' & w2 & Hpid' & H).
  destruct pid' as [p|]; [|right; now injection H as <- _].
  destruct (negb (String.eqb p "")) eqn:Hp; [|right; now injection H as <- _].
  left. exists p. apply negb_true_iff, String.eqb_neq in Hp.
  split; [exact Hp|]. split.
  - destruct (bool_decide (p ∉ ids)); now injection H as <- _.
  - destruct (negb (pid_truthy pid)) eqn:Htr.
    + right. apply prompt_for_modrinth_url_result in Hpid'. exact Hpid'.
    + left. injection Hpid' as -> _. now apply Hdirect.
Qed.

Lemma collect_step_stdin acc entry w o w' :
  collect_step acc entry w = (o, w') -> exists read, stdin w = (read ++ stdin w')%list.
Proof. intros H. now apply within_collect_step in H as [Hr _]. Qed.

Lemma collect_loop_count modlist : forall ids skipped w ids' skipped' w',
  collect_loop modlist (ids, skipped) w = (Ok (ids', skipped'), w') ->
  skipped <= skipped'
  /\ Z.of_nat (length ids') + skipped'
     <= Z.of_nat (length ids) + skipped + Z.of_nat (length modlist)
  /\ (Forall (fun p => p <> "") ids -> Forall (fun p => p <> "") ids').
Proof.
  induction modlist as [|entry rest IH]; intros ids skipped w ids' skipped' w' H.
  - injection H as <- <- _. cbn. split; [lia|]. split; [lia|trivial].
  - cbn [collect_loop] in H.
    apply bind_Ok_inv in H as ([ids1 skipped1] & w1 & Hstep & H).
    apply IH in H as (H1 & H2 & H3).
    apply collect_step_inv in Hstep as [(p & Hp & Hacc & _)|Hacc];
      injection Hacc as -> ->.
    + split; [lia|]. split.
      * cbn [length]. destruct (bool_decide (p ∉ ids));
          [rewrite length_app in H2; cbn [length] in H2|]; lia.
      * intros Hall. apply H3. destruct (bool_decide (p ∉ ids)); [|exact Hall].
        apply Forall_app. split; [exact Hall|]. now repeat constructor.
    + split; [lia|]. split; [cbn [length]; lia|exact H3].
Qed.

(** X13.  Every entry of the mod list gives at most one id or one
    skip: the number of ids and the number of skipped entries, which is
    not negative, are together at most the number of entries; and no id
    is the empty string. *)
Theorem collect_accounting (modlist : list json) (w : World)
    (ids : list string) (skipped : Z) (w' : World) :
  collect_project_ids_from_modlist modlist w = (Ok (ids, skipped), w') ->
  0 <= skipped
  /\ Z.of_nat (length ids) + skipped <= Z.of_nat (length modlist)
  /\ Forall (fun p => p <> "") ids.
Proof.
  intros H. apply collect_loop_count in H as (H1 & H2 & H3).
  cbn [length] in H2. split; [lia|]. split; [lia|]. apply H3. constructor.
Qed.

Lemma direct_pid_url entry p :
  direct_pid entry = Some p ->
  exists url, Py.get entry "url" = Returns (JStr url)
              /\ extract_modrinth_project_id url = Returns (Some p).
Proof.
  unfold direct_pid.
  destruct (Py.get entry "url") as [v|e]; [|discriminate].
  destruct (truthy v); [|discriminate].
  destruct v as [| | | |s| |]; cbn [extract_from_value]; try discriminate.
  destruct (extract_modrinth_project_id s) as [[q|]|e] eqn:He; try discriminate.
  destruct (negb _); [|discriminate]. intros [= ->]. eauto.
Qed.

Lemma collect_loop_source modlist : forall ids skipped w ids' skipped' w',
  collect_loop modlist (ids, skipped) w = (Ok (ids', skipped'), w') ->
  forall p, p ∈ ids' ->
    p ∈ ids
    \/ (exists entry, entry ∈ modlist /\ direct_pid entry = Some p)
    \/ (exists line, line ∈ stdin w
          /\ extract_modrinth_project_id (str_strip line) = Returns (Some p)).
Proof.
  induction modlist as [|entry rest IH]; intros ids skipped w ids' skipped' w' H p Hp.
  - injection H as <- <- _. now left.
  - cbn [collect_loop] in H.
    apply bind_Ok_inv in H as ([ids1 skipped1] & w1 & Hstep & H).
    destruct (collect_step_stdin _ _ _ _ _ Hstep) as [read Hread].
    destruct (IH _ _ _ _ _ _ H p Hp) as [Hin|[(e & He & Hd)|(line & Hl & Hx)]].
    + apply collect_step_inv in Hstep as [(q & Hq & Hacc & Hsrc)|Hacc];
        injection Hacc as -> ->; [|now left].
      destruct (bool_decide (q ∉ ids)); [|now left].
      apply elem_of_app in Hin as [Hin|Hin]; [now left|].
      apply list_elem_of_singleton in Hin. subst q.
      destruct Hsrc as [Hd|Hline].
      * right. left. exists entry. split; [apply list_elem_of_here|exact Hd].
      * right. right. exact Hline.
    + right. left. exists e. split; [now apply list_elem_of_further|exact Hd].
    + right. right. exists line. split; [|exact Hx].
      rewrite Hread. apply elem_of_app. now right.
Qed.

(** X14.  Every id collected comes from a URL: the [url] of an entry
    of the mod list, or a line the operator typed, in which the
    normaliser finds that id. *)
Theorem collect_provenance (modlist : list json) (w : World)
    (ids : list string) (skipped : Z) (w' : World) (p : string) :
  collect_project_ids_from_modlist modlist w = (Ok (ids, skipped), w') ->
  p ∈ ids ->
  (exists entry url,
      entry ∈ modlist /\ Py.get entry "url" = Returns (JStr url)
      /\ extract_modrinth_project_id url = Returns (Some p))
  \/ (exists line,
        line ∈ stdin w
        /\ extract_modrinth_project_id (str_strip line) = Returns (Some p)).
Proof.
  intros H Hp.
  destruct (collect_loop_source _ _ _ _ _ _ _ H p Hp)
    as [Hin|[(e & He & Hd)|Hline]].
  - inversion Hin.
  - left. apply direct_pid_url in Hd as (url & Hu & Hx). eauto.
  - now right.
Qed.

End CollectCount.

Lemma collect_accounting_witness :
  0 <= 1
  /\ Z.of_nat (length ["P7dR8mSH"; "sodium"]) + 1
     <= Z.of_nat (length [Demo.entry "Fabric API" "https://modrinth.com/mod/P7dR8mSH";
                          Demo.entry "Sodium" "https://modrinth.com/mod/sodium/version/1.0";
                          Demo.entry "Fabric again" "https://www.modrinth.com/mod/P7dR8mSH";
                          Demo.entry "Elsewhere" "https://curseforge.com/mod/x"])
  /\ Forall (fun p => p <> "") ["P7dR8mSH"; "sodium"].
Proof.
  refine (collect_accounting (RT := Sample.runtime)
            [Demo.entry "Fabric API" "https://modrinth.com/mod/P7dR8mSH";
             Demo.entry "Sodium" "https://modrinth.com/mod/sodium/version/1.0";
             Demo.entry "Fabric again" "https://www.modrinth.com/mod/P7dR8mSH";
             Demo.entry "Elsewhere" "https://curseforge.com/mod/x"]
            (mkWorld ["s"] ∅ []) ["P7dR8mSH"; "sodium"] 1 _ _).
  vm_compute. reflexivity.
Defined.

Lemma collect_provenance_witness :
  (exists entry url,
      entry ∈ [Demo.entry "Fabric API" "https://modrinth.com/mod/P7dR8mSH";
               Demo.entry "Elsewhere" "https://curseforge.com/mod/x"]
      /\ Py.get entry "url" = Returns (JStr url)
      /\ extract_modrinth_project_id (RT := Sample.runtime) url = Returns (Some "sodium"))
  \/ (exists line,
        line ∈ ["u"; "https://modrinth.com/mod/sodium"]
        /\ extract_modrinth_project_id (RT := Sample.runtime)
             (str_strip (RT := Sample.runtime) line) = Returns (Some "sodium")).
Proof.
  refine (collect_provenance (RT := Sample.runtime)
            [Demo.entry "Fabric API" "https://modrinth.com/mod/P7dR8mSH";
             Demo.entry "Elsewhere" "https://curseforge.com/mod/x"]
            (mkWorld ["u"; "https://modrinth.com/mod/sodium"] ∅ [])
            ["P7dR8mSH"; "sodium"] 0 _ "sodium" _ _).
  - vm_compute. reflexivity.
  - apply list_elem_of_further, list_elem_of_here.
Defined.

(** ** A whole run *)

Section Runs.
Context {RT : PyRuntime} (env : Env).

(** X15.  What a run of [main] does to the server and the disk is, in
    this order and each at most once: the request for the collections,
    the write of the state file, the request for the details of the
    collection, the update. *)
Theorem main_effects_in_order (args : Args) (w : World) :
  exists new,
    trace (main env args w).2 = (new ++ trace w)%list
    /\ effects new `sublist_of` [EGet; ESave; EGet; EPatch].
Proof.
  destruct (main env args w) as [o w'] eqn:H.
  now apply within_main in H as (_ & _ & Hnew).
Qed.


(** *** A run that reaches the update *)

Lemma try_except_class_Ok_inv cls (body : M json) line w a w' :
  try_except_class cls body (fun e => print_err (line e) ;; sys_exit 1) w = (Ok a, w') ->
  body w = (Ok a, w').
Proof.
  unfold try_except_class, try_except.
  destruct (body w) as [[x|c|e] w1]; [trivial|discriminate|].
  destruct (cls _); discriminate.
Qed.

Lemma try_except_exit_Ok_inv {A} (body : M A) line w a w' :
  try_except body (fun e => print_err (line e) ;; sys_exit 1) w = (Ok a, w') ->
  body w = (Ok a, w').
Proof.
  unfold try_except.
  destruct (body w) as [[x|c|e] w1]; [trivial|discriminate|discriminate].
Qed.

Lemma load_modlist_Ok_inv path w l w' :
  load_modlist path w = (Ok l, w') ->
  w' = w /\ fs w !! path = Some (Content (JArr l)).
Proof.
  unfold load_modlist, bind, is_file, json_load, raise, ret. cbv beta.
  destruct (fs w !! path) as [[|v]|] eqn:Hfs; cbn; rewrite ?Hfs; cbn;
    try discriminate.
  destruct v; try discriminate. intros [= <- <-]. auto.
Qed.

Lemma main_prepare_Ok_inv args w cfg cid final w' :
  main_prepare env args w = (Ok (cfg, cid, final), w') ->
  exists collections w2 w3 modlist w4 ids skipped w5 w6 coll w7 existing w8 w9 w10,
    load_config (arg_config args) w = (Ok cfg, w)
    /\ try_except (sync_collections_to_state env cfg) collections_from_state w
       = (Ok collections, w2)
    /\ choose_collection collections (arg_collection_id args) w2 = (Ok cid, w3)
    /\ load_modlist (arg_modlist args) w3 = (Ok modlist, w3)
    /\ run_frame [] w3 w4
    /\ collect_project_ids_from_modlist modlist w4 = (Ok (ids, skipped), w5)
    /\ run_frame [] w5 w6
    /\ fetch_collection_details env cfg cid w6 = (Ok coll, w7)
    /\ existing_projects_of coll w7 = (Ok existing, w8)
    /\ final = sorted (existing_set_of existing ∪ list_to_set ids)
    /\ run_frame [] w8 w9
    /\ confirm_update w9 = (Ok tt, w10)
    /\ run_frame [] w10 w'.
Proof.
  unfold main_prepare. intros H.
  apply bind_Ok_inv in H as (cfg0 & w1 & Hcfg & H).
  apply try_except_class_Ok_inv in Hcfg.
  pose proof (proj1 (load_config_Ok_iff _ _ _ _) Hcfg) as [-> _].
  apply bind_Ok_inv in H as (collections & w2 & Hsync & H).
  apply bind_Ok_inv in H as (cid0 & w3 & Hchoose & H).
  apply bind_Ok_inv in H as (modlist & w3' & Hmod & H).
  apply try_except_exit_Ok_inv in Hmod.
  pose proof (load_modlist_Ok_inv _ _ _ _ Hmod) as [-> _].
  apply bind_Ok_inv in H as ([] & w4 & Hp1 & H).
  apply within_print in Hp1.
  apply bind_Ok_inv in H as ([ids skipped] & w5 & Hcollect & H).
  apply bind_Ok_inv in H as ([] & w5a & Hp2 & H).
  apply within_print in Hp2.
  apply bind_Ok_inv in H as ([] & w6 & Hp3 & H).
  assert (Hf3 : run_frame [] w5a w6).
  { revert Hp3. destruct (negb _); [apply within_print|apply within_ret]. }
  apply bind_Ok_inv in H as (coll & w7 & Hfetch & H).
  apply bind_Ok_inv in H as (existing & w8 & Hexisting & H).
  unfold merge in H. cbv zeta beta iota in H.
  apply bind_Ok_inv in H as ([] & w8a & Hp4 & H).
  apply within_print in Hp4.
  apply bind_Ok_inv in H as ([] & w9 & Hp5 & H).
  apply within_print in Hp5.
  apply bind_Ok_inv in H as ([] & w10 & Hconfirm & H).
  apply bind_Ok_inv in H as ([] & w11 & Hp6 & H).
  apply within_print in Hp6.
  injection H as <- <- <- <-.
  exists collections, w2, w3, modlist, w4, ids, skipped, w5, w6, coll, w7,
    existing, w8, w9, w10.
  repeat (split; [first [eassumption|reflexivity]|]).
  split; [apply (run_frame_trans [] [] _ _ _ Hp2 Hf3)|].
  repeat (split; [first [eassumption|reflexivity]|]).
  split; [apply (run_frame_trans [] [] _ _ _ Hp4 Hp5)|].
  split; assumption.
Qed.

Lemma confirm_update_Ok_inv w w' :
  confirm_update w = (Ok tt, w') ->
  exists line, stdin w = line :: stdin w'
               /\ str_in (str_lower (str_strip line)) ["y"; "yes"] = true.
Proof.
  unfold confirm_update. intros H.
  apply bind_Ok_inv in H as (line & w1 & Hin & H).
  apply input_Ok_inv in Hin as [Hin _].
  destruct (str_in _ _) eqn:Hy; cbn [negb] in H; [|discriminate].
  injection H as <-. eauto.
Qed.

(** The line that confirms is a line of the input of the run. *)
Lemma main_prepare_confirmed args w r w' :
  main_prepare env args w = (Ok r, w') ->
  exists line, line ∈ stdin w
               /\ str_in (str_lower (str_strip line)) ["y"; "yes"] = true.
Proof.
  destruct r as [[cfg cid] final]. intros H.
  apply main_prepare_Ok_inv in H
    as (collections & w2 & w3 & modlist & w4 & ids & skipped & w5 & w6 & coll & w7
        & existing & w8 & w9 & w10 & _ & Hsync & Hchoose & _ & H34 & Hcollect & H56
        & Hfetch & Hexisting & _ & H89 & Hconfirm & _).
  apply confirm_update_Ok_inv in Hconfirm as (line & Hin & Hy).
  exists line. split; [|exact Hy].
  apply (within_try_except [EGet; ESave] []) in Hsync as [[r2 Hr2] _];
    [|apply within_sync_collections_to_state|apply within_collections_from_state].
  apply within_choose_collection in Hchoose as [[r3 Hr3] _].
  destruct H34 as [[r4 Hr4] _].
  pose proof (within_collect_loop modlist ([], 0) w4 _ w5 Hcollect) as [[r5 Hr5] _].
  destruct H56 as [[r6 Hr6] _].
  apply within_fetch_collection_details in Hfetch as [[r7 Hr7] _].
  apply within_existing_projects_of in Hexisting as [[r8 Hr8] _].
  destruct H89 as [[r9 Hr9] _].
  rewrite Hr2, Hr3, Hr4, Hr5, Hr6, Hr7, Hr8, Hr9, Hin.
  rewrite !elem_of_app, elem_of_cons. tauto.
Qed.

(** X17.  An update is sent only after a [y] or [yes]: a run that
    calls [requests.patch] was started without [--dry-run], and among
    the lines of its input is one that, stripped and in lower case, is
    [y] or [yes]. *)
Theorem patch_needs_confirmation (args : Args) (w : World) :
  patch_calls (main env args w).2 <> patch_calls w ->
  arg_dry_run args = false
  /\ exists line, line ∈ stdin w
       /\ str_in (str_lower (str_strip line)) ["y"; "yes"] = true.
Proof.
  intros Hp.
  pose proof (safe_main_prepare env args w) as [Hprep _].
  destruct (main_prepare env args w) as [[r|c|e] w1] eqn:Hrun;
    cbn [snd] in Hprep.
  - split.
    + destruct (arg_dry_run args) eqn:Hdry; [|reflexivity].
      exfalso. apply Hp. unfold main, bind. rewrite Hrun.
      destruct r as [[cfg cid] final]. rewrite Hdry.
      pose proof (safe_patch_dry_run env exit_rule cfg cid final w1) as [Hq _].
      congruence.
    + eapply main_prepare_confirmed; eauto.
  - exfalso. apply Hp. unfold main, bind. now rewrite Hrun.
  - exfalso. apply Hp. unfold main, bind. now rewrite Hrun.
Qed.

Lemma fetch_collection_details_Ok_inv cfg cid w coll w' :
  fetch_collection_details env cfg cid w = (Ok coll, w') ->
  exists headers text,
    base_headers cfg = Returns headers
    /\ http_get env (API_BASE ++ "/collection/" ++ py_str cid) headers
       = Response 200 text (Some coll).
Proof.
  unfold fetch_collection_details. intros H.
  apply bind_Ok_inv in H as (headers & w1 & Hh & H).
  apply lift_Ok_inv in Hh as [Hh ->].
  apply bind_Ok_inv in H as ([[status text] body] & w1 & Hget & H).
  unfold requests_get in Hget.
  destruct (http_get env _ _) as [e|st tx bd] eqn:Hg; [discriminate|].
  injection Hget as -> -> -> <-.
  destruct (status =? 200) eqn:Hs; cbn [negb] in H; [|discriminate].
  apply Z.eqb_eq in Hs. subst status.
  destruct body as [v|]; [|discriminate]. injection H as <- _.
  eauto.
Qed.

Lemma existing_projects_of_list coll w existing w' l p :
  existing_projects_of coll w = (Ok existing, w') ->
  Py.get coll "projects" = Returns (JArr l) ->
  p ∈ l -> py_str p ∈ existing_set_of existing.
Proof.
  unfold existing_projects_of. intros H Hl Hp. rewrite Hl, bind_lift_Returns in H.
  destruct l as [|x l]; [inversion Hp|].
  cbn in H. injection H as <- _. cbn [existing_set_of].
  apply elem_of_list_to_set, list_elem_of_fmap. eauto.
Qed.

Lemma patch_run cfg cid ids w headers :
  base_headers cfg = Returns headers ->
  exists line,
    patch_collection_projects env cfg cid ids false w
    = match http_patch env (API_BASE ++ "/collection/" ++ py_str cid) headers
              (json_dumps (JObj [("new_projects", JArr (map JStr ids))])) with
      | NetworkError e =>
          (Err e,
           emit (HttpPatch (API_BASE ++ "/collection/" ++ py_str cid)
                   (json_dumps (JObj [("new_projects", JArr (map JStr ids))])))
             (emit (Print line) w))
      | Response status text body =>
          if status =? 204 then
            (Ok tt,
             emit (Print "[ok] Collection updated successfully.")
               (emit (HttpPatch (API_BASE ++ "/collection/" ++ py_str cid)
                       (json_dumps (JObj [("new_projects", JArr (map JStr ids))])))
                  (emit (Print line) w)))
          else
            (Err (Exn RuntimeError
                    ("Collection update failed: " ++ pretty status ++ " " ++ text)),
             emit (HttpPatch (API_BASE ++ "/collection/" ++ py_str cid)
                     (json_dumps (JObj [("new_projects", JArr (map JStr ids))])))
               (emit (Print line) w))
      end.
Proof.
  intros Hh. eexists. unfold patch_collection_projects.
  rewrite bind_print, Hh, bind_lift_Returns.
  unfold bind, requests_patch, raise, print.
  destruct (http_patch env _ _ _) as [e|status text body]; [reflexivity|].
  destruct (status =? 204); reflexivity.
Qed.

(** X18.  A run makes at most one update, and the update never removes
    a project: the payload is a list in the order of Python on strings,
    without duplicates, that has every project of the collection as the
    request for its details returned it. *)
Theorem main_update_keeps_members (args : Args) (w : World) :
  patch_calls (main env args w).2 = patch_calls w
  \/ exists cfg cid final headers text coll,
       base_headers cfg = Returns headers
       /\ http_get env (API_BASE ++ "/collection/" ++ py_str cid) headers
          = Response 200 text (Some coll)
       /\ patch_calls (main env args w).2
          = HttpPatch (API_BASE ++ "/collection/" ++ py_str cid)
              (json_dumps (JObj [("new_projects", JArr (map JStr final))]))
            :: patch_calls w
       /\ StronglySorted lex_le final /\ NoDup final
       /\ forall l p, Py.get coll "projects" = Returns (JArr l) ->
                      p ∈ l -> py_str p ∈ final.
Proof.
  pose proof (safe_main_prepare env args w) as [Hprep _].
  destruct (main_prepare env args w) as [[r|c|e] w1] eqn:Hrun;
    cbn [snd] in Hprep;
    [|left; unfold main, bind; now rewrite Hrun..].
  destruct r as [[cfg cid] final].
  destruct (arg_dry_run args) eqn:Hdry.
  { left. unfold main, bind. rewrite Hrun, Hdry.
    pose proof (safe_patch_dry_run env exit_rule cfg cid final w1) as [Hq _].
    congruence. }
  right.
  pose proof Hrun as Hinv.
  apply main_prepare_Ok_inv in Hinv
    as (collections & w2 & w3 & modlist & w4 & ids & skipped & w5 & w6 & coll & w7
        & existing & w8 & w9 & w10 & _ & _ & _ & _ & _ & _ & _
        & Hfetch & Hexisting & Hfinal & _).
  destruct (fetch_collection_details_Ok_inv _ _ _ _ _ Hfetch)
    as (headers & text & Hh & Hget).
  exists cfg, cid, final, headers, text, coll.
  split; [exact Hh|]. split; [exact Hget|]. split; [|split; [|split]].
  - unfold main, bind. rewrite Hrun, Hdry.
    destruct (patch_run cfg cid final w1 headers Hh) as [line ->].
    destruct (http_patch env _ _ _) as [e|status tx body];
      [|destruct (status =? 204)]; cbn; unfold patch_calls in *; cbn;
      now rewrite Hprep.
  - subst final. apply sorted_StronglySorted.
  - subst final. apply sorted_NoDup.
  - intros l p Hl Hp. subst final. apply sorted_elem_of, elem_of_union. left.
    eapply existing_projects_of_list; eauto.
Qed.


End Runs.


Lemma patch_needs_confirmation_witness :
  arg_dry_run (Demo.args false) = false
  /\ exists line, line ∈ ["1"; "s"; "y"]
       /\ str_in (str_lower (RT := Sample.runtime) (str_strip (RT := Sample.runtime) line))
            ["y"; "yes"] = true.
Proof.
  apply (patch_needs_confirmation (RT := Sample.runtime) (Demo.env (JArr []))
           (Demo.args false) (Demo.world ["1"; "s"; "y"] Demo.modlist)).
  vm_compute. discriminate.
Defined.


(** ** A run that updates the collection *)

Section HappyPath.
Context {RT : PyRuntime} (env : Env).

Lemma fetch_collections_200 d token agent uid text c w :
  Py.dict_get d "token" = Some token ->
  Py.dict_get d "user_agent" = Some agent ->
  Py.dict_get d "user_id" = Some uid ->
  http_get env (API_BASE ++ "/user/" ++ py_str uid ++ "/collections")
    [("Authorization", token); ("User-Agent", agent);
     ("Accept", JStr "application/json"); ("Content-Type", JStr "application/json")]
  = Response 200 text (Some c) ->
  Py.is_list c = true ->
  fetch_collections env (JObj d) w
  = (Ok c, emit (HttpGet (API_BASE ++ "/user/" ++ py_str uid ++ "/collections")) w).
Proof.
  intros Ht Ha Hu Hget Hl. unfold fetch_collections. cbn [Py.getitem].
  rewrite Hu, bind_lift_Returns, (base_headers_obj d token agent Ht Ha),
    bind_lift_Returns.
  unfold bind at 1, requests_get at 1. rewrite Hget. cbn [Z.eqb Pos.eqb negb].
  unfold bind, resp_json, ret. now rewrite Hl.
Qed.

Lemma sync_run d token agent uid text cols st w :
  Py.dict_get d "token" = Some token ->
  Py.dict_get d "user_agent" = Some agent ->
  Py.dict_get d "user_id" = Some uid ->
  http_get env (API_BASE ++ "/user/" ++ py_str uid ++ "/collections")
    [("Authorization", token); ("User-Agent", agent);
     ("Accept", JStr "application/json"); ("Content-Type", JStr "application/json")]
  = Response 200 text (Some (JArr cols)) ->
  load_state w = (Ok (JObj st), w) ->
  (forall state, dump_error env state = None) ->
  exists line,
    sync_collections_to_state env (JObj d) w
    = (Ok (JArr cols),
       emit (Print line)
         (emit (WriteState (JObj (synced_state env st uid (JArr cols))))
            (mkWorld (stdin w)
               (<[STATE_PATH := Content (JObj (synced_state env st uid (JArr cols)))]>
                  (delete STATE_TMP (fs w)))
               (HttpGet (API_BASE ++ "/user/" ++ py_str uid ++ "/collections")
                  :: trace w)))).
Proof.
  intros Ht Ha Hu Hget Hload Hdump. eexists.
  unfold sync_collections_to_state.
  rewrite (bind_Ok _ _ _ _ _
             (fetch_collections_200 d token agent uid text (JArr cols) w
                Ht Ha Hu Hget eq_refl)).
  assert (Hload' : load_state (emit (HttpGet (API_BASE ++ "/user/" ++ py_str uid
                                              ++ "/collections")) w)
                   = (Ok (JObj st),
                      emit (HttpGet (API_BASE ++ "/user/" ++ py_str uid
                                     ++ "/collections")) w)).
  { revert Hload. unfold load_state. cbn [fs emit].
    destruct (fs w !! STATE_PATH) as [[|v]|]; intros [= <-]; reflexivity. }
  rewrite (bind_Ok _ _ _ _ _ Hload'). cbn [Py.getitem]. rewrite Hu.
  repeat (rewrite bind_lift_Returns; cbn [Py.setitem]).
  erewrite bind_Ok; [|unfold save_state; rewrite Hdump; reflexivity].
  cbn [len]. rewrite !bind_lift_Returns, bind_print. reflexivity.
Qed.

Lemma choose_explicit_found cols id :
  id <> "" ->
  Forall (fun col => exists d, col = JObj d) cols ->
  (exists col, col ∈ cols /\ Py.get col "id" = Returns (JStr id)) ->
  exists line, forall w,
    choose_collection (JArr cols) (Some id) w = (Ok (JStr id), emit (Print line) w).
Proof.
  intros Hid Hobj (col & Hcol & Hcid).
  destruct (find_by_id_objects cols id Hobj) as (r & Hr & Hnone).
  destruct r as [found|]; [|exfalso; apply (proj1 Hnone eq_refl col Hcol Hcid)].
  pose proof (find_by_id_Some _ _ _ Hr) as [Hin _].
  rewrite Forall_forall in Hobj. destruct (Hobj _ Hin) as [d ->].
  eexists. intros w. unfold choose_collection. cbn [pid_truthy].
  apply String.eqb_neq in Hid. rewrite Hid. cbn [negb Py.iter]. cbv zeta.
  change (default "" (Some id)) with id.
  rewrite bind_lift_Returns, Hr, bind_lift_Returns.
  cbn [Py.get Py.get_default]. rewrite bind_lift_Returns, bind_print.
  reflexivity.
Qed.

Lemma load_modlist_run path l w :
  fs w !! path = Some (Content (JArr l)) -> load_modlist path w = (Ok l, w).
Proof.
  intros Hfs. unfold load_modlist, bind, is_file, json_load, ret. cbv beta.
  rewrite Hfs. cbn. now rewrite Hfs.
Qed.

Lemma fetch_collection_details_200 d token agent cid text coll w :
  Py.dict_get d "token" = Some token ->
  Py.dict_get d "user_agent" = Some agent ->
  http_get env (API_BASE ++ "/collection/" ++ py_str cid)
    [("Authorization", token); ("User-Agent", agent);
     ("Accept", JStr "application/json"); ("Content-Type", JStr "application/json")]
  = Response 200 text (Some coll) ->
  fetch_collection_details env (JObj d) cid w
  = (Ok coll, emit (HttpGet (API_BASE ++ "/collection/" ++ py_str cid)) w).
Proof.
  intros Ht Ha Hget. unfold fetch_collection_details.
  rewrite (base_headers_obj d token agent Ht Ha), bind_lift_Returns.
  unfold bind at 1, requests_get at 1. rewrite Hget. reflexivity.
Qed.

Lemma existing_projects_of_run fields projects w :
  Py.dict_get fields "projects" = Some (JArr projects) ->
  exists existing,
    existing_projects_of (JObj fields) w = (Ok existing, w)
    /\ existing_set_of existing = list_to_set (map py_str projects).
Proof.
  intros Hp. unfold existing_projects_of. cbn [Py.get Py.get_default].
  rewrite Hp, bind_lift_Returns. destruct projects as [|p ps].
  - exists (JArr []). split; reflexivity.
  - exists (JArr (p :: ps)). split; reflexivity.
Qed.

Lemma confirm_update_yes w line rest :
  stdin w = line :: rest ->
  str_in (str_lower (str_strip line)) ["y"; "yes"] = true ->
  confirm_update w
  = (Ok tt, mkWorld rest (fs w)
              (Prompt "Proceed with updating the collection? [y/N] > " :: trace w)).
Proof.
  intros Hin Hy. unfold confirm_update, bind at 1, input. cbn [emit stdin fs trace].
  rewrite Hin, Hy. reflexivity.
Qed.

Lemma list_to_set_same (l k : list string) :
  (forall x, x ∈ l <-> x ∈ k) -> list_to_set l = (list_to_set k : gset string).
Proof.
  intros H. apply set_eq. intros x. now rewrite !elem_of_list_to_set.
Qed.

(** A run that comes to the update, in a world where everything is in
    order *)
Lemma main_prepare_run (args : Args) (w : World)
    (d st fields : list (string * json)) (token agent uid : json)
    (id line : string) (rest : list string) (cols modlist projects : list json)
    (pids : list string) (text1 text2 : string) :
  arg_collection_id args = Some id -> id <> "" ->
  arg_modlist args <> STATE_PATH -> arg_modlist args <> STATE_TMP ->
  fs w !! arg_config args = Some (Content (JObj d)) ->
  Py.dict_get d "token" = Some token -> truthy token = true ->
  Py.dict_get d "user_agent" = Some agent -> truthy agent = true ->
  Py.dict_get d "user_id" = Some uid -> truthy uid = true ->
  load_state w = (Ok (JObj st), w) ->
  (forall state, dump_error env state = None) ->
  http_get env (API_BASE ++ "/user/" ++ py_str uid ++ "/collections")
    [("Authorization", token); ("User-Agent", agent);
     ("Accept", JStr "application/json"); ("Content-Type", JStr "application/json")]
  = Response 200 text1 (Some (JArr cols)) ->
  Forall (fun col => exists f, col = JObj f) cols ->
  (exists col, col ∈ cols /\ Py.get col "id" = Returns (JStr id)) ->
  fs w !! arg_modlist args = Some (Content (JArr modlist)) ->
  Forall2 (fun entry p => direct_pid entry = Some p) modlist pids ->
  http_get env (API_BASE ++ "/collection/" ++ id)
    [("Authorization", token); ("User-Agent", agent);
     ("Accept", JStr "application/json"); ("Content-Type", JStr "application/json")]
  = Response 200 text2 (Some (JObj fields)) ->
  Py.dict_get fields "projects" = Some (JArr projects) ->
  stdin w = line :: rest ->
  str_in (str_lower (str_strip line)) ["y"; "yes"] = true ->
  exists w1,
    main_prepare env args w
    = (Ok (JObj d, JStr id,
           sorted (list_to_set (map py_str projects) ∪ list_to_set pids)), w1)
    /\ patch_calls w1 = patch_calls w
    /\ stdin w1 = rest
    /\ fs w1 !! STATE_PATH
       = Some (Content (JObj (synced_state env st uid (JArr cols)))).
Proof.
  intros Hid Hne Hm1 Hm2 Hcfg Ht Htt Ha Hat Hu Hut Hload Hdump Hget1 Hobj Hcol
    Hmod Hdirect Hget2 Hproj Hin Hy.
  assert (Hconfig : load_config (arg_config args) w = (Ok (JObj d), w)).
  { apply load_config_Ok_iff. split; [reflexivity|]. split; [exact Hcfg|].
    exists d. split; [reflexivity|]. intros k Hk.
    apply list_elem_of_In in Hk. destruct Hk as [<-|[<-|[<-|[]]]]; eauto. }
  destruct (sync_run d token agent uid text1 cols st w Ht Ha Hu Hget1 Hload Hdump)
    as [line1 Hsync].
  match type of Hsync with _ = (_, ?W) => set (w2 := W) in * end.
  destruct (choose_explicit_found cols id Hne Hobj Hcol) as [line2 Hchoose].
  specialize (Hchoose w2). set (w3 := emit (Print line2) w2) in *.
  assert (Hmod3 : load_modlist (arg_modlist args) w3 = (Ok modlist, w3)).
  { apply load_modlist_run. subst w3 w2. cbn [fs emit].
    rewrite lookup_insert_ne by congruence.
    rewrite lookup_delete_ne by congruence. exact Hmod. }
  set (w4 := emit (Print ("[info] Loaded " ++ pretty (length modlist) ++ " entries from "
                          ++ arg_modlist args)) w3).
  destruct (collect_loop_direct modlist pids [] 0 w4 Hdirect (NoDup_nil_2))
    as (ids & Hcollect & _ & Hids).
  assert (Hset : list_to_set ids = (list_to_set pids : gset string)).
  { apply list_to_set_same. intros x. rewrite Hids, elem_of_nil. tauto. }
  set (w5 := emit (Print ("[info] Collected " ++ pretty (length ids)
                          ++ " unique Modrinth project(s) from modlist.")) w4).
  pose proof (fetch_collection_details_200 d token agent (JStr id) text2 (JObj fields)
                w5 Ht Ha Hget2) as Hfetch.
  set (w6 := emit (HttpGet (API_BASE ++ "/collection/" ++ py_str (JStr id))) w5) in *.
  destruct (existing_projects_of_run fields projects w6 Hproj)
    as (existing & Hexisting & Hexset).
  eexists. split.
  - unfold main_prepare.
    erewrite bind_Ok;
      [|unfold try_except_class, try_except; rewrite Hconfig; reflexivity].
    erewrite bind_Ok; [|unfold try_except; rewrite Hsync; reflexivity].
    rewrite Hid, (bind_Ok _ _ _ _ _ Hchoose).
    erewrite bind_Ok; [|unfold try_except; rewrite Hmod3; reflexivity].
    rewrite bind_print. fold w4.
    unfold collect_project_ids_from_modlist.
    rewrite (bind_Ok _ _ _ _ _ Hcollect). cbv beta iota.
    rewrite bind_print. fold w5. cbn [Z.eqb negb].
    unfold bind at 1, ret at 1.
    rewrite (bind_Ok _ _ _ _ _ Hfetch), (bind_Ok _ _ _ _ _ Hexisting).
    rewrite Hexset, Hset. unfold merge. cbv zeta beta iota.
    rewrite !bind_print.
    erewrite bind_Ok; [|apply (confirm_update_yes _ line rest); [exact Hin|exact Hy]].
    rewrite bind_print. reflexivity.
  - split; [reflexivity|]. split; [reflexivity|].
    cbn [fs emit]. apply lookup_insert_eq.
Qed.

(** X20.  A run in which everything is in order updates the
    collection.  With a configuration that has the three fields, a
    server that returns the collections and the details of the
    collection named with [--collection-id], a state file that can be
    written, a mod list in which the URL of every entry gives an id, and
    [y] or [yes] as the first line of input, [main] returns; it has made
    one call of [requests.patch], whose payload is the sorted union of
    the projects of the collection and the ids of the mod list; the
    state file holds the snapshot; and one line was read. *)
Theorem main_updates_collection (args : Args) (w : World)
    (d st fields : list (string * json)) (token agent uid : json)
    (id line : string) (rest : list string) (cols modlist projects : list json)
    (pids : list string) (text1 text2 text3 : string) (body3 : option json) :
  arg_dry_run args = false ->
  arg_collection_id args = Some id -> id <> "" ->
  arg_modlist args <> STATE_PATH -> arg_modlist args <> STATE_TMP ->
  fs w !! arg_config args = Some (Content (JObj d)) ->
  Py.dict_get d "token" = Some token -> truthy token = true ->
  Py.dict_get d "user_agent" = Some agent -> truthy agent = true ->
  Py.dict_get d "user_id" = Some uid -> truthy uid = true ->
  load_state w = (Ok (JObj st), w) ->
  (forall state, dump_error env state = None) ->
  http_get env (API_BASE ++ "/user/" ++ py_str uid ++ "/collections")
    [("Authorization", token); ("User-Agent", agent);
     ("Accept", JStr "application/json"); ("Content-Type", JStr "application/json")]
  = Response 200 text1 (Some (JArr cols)) ->
  Forall (fun col => exists f, col = JObj f) cols ->
  (exists col, col ∈ cols /\ Py.get col "id" = Returns (JStr id)) ->
  fs w !! arg_modlist args = Some (Content (JArr modlist)) ->
  Forall2 (fun entry p => direct_pid entry = Some p) modlist pids ->
  http_get env (API_BASE ++ "/collection/" ++ id)
    [("Authorization", token); ("User-Agent", agent);
     ("Accept", JStr "application/json"); ("Content-Type", JStr "application/json")]
  = Response 200 text2 (Some (JObj fields)) ->
  Py.dict_get fields "projects" = Some (JArr projects) ->
  stdin w = line :: rest ->
  str_in (str_lower (str_strip line)) ["y"; "yes"] = true ->
  http_patch env (API_BASE ++ "/collection/" ++ id)
    [("Authorization", token); ("User-Agent", agent);
     ("Accept", JStr "application/json"); ("Content-Type", JStr "application/json")]
    (json_dumps
       (JObj [("new_projects",
               JArr (map JStr (sorted (list_to_set (map py_str projects)
                                       ∪ list_to_set pids))))]))
  = Response 204 text3 body3 ->
  exists w',
    main env args w = (Ok tt, w')
    /\ patch_calls w'
       = HttpPatch (API_BASE ++ "/collection/" ++ id)
           (json_dumps
              (JObj [("new_projects",
                      JArr (map JStr (sorted (list_to_set (map py_str projects)
                                              ∪ list_to_set pids))))]))
         :: patch_calls w
    /\ stdin w' = rest
    /\ fs w' !! STATE_PATH
       = Some (Content (JObj (synced_state env st uid (JArr cols)))).
Proof.
  intros Hdry Hid Hne Hm1 Hm2 Hcfg Ht Htt Ha Hat Hu Hut Hload Hdump Hget1 Hobj Hcol
    Hmod Hdirect Hget2 Hproj Hin Hy Hpatch.
  destruct (main_prepare_run args w d st fields token agent uid id line rest cols
              modlist projects pids text1 text2
              Hid Hne Hm1 Hm2 Hcfg Ht Htt Ha Hat Hu Hut Hload Hdump Hget1 Hobj Hcol
              Hmod Hdirect Hget2 Hproj Hin Hy)
    as (w1 & Hprep & Hp1 & Hs1 & Hf1).
  destruct (patch_run env (JObj d) (JStr id)
              (sorted (list_to_set (map py_str projects) ∪ list_to_set pids)) w1 _
              (base_headers_obj d token agent Ht Ha)) as [line3 Hrun].
  cbn [py_str] in Hrun. rewrite Hpatch in Hrun. cbn [Z.eqb Pos.eqb] in Hrun.
  eexists. split; [|split; [|split]].
  - unfold main. rewrite (bind_Ok _ _ _ _ _ Hprep). cbv beta iota.
    rewrite Hdry. exact Hrun.
  - unfold patch_calls in *. cbn. now rewrite Hp1.
  - exact Hs1.
  - exact Hf1.
Qed.

End HappyPath.

Lemma main_updates_collection_witness :
  exists w',
    main (RT := Sample.runtime) (Demo.env (JArr [JStr "sodium"; JStr "lithium"]))
      (Demo.args_with_id "c1" false)
      (Demo.world [" Yes "] (JArr Demo.direct_modlist))
    = (Ok tt, w')
    /\ patch_calls w'
       = [HttpPatch "https://api.modrinth.com/v3/collection/c1"
            (json_dumps (PyRuntime := Sample.runtime)
               (JObj [("new_projects",
                       JArr [JStr "P7dR8mSH"; JStr "lithium"; JStr "sodium"])]))]
    /\ stdin w' = []
    /\ fs w' !! STATE_PATH
       = Some (Content (JObj [("user_id", JStr "U1");
                              ("collections", Demo.collections);
                              ("synced_at", JStr "2025-11-07T15:24:09+00:00")])).
Proof.
  apply (main_updates_collection (RT := Sample.runtime)
           (Demo.env (JArr [JStr "sodium"; JStr "lithium"]))
           (Demo.args_with_id "c1" false)
           (Demo.world [" Yes "] (JArr Demo.direct_modlist))
           [("token", JStr "mrp_x"); ("user_agent", JStr "me/tool");
            ("user_id", JStr "U1")]
           []
           [("id", JStr "c1"); ("projects", JArr [JStr "sodium"; JStr "lithium"])]
           (JStr "mrp_x") (JStr "me/tool") (JStr "U1")
           "c1" " Yes " []
           [JObj [("id", JStr "c1"); ("name", JStr "First")]]
           Demo.direct_modlist
           [JStr "sodium"; JStr "lithium"]
           ["P7dR8mSH"; "sodium"] "" "" "" None);
    try reflexivity; try discriminate.
  - repeat constructor. eexists. reflexivity.
  - eexists. split; [apply list_elem_of_here|reflexivity].
  - repeat constructor.
Defined.

(** ** The mod list *)

Section Modlist.
Context {RT : PyRuntime} (env : Env).

(** X21.  [load_modlist] returns exactly when the file holds a JSON
    list, which is what it returns; with no file it raises
    [FileNotFoundError], and on a document that is not a list
    [ValueError]; it changes nothing. *)
Theorem load_modlist_spec (path : string) (w : World) :
  (forall l w', load_modlist path w = (Ok l, w') <->
                w' = w /\ fs w !! path = Some (Content (JArr l)))
  /\ (fs w !! path = None ->
      exists msg, load_modlist path w = (Err (Exn FileNotFoundError msg), w))
  /\ (forall v, fs w !! path = Some (Content v) -> Py.is_list v = false ->
      exists msg, load_modlist path w = (Err (Exn ValueError msg), w)).
Proof.
  split; [|split].
  - intros l w'. split; [apply load_modlist_Ok_inv|].
    intros [-> Hfs]. now apply load_modlist_run.
  - intros Hfs. unfold load_modlist, bind, is_file, raise. cbv beta.
    rewrite Hfs. cbn. eauto.
  - intros v Hfs Hl. unfold load_modlist, bind, is_file, json_load, raise. cbv beta.
    rewrite Hfs. cbn. rewrite Hfs. destruct v; try discriminate; eauto.
Qed.

(** X22.  [main] returns only when its inputs were in order: the
    configuration file holds an object with the three fields, the mod
    list file, when it is not the state file, holds a JSON list, and a
    line of the input is [y] or [yes]. *)
Theorem main_returns_only_with_inputs (args : Args) (w w' : World) :
  main env args w = (Ok tt, w') ->
  (exists d, fs w !! arg_config args = Some (Content (JObj d))
     /\ forall k, k ∈ ["token"; "user_agent"; "user_id"] ->
          exists v, Py.dict_get d k = Some v /\ truthy v = true)
  /\ (arg_modlist args <> STATE_PATH -> arg_modlist args <> STATE_TMP ->
      exists l, fs w !! arg_modlist args = Some (Content (JArr l)))
  /\ (exists line, line ∈ stdin w
        /\ str_in (str_lower (str_strip line)) ["y"; "yes"] = true).
Proof.
  unfold main. intros H.
  apply bind_Ok_inv in H as ([[cfg cid] final] & w1 & Hprep & _).
  split; [|split].
  - apply main_prepare_Ok_inv in Hprep
      as (collections & w2 & w3 & modlist & w4 & ids & skipped & w5 & w6 & coll & w7
          & existing & w8 & w9 & w10 & Hcfg & _).
    apply load_config_Ok_iff in Hcfg as (_ & Hfs & d & -> & Hall). eauto.
  - intros H1 H2.
    apply main_prepare_Ok_inv in Hprep
      as (collections & w2 & w3 & modlist & w4 & ids & skipped & w5 & w6 & coll & w7
          & existing & w8 & w9 & w10 & _ & Hsync & Hchoose & Hmod & _).
    apply load_modlist_Ok_inv in Hmod as [_ Hmod].
    apply (within_try_except [EGet; ESave] []) in Hsync as (_ & Hf2 & _);
      [|apply within_sync_collections_to_state|apply within_collections_from_state].
    apply within_choose_collection in Hchoose as (_ & Hf3 & _).
    exists modlist. now rewrite <- (Hf2 _ H1 H2), <- (Hf3 _ H1 H2).
  - eapply main_prepare_confirmed; eauto.
Qed.

End Modlist.

(** ** When the collections cannot be fetched *)

Section Fallback.
Context {RT : PyRuntime} (env : Env).

(** A synchronisation that raises has not changed the state file. *)
Lemma sync_Err_state_file cfg w e w' :
  sync_collections_to_state env cfg w = (Err e, w') ->
  fs w' !! STATE_PATH = fs w !! STATE_PATH.
Proof.
  unfold sync_collections_to_state. unfold bind at 1.
  destruct (fetch_collections env cfg w) as [[colls|c|e0] w1] eqn:Hf;
    [|discriminate|intros [= _ <-]; apply fetch_collections_fs in Hf; now rewrite Hf].
  destruct (fetch_collections_Ok _ _ _ _ _ Hf) as (uid & l & Huid & -> & Hfs & _).
  unfold bind at 1.
  destruct (load_state w1) as [ol wl] eqn:Hload.
  assert (Hl : exists loaded, ol = Ok loaded /\ wl = w1).
  { revert Hload. unfold load_state.
    destruct (fs w1 !! STATE_PATH) as [[|v]|]; intros [= <- <-]; eauto. }
  destruct Hl as (loaded & -> & ->). clear Hload.
  rewrite Huid, bind_lift_Returns.
  destruct loaded as [| | | | |x|st];
    try (intros [= _ <-]; now rewrite Hfs).
  repeat (cbn [Py.setitem]; rewrite bind_lift_Returns).
  unfold bind at 1, save_state at 1.
  destruct (dump_error env _).
  - intros [= _ <-]. cbn [fs]. rewrite lookup_insert_ne by discriminate.
    now rewrite Hfs.
  - cbn [len]. rewrite !bind_lift_Returns, bind_print. discriminate.
Qed.

(** A synchronisation returns only when the state loaded is an
    object. *)
Lemma sync_Ok_state_object cfg w c w' :
  sync_collections_to_state env cfg w = (Ok c, w') ->
  exists st, load_state w = (Ok (JObj st), w).
Proof.
  unfold sync_collections_to_state. intros H.
  apply bind_Ok_inv in H as (colls & w1 & Hf & H).
  apply fetch_collections_fs in Hf.
  apply bind_Ok_inv in H as (state & w2 & Hload & H).
  apply bind_Ok_inv in H as (uid & w3 & _ & H).
  apply bind_Ok_inv in H as (state1 & w4 & Hset & H).
  apply lift_Ok_inv in Hset as [Hset _].
  destruct state as [| | | | | |st]; try discriminate.
  exists st. revert Hload. unfold load_state. rewrite Hf.
  destruct (fs w !! STATE_PATH) as [[|v]|]; intros [= <- _]; reflexivity.
Qed.

Lemma sync_no_exit cfg w code w' :
  sync_collections_to_state env cfg w <> (SystemExit code, w').
Proof.
  intros H.
  pose proof (safe_sync_collections_to_state env (fun _ _ => False) cfg w) as [_ Hx].
  rewrite H in Hx. now destruct (Hx code eq_refl) as (? & ? & _ & []).
Qed.

Lemma fallback_run cfg w e w1 :
  sync_collections_to_state env cfg w = (Err e, w1) ->
  try_except (sync_collections_to_state env cfg) collections_from_state w
  = (state <- load_state ;;
     c <- lift (Py.get state "collections") ;;
     let collections := Py.or_else c (JArr []) in
     if negb (truthy collections) then
       print "No collections in local state either; cannot continue." ;;
       sys_exit 1
     else
       print ("[info] Falling back to collections from " ++ STATE_PATH
              ++ " (snapshot may be outdated).") ;;
       ret collections)
      (emit (Print ("[warn] Failed to sync collections from API: " ++ exn_msg e)) w1).
Proof.
  intros H. unfold try_except. rewrite H. unfold collections_from_state.
  now rewrite bind_print.
Qed.

(** X23.  When the synchronisation raises, the run goes on with the
    collections of the state file, after a warning, if the file holds
    an object whose [collections] is true in Python's sense; it exits
    with status 1 if there is no state file, if the file is not a JSON
    document, or if the object has no such collections; and if the file
    holds a JSON document that is not an object, [AttributeError] is
    raised. *)
Theorem sync_fallback (cfg : json) (w : World) (e : exn) (w1 : World) :
  sync_collections_to_state env cfg w = (Err e, w1) ->
  (forall st c,
      fs w !! STATE_PATH = Some (Content (JObj st)) ->
      Py.dict_get st "collections" = Some c -> truthy c = true ->
      exists warn info,
        try_except (sync_collections_to_state env cfg) collections_from_state w
        = (Ok c, emit (Print info) (emit (Print warn) w1)))
  /\ (fs w !! STATE_PATH = None \/ fs w !! STATE_PATH = Some Unparseable
      \/ (exists st, fs w !! STATE_PATH = Some (Content (JObj st))
            /\ forall c, Py.dict_get st "collections" = Some c -> truthy c = false) ->
      exists warn,
        try_except (sync_collections_to_state env cfg) collections_from_state w
        = (SystemExit 1,
           emit (Print "No collections in local state either; cannot continue.")
             (emit (Print warn) w1)))
  /\ (forall v,
        fs w !! STATE_PATH = Some (Content v) -> (forall st, v <> JObj st) ->
        exists warn,
          try_except (sync_collections_to_state env cfg) collections_from_state w
          = (Err (Py.no_attribute "get"), emit (Print warn) w1)).
Proof.
  intros H. pose proof (sync_Err_state_file _ _ _ _ H) as Hfs.
  rewrite (fallback_run _ _ _ _ H).
  split; [|split].
  - intros st c Hst Hc Ht. eexists _, _.
    unfold bind at 1, load_state at 1. cbn [fs emit]. rewrite Hfs, Hst.
    cbn [Py.get Py.get_default]. rewrite Hc, bind_lift_Returns.
    unfold Py.or_else. rewrite Ht. cbn [negb]. rewrite Ht. cbn [negb].
    rewrite bind_print. reflexivity.
  - intros Hcase. eexists.
    unfold bind at 1, load_state at 1. cbn [fs emit]. rewrite Hfs.
    destruct Hcase as [-> | [-> | (st & -> & Hno)]];
      [reflexivity|reflexivity|].
    cbn [Py.get Py.get_default]. rewrite bind_lift_Returns.
    unfold Py.or_else.
    destruct (Py.dict_get st "collections") as [c|]; [|reflexivity].
    cbn [default]. rewrite (Hno c eq_refl). reflexivity.
  - intros v Hv Hno. eexists.
    unfold bind at 1, load_state at 1. cbn [fs emit]. rewrite Hfs, Hv.
    destruct v; try reflexivity. now destruct (Hno d).
Qed.

(** X24.  A state file that holds a JSON document which is not an
    object is not taken for an absent one: with a configuration in
    order, the run ends in [AttributeError] before a collection is
    chosen, whatever the server answers, and no update is sent. *)
Theorem non_object_state_is_fatal (args : Args) (w : World) (cfg v : json) :
  load_config (arg_config args) w = (Ok cfg, w) ->
  fs w !! STATE_PATH = Some (Content v) ->
  (forall st, v <> JObj st) ->
  exists w',
    main env args w = (Err (Py.no_attribute "get"), w')
    /\ patch_calls w' = patch_calls w
    /\ stdin w' = stdin w.
Proof.
  intros Hcfg Hv Hno.
  destruct (sync_collections_to_state env cfg w) as [[c|code|e] w1] eqn:Hsync.
  - apply sync_Ok_state_object in Hsync as [st Hst].
    revert Hst. unfold load_state. rewrite Hv. intros [= ->]. now destruct (Hno st).
  - now apply sync_no_exit in Hsync.
  - pose proof (sync_Err_state_file _ _ _ _ Hsync) as Hfs.
    pose proof (safe_sync_collections_to_state env exit_rule cfg w) as [Hp _].
    rewrite Hsync in Hp. cbn [snd] in Hp.
    assert (Hin : stdin w1 = stdin w).
    { revert Hsync. unfold sync_collections_to_state. unfold bind at 1.
      destruct (fetch_collections env cfg w) as [[colls|c|e0] w2] eqn:Hf.
      - destruct (fetch_collections_Ok _ _ _ _ _ Hf) as (uid & l & Huid & -> & Hfs2 & Hs2).
        unfold bind at 1, load_state at 1. rewrite Hfs2, Hv.
        rewrite Huid, bind_lift_Returns.
        destruct v; try (intros [= _ <-]; exact Hs2). now destruct (Hno d).
      - discriminate.
      - intros [= _ <-]. revert Hf.
        unfold fetch_collections, bind, lift, requests_get, resp_json, raise, ret.
        destruct (Py.getitem cfg "user_id"); [|now intros [= _ <-]].
        destruct (base_headers cfg); [|now intros [= _ <-]].
        destruct (http_get env _ _) as [e1|status text body]; [now intros [= _ <-]|].
        destruct (negb _); [now intros [= _ <-]|].
        destruct body as [x|]; [|now intros [= _ <-]].
        destruct (negb _); now intros [= _ <-]. }
    eexists. split; [|split].
    + unfold main, main_prepare.
      unfold bind at 1. unfold bind at 1.
      unfold try_except_class, try_except at 1. rewrite Hcfg.
      unfold bind at 1. rewrite (fallback_run _ _ _ _ Hsync).
      unfold bind at 1, load_state at 1. cbn [fs emit]. rewrite Hfs, Hv.
      destruct v; try reflexivity. now destruct (Hno d).
    + exact Hp.
    + exact Hin.
Qed.

End Fallback.

(** ** The state after a second synchronisation *)

Section Resync.
Context {RT : PyRuntime} (env : Env).

Lemma dict_set_same d k v : Py.dict_get d k = Some v -> Py.dict_set d k v = d.
Proof.
  induction d as [|[k' v'] d IH]; cbn; [discriminate|].
  destruct (String.eqb k' k); [now intros [= ->]|].
  intros H. now rewrite IH.
Qed.

Lemma dict_get_key d k v : Py.dict_get d k = Some v -> k ∈ map fst d.
Proof.
  induction d as [|[k' v'] d IH]; cbn; [discriminate|].
  destruct (String.eqb k' k) eqn:Hk.
  - apply String.eqb_eq in Hk. subst k'. intros _. apply list_elem_of_here.
  - intros H. apply list_elem_of_further. auto.
Qed.

Lemma dict_set_keys_present d k v :
  k ∈ map fst d -> map fst (Py.dict_set d k v) = map fst d.
Proof.
  intros Hk. rewrite dict_set_keys. now rewrite bool_decide_eq_true_2.
Qed.

(** X25.  A second synchronisation does not grow the state file: the
    three keys are assigned in place, so the keys of the state and their
    order stay as the first synchronisation left them; and with the
    same user, collections and time the state is the same. *)
Theorem resync_keeps_keys (st : list (string * json)) (user_id collections : json) :
  (forall (env' : Env) user_id' collections',
      map fst (synced_state env'
                 (synced_state env st user_id collections) user_id' collections')
      = map fst (synced_state env st user_id collections))
  /\ synced_state env (synced_state env st user_id collections) user_id collections
     = synced_state env st user_id collections.
Proof.
  destruct (synced_state_lookup env st user_id collections) as (H1 & H2 & H3 & _).
  split.
  - intros env' u c. unfold synced_state at 1.
    rewrite !dict_set_keys_present; [reflexivity|..].
    + eapply dict_get_key; eauto.
    + rewrite dict_set_keys_present by (eapply dict_get_key; eauto).
      eapply dict_get_key; eauto.
    + rewrite !dict_set_keys_present; [eapply dict_get_key; eauto|..].
      * eapply dict_get_key; eauto.
      * rewrite dict_set_keys_present by (eapply dict_get_key; eauto).
        eapply dict_get_key; eauto.
  - unfold synced_state at 1.
    rewrite (dict_set_same _ _ _ H1), (dict_set_same _ _ _ H2).
    now rewrite (dict_set_same _ _ _ H3).
Qed.

End Resync.

(** ** The order of the ids *)

Section FirstOccurrence.
Context {RT : PyRuntime}.

Lemma remove_dups_snoc (l : list string) p :
  remove_dups (l ++ [p]) = (filter (fun x => x <> p) (remove_dups l) ++ [p])%list.
Proof.
  induction l as [|x l IH]; [reflexivity|].
  cbn [app remove_dups].
  destruct (decide_rel elem_of x l) as [Hin|Hnin];
    destruct (decide_rel elem_of x (l ++ [p])%list) as [Hin'|Hnin'].
  - exact IH.
  - exfalso. apply Hnin', elem_of_app. now left.
  - apply elem_of_app in Hin' as [Hin'|Hin']; [tauto|].
    apply list_elem_of_singleton in Hin'. subst x.
    rewrite IH, filter_cons_False by tauto. reflexivity.
  - assert (Hne : x <> p).
    { intros ->. apply Hnin', elem_of_app. right. apply list_elem_of_here. }
    rewrite IH, filter_cons_True by assumption. reflexivity.
Qed.

Lemma filter_all (P : string -> Prop) `{!forall x, Decision (P x)} (l : list string) :
  (forall x, P x) -> filter P l = l.
Proof.
  intros HP. induction l as [|x l IH]; [reflexivity|].
  rewrite filter_cons_True by apply HP. now rewrite IH.
Qed.

Lemma first_occurrences_cons p (ps : list string) :
  reverse (remove_dups (reverse (p :: ps)))
  = p :: filter (fun x => x <> p) (reverse (remove_dups (reverse ps))).
Proof.
  rewrite reverse_cons, remove_dups_snoc, reverse_snoc. f_equal.
  now rewrite filter_reverse.
Qed.

Lemma collect_loop_first_occurrences modlist : forall pids ids skipped w,
  Forall2 (fun entry p => direct_pid entry = Some p) modlist pids ->
  collect_loop modlist (ids, skipped) w
  = (Ok ((ids ++ filter (fun x => x ∉ ids) (reverse (remove_dups (reverse pids))))%list,
         skipped), w).
Proof.
  induction modlist as [|entry rest IH]; intros pids ids skipped w Hall.
  - inversion Hall; subst. cbn. now rewrite app_nil_r.
  - inversion Hall as [|? p ? pids' Hp Hrest]; subst.
    cbn [collect_loop].
    rewrite (bind_Ok _ _ _ _ _ (collect_step_direct ids skipped entry p w Hp)).
    rewrite first_occurrences_cons.
    destruct (bool_decide (p ∉ ids)) eqn:Hfresh.
    + apply bool_decide_eq_true in Hfresh.
      rewrite (IH pids' _ _ _ Hrest), filter_cons_True by assumption.
      rewrite <- app_assoc. cbn [app]. do 5 f_equal.
      rewrite list_filter_filter. apply list_filter_iff. intros x.
      rewrite elem_of_app, list_elem_of_singleton. tauto.
    + apply bool_decide_eq_false in Hfresh.
      assert (Hin : p ∈ ids) by (destruct (decide (p ∈ ids)); tauto).
      rewrite (IH pids' _ _ _ Hrest), filter_cons_False by tauto.
      do 4 f_equal.
      rewrite list_filter_filter. apply list_filter_iff. intros x.
      split; [|tauto]. intros Hx. split; [exact Hx|]. intros ->. tauto.
Qed.

(** X26.  When the URL of every entry gives an id, the ids come in the
    order of the mod list, each at the place where it first appears:
    the list returned is the list of the ids of the entries with the
    later occurrences of every id removed. *)
Theorem collect_first_occurrences (modlist : list json) (pids : list string)
    (w : World) :
  Forall2 (fun entry p => direct_pid entry = Some p) modlist pids ->
  collect_project_ids_from_modlist modlist w
  = (Ok (reverse (remove_dups (reverse pids)), 0), w).
Proof.
  intros Hall. unfold collect_project_ids_from_modlist.
  rewrite (collect_loop_first_occurrences modlist pids [] 0 w Hall).
  cbn [app]. do 3 f_equal. apply filter_all. intros x. apply not_elem_of_nil.
Qed.

End FirstOccurrence.

Lemma main_returns_only_with_inputs_witness :
  exists l, fs (Demo.world ["1"; "s"; "y"] Demo.modlist) !! "modlist.json"
            = Some (Content (JArr l)).
Proof.
  refine (proj1 (proj2 (main_returns_only_with_inputs (RT := Sample.runtime)
                          (Demo.env (JArr [])) (Demo.args false)
                          (Demo.world ["1"; "s"; "y"] Demo.modlist) _ _)) _ _).
  - vm_compute. reflexivity.
  - discriminate.
  - discriminate.
Defined.

Lemma sync_fallback_witness :
  exists w',
    try_except (sync_collections_to_state (RT := Sample.runtime) Demo.offline Demo.cfg)
      collections_from_state
      (Demo.world_with_snapshot (JObj [("collections", Demo.collections)]))
    = (Ok Demo.collections, w').
Proof.
  destruct (proj1 (sync_fallback (RT := Sample.runtime) Demo.offline Demo.cfg
                     (Demo.world_with_snapshot (JObj [("collections", Demo.collections)]))
                     (Exn RequestException "connection refused")
                     (emit (HttpGet "https://api.modrinth.com/v3/user/U1/collections")
                        (Demo.world_with_snapshot
                           (JObj [("collections", Demo.collections)])))
                     eq_refl)
              [("collections", Demo.collections)] Demo.collections
              eq_refl eq_refl eq_refl) as (warn & info & H).
  eexists. exact H.
Defined.

Lemma non_object_state_is_fatal_witness :
  exists w',
    main (RT := Sample.runtime) (Demo.env (JArr [])) (Demo.args false)
      (Demo.world_with_snapshot (JArr []))
    = (Err (Py.no_attribute "get"), w')
    /\ patch_calls w' = []
    /\ stdin w' = ["1"; "s"; "n"].
Proof.
  apply (non_object_state_is_fatal (RT := Sample.runtime) (Demo.env (JArr []))
           (Demo.args false) (Demo.world_with_snapshot (JArr [])) Demo.cfg (JArr [])).
  - reflexivity.
  - reflexivity.
  - discriminate.
Defined.

Lemma collect_first_occurrences_witness :
  collect_project_ids_from_modlist (RT := Sample.runtime)
    [Demo.entry "Fabric API" "https://modrinth.com/mod/P7dR8mSH";
     Demo.entry "Sodium" "https://modrinth.com/mod/sodium/version/1.0";
     Demo.entry "Fabric again" "https://www.modrinth.com/mod/P7dR8mSH"]
    (mkWorld [] ∅ [])
  = (Ok (["P7dR8mSH"; "sodium"], 0), mkWorld [] ∅ []).
Proof.
  apply (collect_first_occurrences (RT := Sample.runtime) _
           ["P7dR8mSH"; "sodium"; "P7dR8mSH"]).
  repeat constructor.
Defined.

(** ** Input that ends before the operator has decided *)

Section EndOfInput.
Context {RT : PyRuntime}.

Lemma input_eof prompt w :
  stdin w = [] ->
  input prompt w = (Err (Exn EOFError "EOF when reading a line"), emit (Prompt prompt) w).
Proof. intros Hin. unfold input. cbn [emit stdin]. now rewrite Hin. Qed.

Lemma input_line prompt w line rest :
  stdin w = line :: rest ->
  input prompt w = (Ok line, mkWorld rest (fs w) (Prompt prompt :: trace w)).
Proof. intros Hin. unfold input. cbn [emit stdin fs trace]. now rewrite Hin. Qed.

Lemma prompt_loop_eof : forall lines fuel w,
  stdin w = lines ->
  Forall (fun line =>
            str_in (str_lower (str_strip line)) ["q"; "quit"] = false
            /\ str_in (str_lower (str_strip line)) ["s"; "skip"] = false
            /\ str_in (str_lower (str_strip line)) ["u"; "url"] = false) lines ->
  (length lines < fuel)%nat ->
  exists w', prompt_loop fuel w = (Err (Exn EOFError "EOF when reading a line"), w')
             /\ stdin w' = [] /\ fs w' = fs w.
Proof.
  induction lines as [|line rest IH]; intros fuel w Hin Hall Hfuel;
    (destruct fuel as [|fuel]; [cbn in Hfuel; lia|]); cbn [prompt_loop].
  - unfold bind at 1. rewrite (input_eof _ _ Hin).
    eexists. split; [reflexivity|]. split; [exact Hin|reflexivity].
  - inversion Hall as [|? ? (Hq & Hs & Hu) Hrest]; subst.
    rewrite (bind_Ok _ _ _ _ _ (input_line _ _ _ _ Hin)), Hq, Hs, Hu.
    destruct (IH fuel (mkWorld rest (fs w)
                         (Prompt "  [u] enter Modrinth URL  |  [s] skip this mod  |  [q] abort > "
                          :: trace w)) eq_refl Hrest)
      as (w' & Hrun & Hin' & Hfs'); [cbn [length] in Hfuel; lia|].
    exists w'. split; [exact Hrun|]. split; [exact Hin'|exact Hfs'].
Qed.

Lemma choose_loop_eof cols : forall lines fuel w,
  Forall (fun col => exists d, col = JObj d) cols ->
  stdin w = lines ->
  Forall (fun line =>
            str_in (str_lower (str_strip line)) ["q"; "quit"] = false
            /\ (forall c, c ∈ cols -> Py.get c "id" <> Returns (JStr (str_strip line)))
            /\ forall k, py_int (str_strip line) = Some k ->
                         ~ (1 <= k <= Z.of_nat (length cols))) lines ->
  (length lines < fuel)%nat ->
  exists w', choose_loop fuel cols w = (Err (Exn EOFError "EOF when reading a line"), w')
             /\ stdin w' = [] /\ fs w' = fs w.
Proof.
  induction lines as [|line rest IH]; intros fuel w Hobj Hin Hall Hfuel;
    (destruct fuel as [|fuel]; [cbn in Hfuel; lia|]); cbn [choose_loop].
  - unfold bind at 1. rewrite (input_eof _ _ Hin).
    eexists. split; [reflexivity|]. split; [exact Hin|reflexivity].
  - inversion Hall as [|? ? (Hq & Hid & Hk) Hrest]; subst.
    rewrite (bind_Ok _ _ _ _ _ (input_line _ _ _ _ Hin)), Hq.
    destruct (find_by_id_objects cols (str_strip line) Hobj) as (r & Hr & Hnone).
    apply Hnone in Hid. subst r. rewrite Hr, bind_lift_Returns.
    assert (Hlt : (length rest < fuel)%nat) by (cbn [length] in Hfuel; lia).
    destruct (py_int (str_strip line)) as [k|] eqn:Hint.
    + assert (Hrange : (1 <=? k) && (k <=? Z.of_nat (length cols)) = false).
      { apply not_true_is_false. intros Ht. apply andb_true_iff in Ht as [H1 H2].
        apply Z.leb_le in H1, H2. apply (Hk k eq_refl). lia. }
      rewrite Hrange, bind_print.
      match goal with
      | |- exists w', choose_loop fuel cols ?w0 = _ /\ _ =>
          destruct (IH fuel w0 Hobj eq_refl Hrest Hlt) as (w' & Hrun & Hin' & Hfs')
      end.
      exists w'. split; [exact Hrun|]. split; [exact Hin'|exact Hfs'].
    + rewrite bind_print.
      match goal with
      | |- exists w', choose_loop fuel cols ?w0 = _ /\ _ =>
          destruct (IH fuel w0 Hobj eq_refl Hrest Hlt) as (w' & Hrun & Hin' & Hfs')
      end.
      exists w'. split; [exact Hrun|]. split; [exact Hin'|exact Hfs'].
Qed.

(** X27.  A line that a prompt does not understand is read and the
    question asked again, and when the input ends before the operator
    has decided, [EOFError] is raised: at the resolver, when no line is
    [q], [quit], [s], [skip], [u] or [url]; at the picker, when no line
    is [q] or [quit], the id of a collection, or a number from 1 to the
    number of collections.  All the input has then been read. *)
Theorem unanswered_prompt_raises_eof :
  (forall (d : list (string * json)) (w : World),
      Forall (fun line =>
                str_in (str_lower (str_strip line)) ["q"; "quit"] = false
                /\ str_in (str_lower (str_strip line)) ["s"; "skip"] = false
                /\ str_in (str_lower (str_strip line)) ["u"; "url"] = false)
             (stdin w) ->
      exists w',
        prompt_for_modrinth_url (JObj d) w
        = (Err (Exn EOFError "EOF when reading a line"), w')
        /\ stdin w' = [])
  /\ (forall (cols : list json) (w : World),
        cols <> [] ->
        Forall (fun col => exists d, col = JObj d) cols ->
        Forall (fun line =>
                  str_in (str_lower (str_strip line)) ["q"; "quit"] = false
                  /\ (forall c, c ∈ cols ->
                        Py.get c "id" <> Returns (JStr (str_strip line)))
                  /\ forall k, py_int (str_strip line) = Some k ->
                               ~ (1 <= k <= Z.of_nat (length cols)))
               (stdin w) ->
        exists w',
          choose_collection (JArr cols) None w
          = (Err (Exn EOFError "EOF when reading a line"), w')
          /\ stdin w' = []).
Proof.
  split.
  - intros d w Hall. unfold prompt_for_modrinth_url.
    cbn [Py.get_default Py.get]. rewrite !bind_lift_Returns, !bind_print.
    destruct (truthy _); rewrite bind_print; cbv beta;
      match goal with
      | |- exists w', prompt_loop ?n ?w0 = _ /\ _ =>
          destruct (prompt_loop_eof (stdin w) n w0 eq_refl Hall) as (w' & Hrun & Hin & _);
            [cbn [stdin emit]; lia|]
      end; eauto.
  - intros cols w Hne Hobj Hall. unfold choose_collection. cbn [pid_truthy].
    assert (Htruthy : truthy (JArr cols) = true) by now destruct cols.
    rewrite Htruthy. cbn [negb]. rewrite bind_print. cbn [Py.iter].
    rewrite bind_lift_Returns.
    destruct (print_collections_objects cols Hobj 1
                (emit (Print (String "010" "Your collections:")) w))
      as (w1 & Hrun & Hin1 & _).
    rewrite (bind_Ok _ _ _ _ _ Hrun). cbn [stdin emit] in Hin1.
    rewrite <- Hin1 in Hall.
    destruct (choose_loop_eof cols (stdin w1) (S (length (stdin w1))) w1 Hobj eq_refl Hall)
      as (w' & Hloop & Hin' & _); [lia|].
    eauto.
Qed.

End EndOfInput.

Lemma unanswered_prompt_raises_eof_witness :
  exists w',
    prompt_for_modrinth_url (RT := Sample.runtime) (Demo.entry "Elsewhere" "")
      (mkWorld ["what?"; ""; "yes"] ∅ [])
    = (Err (Exn EOFError "EOF when reading a line"), w')
    /\ stdin w' = [].
Proof.
  apply (proj1 (unanswered_prompt_raises_eof (RT := Sample.runtime))).
  repeat constructor.
Defined.
